(** * Finance dashboard: the ledger pipeline and the tax calculator

    A shallow embedding of the Python sources
    - [utils/tax_calculator.py]  ([calculate_tax_liability]),
    - [utils/file_handler.py]    (the split debit/credit case of [parse_csv],
                                  [clean_description]),
    - [utils/vendor_database.py] ([VENDOR_DATABASE], [match_vendor]),
    - [utils/data_processor.py]  ([categorize_transactions]),
    - [app.py]                   (the default tax table, the import merge),
    together with the properties of the specification that concern them.

    Conventions of the embedding.
    - Python numbers (int and float) are exact rationals [Q]; [float('inf')],
      which the default tax table uses as the last upper bound, is the extra
      value [Inf] of [bound].  Sums and products are exact, except in
      [TaxFloat], which is the tax calculator with every operation rounded
      as binary64 rounds it ([Binary64.round64]): the properties on the
      order and the size of the tax are stated there.
    - A Python [str] is a [string] of 8-bit characters read as ASCII text;
      the properties that depend on the class of every character are stated
      for text within ASCII ([PyStr.ascii_text]).
    - A pandas [DataFrame] is the list of its rows, each with its index
      label; the columns are the fields of a record.  Dates are valid
      timestamps (no NaT) and cells hold values (no NaN).
    - A function that can raise returns an [option]; [None] is the exception. *)

From Stdlib Require Import List Bool Arith ZArith QArith Qabs Qround Qpower.
From Stdlib Require Import Lia Lqa.
From Stdlib Require Import String Ascii.
From Stdlib Require Import Permutation Sorted.
Import ListNotations.

(** ** Rational comparisons as Python's [<], [<=] *)

Definition Qlt_bool (x y : Q) : bool := negb (Qle_bool y x).

(** * utils/tax_calculator.py *)

Module TaxCalculator.

(** An upper bound of a bracket: a number or [float('inf')]. *)
Inductive bound : Type :=
| Fin (q : Q)
| Inf.

(** One entry of [tax_brackets]: [{'min': .., 'max': .., 'rate': ..}]. *)
Record bracket : Type := Bracket {
  b_min : Q;
  b_max : bound;
  b_rate : Q
}.

(** One entry of [bracket_breakdown]. *)
Record breakdown_entry : Type := Entry {
  e_min : Q;
  e_max : bound;
  e_rate : Q;
  income_in_bracket : Q;
  tax_amount : Q
}.

(** The dictionary [calculate_tax_liability] returns. *)
Record tax_result : Type := TaxResult {
  annual_income : Q;
  total_tax : Q;
  effective_rate : Q;
  bracket_breakdown : list breakdown_entry
}.

(** [sorted(tax_brackets, key=lambda x: x['min'])]: Python's sort is stable,
    so the result is the one of a stable insertion sort. *)
Fixpoint insert_by_min (b : bracket) (l : list bracket) : list bracket :=
  match l with
  | [] => [b]
  | x :: t =>
      if Qle_bool (b_min b) (b_min x) then b :: x :: t
      else x :: insert_by_min b t
  end.

Fixpoint sorted_brackets (l : list bracket) : list bracket :=
  match l with
  | [] => []
  | b :: t => insert_by_min b (sorted_brackets t)
  end.

(** The [if / elif / elif / else] chain that computes [income_in_bracket]
    from [remaining_income].  With [max = inf] the test
    [remaining_income > max_amount] is false and [max - min] is never
    evaluated. *)
Definition bracket_income (remaining_income : Q) (b : bracket) : Q :=
  if Qle_bool remaining_income 0 then 0
  else match b_max b with
       | Fin max_amount =>
           if Qle_bool (b_min b) remaining_income
              && Qle_bool remaining_income max_amount
           then remaining_income - b_min b
           else if Qlt_bool max_amount remaining_income
           then max_amount - b_min b
           else 0
       | Inf =>
           if Qle_bool (b_min b) remaining_income
           then remaining_income - b_min b
           else 0
       end.

(** The [for bracket in sorted_brackets] loop, with its [break]; the state
    is [(total_tax, remaining_income, bracket_breakdown)]. *)
Fixpoint bracket_loop (bs : list bracket) (total remaining : Q)
    (breakdown : list breakdown_entry) : Q * list breakdown_entry :=
  match bs with
  | [] => (total, breakdown)
  | b :: bs' =>
      let inc := bracket_income remaining b in
      let tax := inc * b_rate b in
      let total' := total + tax in
      let remaining' := remaining - inc in
      let breakdown' :=
        if Qlt_bool 0 inc
        then breakdown ++ [Entry (b_min b) (b_max b) (b_rate b) inc tax]
        else breakdown in
      if Qle_bool remaining' 0 then (total', breakdown')
      else bracket_loop bs' total' remaining' breakdown'
  end.

Definition calculate_tax_liability (income : Q) (tax_brackets : list bracket)
    : tax_result :=
  let '(total, breakdown) :=
    bracket_loop (sorted_brackets tax_brackets) 0 income [] in
  let eff := if Qlt_bool 0 income then total / income * 100 else 0 in
  TaxResult income total eff breakdown.

(** [st.session_state.tax_brackets] of app.py: the default US table for 2023
    (single filer). *)
Definition default_tax_brackets : list bracket :=
  [ Bracket 0 (Fin 11000) (10 # 100);
    Bracket 11000 (Fin 44725) (12 # 100);
    Bracket 44725 (Fin 95375) (22 # 100);
    Bracket 95375 (Fin 182100) (24 # 100);
    Bracket 182100 (Fin 231250) (32 # 100);
    Bracket 231250 (Fin 578125) (35 # 100);
    Bracket 578125 Inf (37 # 100) ].

(** Sum of the [tax_amount] column of a breakdown. *)
Definition sum_tax (l : list breakdown_entry) : Q :=
  fold_right (fun e acc => tax_amount e + acc) 0 l.

(** Ascending by [min]. *)
Definition ascending_by_min (l : list bracket) : Prop :=
  StronglySorted (fun a b => b_min a <= b_min b) l.

(** A bracket whose span is not reversed and whose rate is not negative. *)
Definition span_ok (b : bracket) : Prop :=
  match b_max b with
  | Fin m => b_min b <= m
  | Inf => True
  end.

Definition rate_ok (b : bracket) : Prop := 0 <= b_rate b.

(** The tax the loop adds when it starts on [bs] with [remaining] left:
    [bracket_loop] without its accumulators. *)
Fixpoint tax_from (bs : list bracket) (remaining : Q) : Q :=
  match bs with
  | [] => 0
  | b :: bs' =>
      let inc := bracket_income remaining b in
      inc * b_rate b
      + (if Qle_bool (remaining - inc) 0 then 0
         else tax_from bs' (remaining - inc))
  end.

(** What every entry of a breakdown satisfies. *)
Definition entry_ok (e : breakdown_entry) : Prop :=
  0 < income_in_bracket e /\ tax_amount e = income_in_bracket e * e_rate e.

(** A table with one bracket whose bounds are the wrong way round, as the
    bracket editor of app.py lets a user save it. *)
Definition reversed_bracket : list bracket := [Bracket 10 (Fin 5) (1 # 10)].

End TaxCalculator.

(** * Python strings *)

Module PyStr.

Local Open Scope nat_scope.
Local Open Scope string_scope.

Definition code (c : ascii) : N := N_of_ascii c.

Definition in_range (lo hi : N) (c : ascii) : bool :=
  (N.leb lo (code c) && N.leb (code c) hi)%bool.

(** [str.isspace] on ASCII: TAB, LF, VT, FF, CR, FS, GS, RS, US and the
    space.  [str.split()], [str.strip()] and the [\s] of [re] all use it.
    The white space beyond ASCII is not in the class, see [ascii_text]. *)
Definition is_space (c : ascii) : bool :=
  (in_range 9 13 c || in_range 28 32 c)%bool.

Definition is_upper (c : ascii) : bool := in_range 65 90 c.
Definition is_lower (c : ascii) : bool := in_range 97 122 c.
Definition is_alpha (c : ascii) : bool := (is_upper c || is_lower c)%bool.
Definition is_digit (c : ascii) : bool := in_range 48 57 c.

(** The [\w] of [re] on ASCII: letters, digits and the underscore.  The
    word characters beyond ASCII are not in the class, see [ascii_text]. *)
Definition is_word (c : ascii) : bool :=
  (is_alpha c || is_digit c || N.eqb (code c) 95)%bool.

Definition lower_char (c : ascii) : ascii :=
  if is_upper c then ascii_of_N (code c + 32) else c.

Definition upper_char (c : ascii) : ascii :=
  if is_lower c then ascii_of_N (code c - 32) else c.

Fixpoint map_chars (f : ascii -> ascii) (s : string) : string :=
  match s with
  | EmptyString => EmptyString
  | String c t => String (f c) (map_chars f t)
  end.

(** [s.lower()], [s.upper()] *)
Definition lower : string -> string := map_chars lower_char.
Definition upper : string -> string := map_chars upper_char.

(** [s.startswith(p)] *)
Definition startswith (s p : string) : bool := String.prefix p s.

(** [sub in s] *)
Fixpoint contains (sub s : string) : bool :=
  (String.prefix sub s ||
   match s with
   | EmptyString => false
   | String _ t => contains sub t
   end)%bool.

(** [any(k in s for k in keywords)] *)
Definition any_in (keywords : list string) (s : string) : bool :=
  existsb (fun k => contains k s) keywords.

(** [s[n:]] *)
Fixpoint drop (n : nat) (s : string) : string :=
  match n, s with
  | O, _ => s
  | S n', String _ t => drop n' t
  | S _, EmptyString => EmptyString
  end.

(** [s[:n]] *)
Fixpoint take (n : nat) (s : string) : string :=
  match n, s with
  | S n', String c t => String c (take n' t)
  | _, _ => EmptyString
  end.

Definition is_empty (s : string) : bool :=
  match s with EmptyString => true | _ => false end.

(** [s.lstrip()], [s.rstrip()], [s.strip()] *)
Fixpoint lstrip (s : string) : string :=
  match s with
  | String c t => if is_space c then lstrip t else s
  | EmptyString => EmptyString
  end.

Fixpoint rstrip (s : string) : string :=
  match s with
  | EmptyString => EmptyString
  | String c t =>
      let t' := rstrip t in
      if (is_space c && is_empty t')%bool then EmptyString else String c t'
  end.

Definition strip (s : string) : string := rstrip (lstrip s).

(** [s.split()]: the maximal runs of characters that are not white space.
    [cur] is the run being read. *)
Fixpoint split_from (cur : string) (s : string) : list string :=
  match s with
  | EmptyString => if is_empty cur then [] else [cur]
  | String c t =>
      if is_space c
      then (if is_empty cur then split_from EmptyString t
            else cur :: split_from EmptyString t)
      else split_from (cur ++ String c EmptyString) t
  end.

Definition split (s : string) : list string := split_from EmptyString s.

(** [s.split(sep)] for a one-character separator: never an empty list. *)
Fixpoint split_on_from (sep : ascii) (cur : string) (s : string)
    : list string :=
  match s with
  | EmptyString => [cur]
  | String c t =>
      if Ascii.eqb c sep then cur :: split_on_from sep EmptyString t
      else split_on_from sep (cur ++ String c EmptyString) t
  end.

Definition split_on (sep : ascii) (s : string) : list string :=
  split_on_from sep EmptyString s.

(** [sep.join(l)] *)
Definition join (sep : string) (l : list string) : string :=
  String.concat sep l.

(** [' '.join(s.split())] *)
Definition collapse (s : string) : string := join " " (split s).

(** Membership in a list of strings: [x in l], and [len(set(a) & set(b))]. *)
Definition mem (x : string) (l : list string) : bool :=
  existsb (String.eqb x) l.

Fixpoint dedup (l : list string) : list string :=
  match l with
  | [] => []
  | x :: t => if mem x t then dedup t else x :: dedup t
  end.

Definition overlap (a b : list string) : nat :=
  List.length (dedup (filter (fun w => mem w b) a)).

(** Predicates on strings, for the properties. *)

(** Every character is white space (the empty string included). *)
Fixpoint blank (s : string) : bool :=
  match s with
  | EmptyString => true
  | String c t => (is_space c && blank t)%bool
  end.

(** No character is white space. *)
Fixpoint spaceless (s : string) : bool :=
  match s with
  | EmptyString => true
  | String c t => (negb (is_space c) && spaceless t)%bool
  end.

Definition starts_with_text (s : string) : bool :=
  match s with
  | String c _ => negb (is_space c)
  | EmptyString => false
  end.

(** Every white space character is a single space and is followed by a
    character that is not white space: the shape of [' '.join(s.split())]. *)
Fixpoint tidy (s : string) : bool :=
  match s with
  | EmptyString => true
  | String c t =>
      ((if is_space c then Ascii.eqb c " " && starts_with_text t else true)
       && tidy t)%bool
  end.

(** A word of [s.split()]. *)
Definition word (w : string) : Prop := w <> EmptyString /\ spaceless w = true.

Fixpoint last_char (s : string) : option ascii :=
  match s with
  | EmptyString => None
  | String c t =>
      match last_char t with
      | Some d => Some d
      | None => Some c
      end
  end.

(** The character before the position reached after reading [w], when
    [prev] was the character before [w]. *)
Definition last_or (prev : option ascii) (w : string) : option ascii :=
  match last_char w with
  | Some d => Some d
  | None => prev
  end.

Fixpoint all_chars (p : ascii -> bool) (s : string) : bool :=
  match s with
  | EmptyString => true
  | String c t => (p c && all_chars p t)%bool
  end.

(** Text of ASCII characters only.  On such text [is_space] and [is_word]
    are the classes Python uses.  On other text Python's [str] methods and
    the classes of [re] also take characters beyond ASCII for white space
    (U+0085, U+00A0, ...) or for word characters (accented letters), which
    the classes above do not: the properties that depend on the class of
    every character are stated for ASCII text. *)
Definition ascii_text (s : string) : bool :=
  all_chars (fun c => N.ltb (code c) 128) s.

(** An optional string that is ASCII text when it is given. *)
Definition ascii_hint (s : option string) : bool :=
  match s with
  | Some x => ascii_text x
  | None => true
  end.

End PyStr.

(** * The regular expressions of Python's [re] that the sources use *)

Module Re.

Import PyStr.
Local Open Scope nat_scope.
Local Open Scope string_scope.

(** The fragment of the pattern language that occurs in the sources.  Every
    repetition in them ([\s+], [\d{5,}], [[A-Z]{3}], ...) is over a single
    character class, so repetition is [RRep class lo hi]. *)
Inductive regex : Type :=
| REps
| RChar (p : ascii -> bool)
| RSeq (r1 r2 : regex)
| RAlt (r1 r2 : regex)
| RRep (p : ascii -> bool) (lo : nat) (hi : option nat)
| RGroup (n : nat) (r : regex)
| RWordB
| REnd
| RNotBehind (p : ascii -> bool)
| RNotAhead (p : ascii -> bool).

Definition captures : Type := list (nat * string).

Fixpoint group (n : nat) (caps : captures) : string :=
  match caps with
  | [] => EmptyString
  | (m, s) :: t => if Nat.eqb n m then s else group n t
  end.

Definition word_before (prev : option ascii) : bool :=
  match prev with Some c => is_word c | None => false end.

Definition word_at (s : string) : bool :=
  match s with String c _ => is_word c | EmptyString => false end.

(** The text between position [s] and the later position [s'] (a suffix of
    [s]). *)
Definition consumed (s s' : string) : string :=
  take (String.length s - String.length s') s.

Definition has_room (hi : option nat) : bool :=
  match hi with Some O => false | _ => true end.

Definition dec_hi (hi : option nat) : option nat :=
  match hi with Some n => Some (pred n) | None => None end.

Section Matcher.

Variable A : Type.

(** Greedy repetition of a class, longest first, giving characters back one
    at a time when the continuation fails. *)
Fixpoint rep_greedy (p : ascii -> bool) (lo : nat) (hi : option nat)
    (prev : option ascii) (s : string)
    (k : option ascii -> string -> option A) : option A :=
  let stop := match lo with O => k prev s | S _ => None end in
  match s with
  | String c t =>
      if (p c && has_room hi)%bool then
        match rep_greedy p (pred lo) (dec_hi hi) (Some c) t k with
        | Some x => Some x
        | None => stop
        end
      else stop
  | EmptyString => stop
  end.

(** Backtracking matcher at one position: [prev] is the character before
    the position, [s] the text from it on, [k] what remains to be matched.
    Alternatives are tried left to right, as [re] does. *)
Fixpoint rmatch (r : regex) (prev : option ascii) (s : string)
    (caps : captures)
    (k : option ascii -> string -> captures -> option A) : option A :=
  match r with
  | REps => k prev s caps
  | RChar p =>
      match s with
      | String c t => if p c then k (Some c) t caps else None
      | EmptyString => None
      end
  | RSeq r1 r2 =>
      rmatch r1 prev s caps (fun prev' s' caps' => rmatch r2 prev' s' caps' k)
  | RAlt r1 r2 =>
      match rmatch r1 prev s caps k with
      | Some x => Some x
      | None => rmatch r2 prev s caps k
      end
  | RRep p lo hi =>
      rep_greedy p lo hi prev s (fun prev' s' => k prev' s' caps)
  | RGroup n r1 =>
      rmatch r1 prev s caps
        (fun prev' s' caps' => k prev' s' ((n, consumed s s') :: caps'))
  | RWordB =>
      if xorb (word_before prev) (word_at s) then k prev s caps else None
  | REnd =>
      if (is_empty s || String.eqb s (String "010" EmptyString))%bool
      then k prev s caps else None
  | RNotBehind p =>
      match prev with
      | Some c => if p c then None else k prev s caps
      | None => k prev s caps
      end
  | RNotAhead p =>
      match s with
      | String c _ => if p c then None else k prev s caps
      | EmptyString => k prev s caps
      end
  end.

End Matcher.

Arguments rep_greedy {A} p lo hi prev s k.
Arguments rmatch {A} r prev s caps k.

(** A match found at a position: the text after it and the groups. *)
Definition match_at (r : regex) (prev : option ascii) (s : string)
    : option (string * captures) :=
  rmatch r prev s [] (fun _ s' caps => Some (s', caps)).

(** [re.search(r, s)]: the leftmost position with a match; the result is
    the groups of the match ([None] when there is no match). *)
Fixpoint search_from (r : regex) (prev : option ascii) (s : string)
    : option captures :=
  match match_at r prev s with
  | Some (_, caps) => Some caps
  | None =>
      match s with
      | String c t => search_from r (Some c) t
      | EmptyString => None
      end
  end.

Definition search (r : regex) (s : string) : option captures :=
  search_from r None s.

Definition found (r : regex) (s : string) : bool :=
  match search r s with Some _ => true | None => false end.

(** [re.sub(r, '', s)]: the non-overlapping matches, leftmost first, are
    deleted.  [skip] counts the characters of the current match that are
    still to be dropped. *)
Fixpoint delete_from (r : regex) (prev : option ascii) (s : string)
    (skip : nat) : string :=
  match s with
  | EmptyString => EmptyString
  | String c t =>
      match skip with
      | S n => delete_from r (Some c) t n
      | O =>
          match match_at r prev s with
          | Some (s', _) =>
              match String.length s - String.length s' with
              | S n => delete_from r (Some c) t n
              | O => String c (delete_from r (Some c) t 0)
              end
          | None => String c (delete_from r (Some c) t 0)
          end
      end
  end.

Definition delete (r : regex) (s : string) : string :=
  delete_from r None s 0.

(** Pattern builders. *)
Definition chr (c : ascii) : regex := RChar (Ascii.eqb c).

(** A literal character under [re.IGNORECASE]. *)
Definition chr_i (c : ascii) : regex :=
  RChar (fun x => Ascii.eqb (lower_char x) (lower_char c)).

Fixpoint lit (s : string) : regex :=
  match s with
  | EmptyString => REps
  | String c t => RSeq (chr c) (lit t)
  end.

Fixpoint lit_i (s : string) : regex :=
  match s with
  | EmptyString => REps
  | String c t => RSeq (chr_i c) (lit_i t)
  end.

Fixpoint alts (l : list regex) : regex :=
  match l with
  | [] => RChar (fun _ => false)
  | [r] => r
  | r :: t => RAlt r (alts t)
  end.

Fixpoint seqs (l : list regex) : regex :=
  match l with
  | [] => REps
  | [r] => r
  | r :: t => RSeq r (seqs t)
  end.

Definition plus (p : ascii -> bool) : regex := RRep p 1 None.
Definition star (p : ascii -> bool) : regex := RRep p 0 None.
Definition between (p : ascii -> bool) (lo hi : nat) : regex :=
  RRep p lo (Some hi).
Definition at_least (p : ascii -> bool) (lo : nat) : regex := RRep p lo None.

(** [r'\b' + re.escape(w) + r'\b'] *)
Definition whole_word (w : string) : regex := seqs [RWordB; lit w; RWordB].

(** The same under [re.IGNORECASE]. *)
Definition whole_word_i (w : string) : regex :=
  seqs [RWordB; lit_i w; RWordB].

End Re.

(** * utils/file_handler.py *)

Module FileHandler.

Import PyStr Re.
Local Open Scope string_scope.

(** ** [parse_csv], the split debit/credit case *)

(** A cell after [pd.to_numeric(..., errors='coerce')]: [None] is NaN.
    [.fillna(0)] follows. *)
Definition fillna0 (v : option Q) : Q :=
  match v with Some q => q | None => 0%Q end.

Definition Qneq_bool (x y : Q) : bool := negb (Qeq_bool x y).

(** One row of
    [credit_values], [debit_values = -1 * debit_values.abs()],
    [df['combined_amount'] = credit_values + debit_values],
    [df.loc[credit_values != 0, 'combined_amount'] = credit_values],
    [df.loc[debit_values != 0, 'combined_amount'] = debit_values]. *)
Definition combined_amount (credit_parsed debit_parsed : option Q) : Q :=
  let credit_values := fillna0 credit_parsed in
  let debit_values := (-1 * Qabs (fillna0 debit_parsed))%Q in
  let combined := (credit_values + debit_values)%Q in
  let combined :=
    if Qneq_bool credit_values 0 then credit_values else combined in
  let combined :=
    if Qneq_bool debit_values 0 then debit_values else combined in
  combined.

(** The two columns, row by row. *)
Definition combined_amounts (rows : list (option Q * option Q)) : list Q :=
  map (fun r => combined_amount (fst r) (snd r)) rows.

(** ** [clean_description] *)

Definition tab : ascii := "009"%char.

Definition sp_class (c : ascii) : bool := is_space c.

(** The class [[A-Za-z0-9\s&]] *)
Definition payee_class (c : ascii) : bool :=
  (is_alpha c || is_digit c || is_space c || Ascii.eqb c "&")%bool.

(** [\b(DDR|BGC|CBP|BCC|CPM|BP|SO|DD|FT)$] *)
Definition suffix_re : regex :=
  seqs [RWordB;
        RGroup 1 (alts (map lit
          ["DDR"; "BGC"; "CBP"; "BCC"; "CPM"; "BP"; "SO"; "DD"; "FT"]));
        REnd].

(** [ON\s+\d+\s+[A-Z]{3}] *)
Definition on_date_re : regex :=
  seqs [lit "ON"; plus is_space; plus is_digit; plus is_space;
        between is_upper 3 3].

(** [Direct\s+Debit\s+to\s+BUPA], IGNORECASE *)
Definition bupa_re : regex :=
  seqs [lit_i "Direct"; plus is_space; lit_i "Debit"; plus is_space;
        lit_i "to"; plus is_space; lit_i "BUPA"].

(** [Direct\s+Debit\s+to\s+([A-Za-z0-9\s&]+)], IGNORECASE *)
Definition dd_re : regex :=
  seqs [lit_i "Direct"; plus is_space; lit_i "Debit"; plus is_space;
        lit_i "to"; plus is_space; RGroup 1 (plus payee_class)].

(** [(Payment|Transfer)\s+to\s+([A-Za-z0-9\s&]+)], IGNORECASE *)
Definition payment_re : regex :=
  seqs [RGroup 1 (RAlt (lit_i "Payment") (lit_i "Transfer")); plus is_space;
        lit_i "to"; plus is_space; RGroup 2 (plus payee_class)].

(** [Ref:\s*([A-Za-z0-9\s&]+)], IGNORECASE *)
Definition ref_re : regex :=
  seqs [lit_i "Ref:"; star is_space; RGroup 1 (plus payee_class)].

(** [[A-Za-z]{3,}] *)
Definition name_re : regex := at_least is_alpha 3.

(** [\b(REF|ID|TRXN|TRAN|TRANS|TRN)[\s#:]*\d+\b], IGNORECASE *)
Definition refnum_re : regex :=
  seqs [RWordB;
        RGroup 1 (alts (map lit_i
          ["REF"; "ID"; "TRXN"; "TRAN"; "TRANS"; "TRN"]));
        star (fun c => (is_space c || Ascii.eqb c "#" || Ascii.eqb c ":")%bool);
        plus is_digit; RWordB].

(** [\b\d{5,}\b] *)
Definition long_number_re : regex :=
  seqs [RWordB; at_least is_digit 5; RWordB].

(** [date_patterns] *)
Definition date_patterns : list regex :=
  [ seqs [between is_digit 1 2; chr "/"; between is_digit 1 2; chr "/";
          between is_digit 2 4];
    seqs [between is_digit 1 2; chr "-"; between is_digit 1 2; chr "-";
          between is_digit 2 4];
    seqs [between is_digit 2 4; chr "-"; between is_digit 1 2; chr "-";
          between is_digit 1 2];
    seqs [between is_digit 1 2; RChar is_space; between is_alpha 3 3;
          RChar is_space; between is_digit 2 4] ].

Definition prefixes : list string :=
  [ "PAYMENT TO "; "PAYMENT FROM "; "PURCHASE AT "; "POS PURCHASE ";
    "DEPOSIT AT "; "ATM "; "CHQ "; "CHEQUE "; "DIRECT DEPOSIT ";
    "ACH "; "CREDIT "; "DEBIT "; "DIRECT DEBIT TO " ].

(** The chain of [if re.search(..., cleaned, re.IGNORECASE): return "..."],
    in the order of the source. *)
Definition merchant_rules : list (regex * string) :=
  [ (RAlt (lit_i "AMEX") (lit_i "American Express"), "American Express");
    (alts [lit_i "VISA"; lit_i "MASTERCARD"; lit_i "CREDIT CARD PMT"],
       "Credit Card Payment");
    (RAlt (lit_i "AMAZON") (lit_i "AMZN"), "Amazon");
    (lit_i "TESCO", "Tesco");
    (lit_i "SAINSBURY", "Sainsbury's");
    (lit_i "ASDA", "Asda");
    (lit_i "ALDI", "Aldi");
    (lit_i "LIDL", "Lidl");
    (lit_i "MORRISONS", "Morrisons");
    (lit_i "WAITROSE", "Waitrose");
    (lit_i "IKEA", "IKEA");
    (lit_i "NETFLIX", "Netflix");
    (lit_i "SPOTIFY", "Spotify");
    (RAlt (lit_i "BRITISH GAS") (lit_i "BRITISHGAS"), "British Gas");
    (RAlt (lit_i "EDF") (lit_i "E.D.F"), "EDF Energy");
    (RAlt (lit_i "THAMES WATER") (lit_i "THAMESWATER"), "Thames Water");
    (RAlt (lit_i "TV LICENSE") (lit_i "TVLICENSE"), "TV License");
    (seqs [RNotBehind is_alpha; lit_i "SKY"; RNotAhead is_alpha], "Sky");
    (RAlt (lit_i "VIRGIN MEDIA") (lit_i "VIRGINMEDIA"), "Virgin Media");
    (alts [lit_i "BT GROUP"; lit_i "BTGROUP"; lit_i "BT.COM"], "BT") ].

Definition type_indicators : list string :=
  [ "PURCHASE"; "PAYMENT"; "TRANSFER"; "FEE"; "INTEREST"; "DEPOSIT";
    "WITHDRAWAL"; "REFUND"; "REVERSAL"; "CHARGE"; "CREDIT"; "DEBIT";
    "TRANSACTION" ].

(** The branch under [if '\t' in cleaned:]. *)
Definition tab_branch (cleaned : string) : string :=
  match split_on tab cleaned with
  | p0 :: rest =>
      let vendor_part := strip p0 in
      if mem vendor_part ["Direct Debit"; "Debit"; "Card Purchase"] then
        match rest with
        | p1 :: _ =>
            let vendor_part := strip p1 in
            let vendor_part := strip (delete suffix_re vendor_part) in
            let vendor_part := strip (delete on_date_re vendor_part) in
            vendor_part
        | [] => vendor_part
        end
      else vendor_part
  | [] => EmptyString
  end.

(** [ref_match] and the test that the reference looks like a name: the
    value returned, if this rule returns. *)
Definition ref_rule (cleaned : string) : option string :=
  match search ref_re cleaned with
  | Some caps =>
      let ref := strip (group 1 caps) in
      if found name_re ref then Some ref else None
  | None => None
  end.

(** The rules that return at once: the tab format, [Direct Debit to],
    [Payment|Transfer to] and [Ref:]. *)
Definition early_rules (cleaned : string) : option string :=
  if contains (String tab EmptyString) cleaned then Some (tab_branch cleaned)
  else if found bupa_re cleaned then Some "BUPA Healthcare"
  else match search dd_re cleaned with
       | Some caps => Some (strip (group 1 caps))
       | None =>
           match search payment_re cleaned with
           | Some caps => Some (strip (group 2 caps))
           | None => ref_rule cleaned
           end
       end.

(** Reference numbers, long numbers, dates and leading prefixes removed,
    white space collapsed again. *)
Definition strip_noise (cleaned : string) : string :=
  let cleaned := delete refnum_re cleaned in
  let cleaned := delete long_number_re cleaned in
  let cleaned := fold_left (fun c pat => delete pat c) date_patterns cleaned in
  let cleaned :=
    fold_left
      (fun c prefix =>
         if startswith (upper c) prefix then drop (String.length prefix) c
         else c)
      prefixes cleaned in
  collapse cleaned.

Fixpoint first_merchant (rules : list (regex * string)) (cleaned : string)
    : option string :=
  match rules with
  | [] => None
  | (r, name) :: t =>
      if found r cleaned then Some name else first_merchant t cleaned
  end.

(** The transaction-type words removed as whole words, then [.strip()]. *)
Definition strip_indicators (cleaned : string) : string :=
  strip (fold_left (fun c w => delete (whole_word_i w) c)
                   type_indicators cleaned).

Definition clean_description (desc : string) : string :=
  let cleaned := collapse desc in
  match early_rules cleaned with
  | Some r => r
  | None =>
      let cleaned := strip_noise cleaned in
      match first_merchant merchant_rules cleaned with
      | Some name => name
      | None =>
          let cleaned := strip_indicators cleaned in
          if Nat.ltb (String.length cleaned) 2 then collapse desc
          else cleaned
      end
  end.

End FileHandler.

(** * utils/vendor_database.py *)

Module VendorDatabase.

Import PyStr Re.
Local Open Scope nat_scope.
Local Open Scope string_scope.

(** [{'category': c, 'subcategory': s}] *)
Definition categorization : Type := (string * string)%type.

Definition cat_of (c : categorization) : string := fst c.
Definition subcat_of (c : categorization) : string := snd c.

(** A Python [dict] with string keys, in insertion order.  Setting a key
    that is present replaces its value and keeps its place. *)
Fixpoint dict_set {V : Type} (k : string) (v : V) (d : list (string * V))
    : list (string * V) :=
  match d with
  | [] => [(k, v)]
  | (k', v') :: t =>
      if String.eqb k k' then (k, v) :: t else (k', v') :: dict_set k v t
  end.

(** A dict display [{k1: v1, k2: v2, ...}], which may repeat a key. *)
Definition dict_of_items {V : Type} (items : list (string * V))
    : list (string * V) :=
  fold_left (fun d kv => dict_set (fst kv) (snd kv) d) items [].

(** The entries of the [VENDOR_DATABASE] display as they are written, seven
    keys twice. *)
Definition VENDOR_DATABASE_items : list (string * categorization) :=
  [
    ("amex", ("Bills & Payments", "Credit Card"));
    ("american express", ("Bills & Payments", "Credit Card"));
    ("mastercard", ("Bills & Payments", "Credit Card"));
    ("visa", ("Bills & Payments", "Credit Card"));
    ("paypal", ("Shopping", "Online Services"));
    ("stripe", ("Shopping", "Online Services"));
    ("square", ("Shopping", "Retail"));
    ("venmo", ("Transfer", "Money Transfer"));
    ("zelle", ("Transfer", "Money Transfer"));
    ("cash app", ("Transfer", "Money Transfer"));
    ("etoro", ("Investments", "Trading Platform"));
    ("payward", ("Savings", "Investments"));
    ("kraken", ("Savings", "Investments"));
    ("direct debit", ("Bills & Payments", "Direct Debit"));
    ("counter credit", ("Income", "Deposit"));
    ("hmrc", ("Bills & Payments", "Taxes"));
    ("hmrc gov.uk", ("Bills & Payments", "Taxes"));
    ("tax", ("Bills & Payments", "Taxes"));
    ("instant saver", ("Transfer", "Internal Transfer"));
    ("instant access", ("Transfer", "Internal Transfer"));
    ("saver account", ("Transfer", "Internal Transfer"));
    ("isa", ("Savings", "ISA"));
    ("cash isa", ("Savings", "ISA"));
    ("stocks and shares isa", ("Savings", "ISA"));
    ("barclays", ("Transfer", "Bank Transfer"));
    ("hsbc", ("Transfer", "Bank Transfer"));
    ("lloyds", ("Transfer", "Bank Transfer"));
    ("natwest", ("Transfer", "Bank Transfer"));
    ("nationwide", ("Transfer", "Bank Transfer"));
    ("santander", ("Transfer", "Bank Transfer"));
    ("monzo", ("Transfer", "Bank Transfer"));
    ("starling", ("Transfer", "Bank Transfer"));
    ("revolut", ("Transfer", "Bank Transfer"));
    ("bank transfer", ("Transfer", "Bank Transfer"));
    ("direct deposit", ("Income", "Salary/Wages"));
    ("interest", ("Income", "Interest"));
    ("dividend", ("Income", "Dividends"));
    ("vanguard", ("Investments", "Brokerage"));
    ("fidelity", ("Investments", "Brokerage"));
    ("schwab", ("Investments", "Brokerage"));
    ("robinhood", ("Investments", "Brokerage"));
    ("etrade", ("Investments", "Brokerage"));
    ("td ameritrade", ("Investments", "Brokerage"));
    ("ramco", ("Income", "Business Income"));
    ("ramco manor park", ("Income", "Business Income"));
    ("jn desai limited", ("Income", "Business Income"));
    ("instant saver", ("Transfer", "Internal Transfer"));
    ("saver", ("Transfer", "Internal Transfer"));
    ("astrenska", ("Income", "Insurance Payout"));
    ("astrenska insuranc", ("Income", "Insurance Payout"));
    ("tesco", ("Food", "Groceries"));
    ("sainsbury", ("Food", "Groceries"));
    ("asda", ("Food", "Groceries"));
    ("waitrose", ("Food", "Groceries"));
    ("morrisons", ("Food", "Groceries"));
    ("aldi", ("Food", "Groceries"));
    ("lidl", ("Food", "Groceries"));
    ("kroger", ("Food", "Groceries"));
    ("walmart", ("Food", "Groceries"));
    ("target", ("Food", "Groceries"));
    ("safeway", ("Food", "Groceries"));
    ("trader joe", ("Food", "Groceries"));
    ("whole foods", ("Food", "Groceries"));
    ("costco", ("Food", "Groceries"));
    ("sams club", ("Food", "Groceries"));
    ("mcdonalds", ("Food", "Fast Food"));
    ("mcdonald's", ("Food", "Fast Food"));
    ("burger king", ("Food", "Fast Food"));
    ("wendys", ("Food", "Fast Food"));
    ("starbucks", ("Food", "Coffee Shops"));
    ("costa", ("Food", "Coffee Shops"));
    ("pret", ("Food", "Coffee Shops"));
    ("subway", ("Food", "Fast Food"));
    ("kfc", ("Food", "Fast Food"));
    ("taco bell", ("Food", "Fast Food"));
    ("pizza hut", ("Food", "Dining"));
    ("dominos", ("Food", "Dining"));
    ("domino's", ("Food", "Dining"));
    ("chipotle", ("Food", "Dining"));
    ("nandos", ("Food", "Dining"));
    ("greggs", ("Food", "Fast Food"));
    ("ubereats", ("Food", "Food Delivery"));
    ("uber eats", ("Food", "Food Delivery"));
    ("doordash", ("Food", "Food Delivery"));
    ("grubhub", ("Food", "Food Delivery"));
    ("deliveroo", ("Food", "Food Delivery"));
    ("just eat", ("Food", "Food Delivery"));
    ("amazon", ("Shopping", "Online Shopping"));
    ("ebay", ("Shopping", "Online Shopping"));
    ("etsy", ("Shopping", "Online Shopping"));
    ("apple", ("Shopping", "Electronics"));
    ("best buy", ("Shopping", "Electronics"));
    ("ikea", ("Shopping", "Home Furnishings"));
    ("wayfair", ("Shopping", "Home Furnishings"));
    ("home depot", ("Shopping", "Home Improvement"));
    ("lowes", ("Shopping", "Home Improvement"));
    ("b&q", ("Shopping", "Home Improvement"));
    ("homebase", ("Shopping", "Home Improvement"));
    ("target", ("Shopping", "Department Store"));
    ("marshalls", ("Shopping", "Clothing"));
    ("tj maxx", ("Shopping", "Clothing"));
    ("tk maxx", ("Shopping", "Clothing"));
    ("foot locker", ("Shopping", "Clothing"));
    ("primark", ("Shopping", "Clothing"));
    ("zara", ("Shopping", "Clothing"));
    ("h&m", ("Shopping", "Clothing"));
    ("asos", ("Shopping", "Clothing"));
    ("next", ("Shopping", "Clothing"));
    ("marks & spencer", ("Shopping", "Department Store"));
    ("m&s", ("Shopping", "Department Store"));
    ("john lewis", ("Shopping", "Department Store"));
    ("argos", ("Shopping", "Department Store"));
    ("debenhams", ("Shopping", "Department Store"));
    ("uber", ("Transportation", "Taxi"));
    ("lyft", ("Transportation", "Taxi"));
    ("bolt", ("Transportation", "Taxi"));
    ("gett", ("Transportation", "Taxi"));
    ("free now", ("Transportation", "Taxi"));
    ("black cab", ("Transportation", "Taxi"));
    ("taxi", ("Transportation", "Taxi"));
    ("tube", ("Transportation", "Public Transit"));
    ("tfl", ("Transportation", "Public Transit"));
    ("transport for london", ("Transportation", "Public Transit"));
    ("train", ("Transportation", "Public Transit"));
    ("bus", ("Transportation", "Public Transit"));
    ("oyster", ("Transportation", "Public Transit"));
    ("underground", ("Transportation", "Public Transit"));
    ("subway", ("Transportation", "Public Transit"));
    ("avis", ("Transportation", "Car Rental"));
    ("hertz", ("Transportation", "Car Rental"));
    ("enterprise", ("Transportation", "Car Rental"));
    ("zipcar", ("Transportation", "Car Rental"));
    ("national rail", ("Transportation", "Public Transit"));
    ("british rail", ("Transportation", "Public Transit"));
    ("amtrak", ("Transportation", "Public Transit"));
    ("airline", ("Travel", "Flights"));
    ("british airways", ("Travel", "Flights"));
    ("easyjet", ("Travel", "Flights"));
    ("ryanair", ("Travel", "Flights"));
    ("delta", ("Travel", "Flights"));
    ("american airlines", ("Travel", "Flights"));
    ("united", ("Travel", "Flights"));
    ("southwest", ("Travel", "Flights"));
    ("jet blue", ("Travel", "Flights"));
    ("virgin atlantic", ("Travel", "Flights"));
    ("emirates", ("Travel", "Flights"));
    ("hotel", ("Travel", "Accommodation"));
    ("hilton", ("Travel", "Accommodation"));
    ("marriott", ("Travel", "Accommodation"));
    ("airbnb", ("Travel", "Accommodation"));
    ("booking.com", ("Travel", "Accommodation"));
    ("expedia", ("Travel", "Travel Services"));
    ("trivago", ("Travel", "Travel Services"));
    ("rent", ("Housing", "Rent"));
    ("mortgage", ("Housing", "Mortgage"));
    ("council tax", ("Housing", "Property Tax"));
    ("property tax", ("Housing", "Property Tax"));
    ("water", ("Utilities", "Water"));
    ("electric", ("Utilities", "Electricity"));
    ("electricity", ("Utilities", "Electricity"));
    ("gas", ("Utilities", "Gas"));
    ("heating", ("Utilities", "Gas"));
    ("internet", ("Utilities", "Internet"));
    ("broadband", ("Utilities", "Internet"));
    ("wifi", ("Utilities", "Internet"));
    ("sewage", ("Utilities", "Water"));
    ("waste", ("Utilities", "Waste Management"));
    ("comcast", ("Utilities", "Internet"));
    ("xfinity", ("Utilities", "Internet"));
    ("verizon", ("Utilities", "Phone"));
    ("at&t", ("Utilities", "Phone"));
    ("t-mobile", ("Utilities", "Phone"));
    ("british gas", ("Utilities", "Gas"));
    ("british telecom", ("Utilities", "Phone"));
    ("bt", ("Utilities", "Internet"));
    ("eon", ("Utilities", "Electricity"));
    ("edf", ("Utilities", "Electricity"));
    ("scottish power", ("Utilities", "Electricity"));
    ("thames water", ("Utilities", "Water"));
    ("severn trent", ("Utilities", "Water"));
    ("virgin media", ("Utilities", "Internet"));
    ("sky", ("Utilities", "TV/Internet"));
    ("vodafone", ("Utilities", "Phone"));
    ("o2", ("Utilities", "Phone"));
    ("ee", ("Utilities", "Phone"));
    ("three", ("Utilities", "Phone"));
    ("giffgaff", ("Utilities", "Phone"));
    ("sprint", ("Utilities", "Phone"));
    ("cricket", ("Utilities", "Phone"));
    ("boost mobile", ("Utilities", "Phone"));
    ("netflix", ("Entertainment", "Streaming Services"));
    ("hulu", ("Entertainment", "Streaming Services"));
    ("disney+", ("Entertainment", "Streaming Services"));
    ("amazon prime", ("Entertainment", "Streaming Services"));
    ("spotify", ("Entertainment", "Music"));
    ("apple music", ("Entertainment", "Music"));
    ("youtube", ("Entertainment", "Streaming Services"));
    ("youtube premium", ("Entertainment", "Streaming Services"));
    ("hbo", ("Entertainment", "Streaming Services"));
    ("paramount+", ("Entertainment", "Streaming Services"));
    ("peacock", ("Entertainment", "Streaming Services"));
    ("now tv", ("Entertainment", "Streaming Services"));
    ("cinema", ("Entertainment", "Movies"));
    ("odeon", ("Entertainment", "Movies"));
    ("vue", ("Entertainment", "Movies"));
    ("cineworld", ("Entertainment", "Movies"));
    ("amc", ("Entertainment", "Movies"));
    ("regal", ("Entertainment", "Movies"));
    ("cinemark", ("Entertainment", "Movies"));
    ("concert", ("Entertainment", "Events"));
    ("ticketmaster", ("Entertainment", "Events"));
    ("stubhub", ("Entertainment", "Events"));
    ("seetickets", ("Entertainment", "Events"));
    ("bupa", ("Healthcare", "Health Insurance"));
    ("bupa central", ("Healthcare", "Health Insurance"));
    ("eyecare payments", ("Healthcare", "Vision"));
    ("eyecare", ("Healthcare", "Vision"));
    ("aig life", ("Insurance", "Life Insurance"));
    ("royal london", ("Insurance", "Life Insurance"));
    ("clubwise", ("Healthcare", "Fitness"));
    ("etika", ("Healthcare", "Medical Services"));
    ("blue rewards", ("Banking", "Rewards Program"));
    ("axa", ("Healthcare", "Health Insurance"));
    ("cvs", ("Healthcare", "Pharmacy"));
    ("walgreens", ("Healthcare", "Pharmacy"));
    ("boots", ("Healthcare", "Pharmacy"));
    ("lloyds pharmacy", ("Healthcare", "Pharmacy"));
    ("superdrug", ("Healthcare", "Pharmacy"));
    ("nhs", ("Healthcare", "Medical Services"));
    ("hospital", ("Healthcare", "Medical Services"));
    ("clinic", ("Healthcare", "Medical Services"));
    ("doctor", ("Healthcare", "Medical Services"));
    ("dentist", ("Healthcare", "Dental"));
    ("optician", ("Healthcare", "Vision"));
    ("vision express", ("Healthcare", "Vision"));
    ("specsavers", ("Healthcare", "Vision"));
    ("gym", ("Healthcare", "Fitness"));
    ("fitness", ("Healthcare", "Fitness"));
    ("pure gym", ("Healthcare", "Fitness"));
    ("virgin active", ("Healthcare", "Fitness"));
    ("la fitness", ("Healthcare", "Fitness"));
    ("planet fitness", ("Healthcare", "Fitness"));
    ("24 hour fitness", ("Healthcare", "Fitness"));
    ("gold's gym", ("Healthcare", "Fitness"));
    ("equinox", ("Healthcare", "Fitness"));
    ("insurance", ("Insurance", "General Insurance"));
    ("geico", ("Insurance", "Auto Insurance"));
    ("state farm", ("Insurance", "Auto Insurance"));
    ("progressive", ("Insurance", "Auto Insurance"));
    ("allstate", ("Insurance", "Auto Insurance"));
    ("liberty mutual", ("Insurance", "Auto Insurance"));
    ("nationwide", ("Insurance", "Auto Insurance"));
    ("aviva", ("Insurance", "General Insurance"));
    ("direct line", ("Insurance", "Auto Insurance"));
    ("admiral", ("Insurance", "Auto Insurance"));
    ("churchill", ("Insurance", "Home Insurance"));
    ("hastings", ("Insurance", "Auto Insurance"));
    ("legal & general", ("Insurance", "Life Insurance"));
    ("prudential", ("Insurance", "Life Insurance"));
    ("university", ("Education", "Tuition"));
    ("college", ("Education", "Tuition"));
    ("school", ("Education", "Tuition"));
    ("student loans", ("Education", "Student Loans"));
    ("student loan", ("Education", "Student Loans"));
    ("sallie mae", ("Education", "Student Loans"));
    ("navient", ("Education", "Student Loans"));
    ("great lakes", ("Education", "Student Loans"));
    ("nelnet", ("Education", "Student Loans"));
    ("chegg", ("Education", "Books & Supplies"));
    ("textbooks", ("Education", "Books & Supplies"));
    ("coursera", ("Education", "Online Courses"));
    ("udemy", ("Education", "Online Courses"));
    ("skillshare", ("Education", "Online Courses"));
    ("student finance", ("Education", "Student Loans"));
    ("payroll", ("Income", "Salary/Wages"));
    ("salary", ("Income", "Salary/Wages"));
    ("wages", ("Income", "Salary/Wages"));
    ("commission", ("Income", "Commission"));
    ("freelance", ("Income", "Self-Employment"));
    ("consulting", ("Income", "Self-Employment"));
    ("upwork", ("Income", "Self-Employment"));
    ("fiverr", ("Income", "Self-Employment"));
    ("business", ("Business", "General Business"));
    ("advertising", ("Business", "Marketing"));
    ("office", ("Business", "Office Supplies"));
    ("staples", ("Business", "Office Supplies"));
    ("office depot", ("Business", "Office Supplies"));
    ("quickbooks", ("Business", "Accounting"));
    ("xero", ("Business", "Accounting"));
    ("freshbooks", ("Business", "Accounting"));
    ("mailchimp", ("Business", "Marketing"));
    ("godaddy", ("Business", "Web Services"));
    ("squarespace", ("Business", "Web Services"));
    ("wix", ("Business", "Web Services"));
    ("zoom", ("Business", "Software & Services"));
    ("microsoft", ("Business", "Software & Services"));
    ("adobe", ("Business", "Software & Services"));
    ("google", ("Business", "Software & Services"));
    ("atm", ("Cash", "ATM Withdrawal"));
    ("fee", ("Fees & Charges", "Service Fee"));
    ("interest fee", ("Fees & Charges", "Interest"));
    ("overdraft", ("Fees & Charges", "Bank Fees"));
    ("service charge", ("Fees & Charges", "Bank Fees"));
    ("maintenance fee", ("Fees & Charges", "Bank Fees"));
    ("late fee", ("Fees & Charges", "Late Payment"));
    ("tax", ("Taxes", "General Tax"));
    ("hmrc", ("Taxes", "Income Tax"));
    ("irs", ("Taxes", "Income Tax"));
    ("income tax", ("Taxes", "Income Tax"));
    ("property tax", ("Taxes", "Property Tax"));
    ("charity", ("Giving", "Charitable Donations"));
    ("donation", ("Giving", "Charitable Donations"));
    ("gift", ("Giving", "Gifts"));
    ("birthday", ("Giving", "Gifts"));
    ("wedding", ("Giving", "Gifts"))
  ].

Definition VENDOR_DATABASE : list (string * categorization) :=
  Eval vm_compute in dict_of_items VENDOR_DATABASE_items.

(** [for vendor, categorization in VENDOR_DATABASE.items(): if test(vendor):
    return ...]: the first entry, in table order, that passes. *)
Fixpoint first_vendor (test : string -> bool)
    (db : list (string * categorization)) : option (string * categorization) :=
  match db with
  | [] => None
  | (vendor, c) :: t =>
      if test vendor then Some (vendor, c) else first_vendor test t
  end.

(** [re.search(r'\b' + re.escape(vendor) + r'\b', desc_lower)] *)
Definition word_match (desc_lower vendor : string) : bool :=
  found (whole_word vendor) desc_lower.

(** Python truth of an optional string: [None] and [''] are false. *)
Definition truthy (s : option string) : bool :=
  match s with Some x => negb (is_empty x) | None => false end.

Definition or_else {A : Type} (x y : option A) : option A :=
  match x with Some _ => x | None => y end.

Infix "<|>" := or_else (at level 51, right associativity).

(** "Specific investment platform checks" and "Cryptocurrency exchanges". *)
Definition platform_rules (desc_lower : string) : option categorization :=
  if any_in ["etoro"; "trading 212"; "coinbase"; "binance"] desc_lower
  then Some ("Investments", "Trading Platform")
  else if (contains "payward" desc_lower || contains "kraken" desc_lower)%bool
  then Some ("Savings", "Investments")
  else None.

(** "Comprehensive internal transfer detection", steps 1 and 2.
    [subcat_lower] is the lower-cased hint as given (empty without one). *)
Definition internal_transfer_rules (desc_lower subcat_lower : string)
    : option categorization :=
  let by_name :=
    if (any_in ["jay"; "desai"; "j n desai"] desc_lower
        && (contains "funds transfer" subcat_lower
            || contains "ft" desc_lower))%bool
    then
      if contains "tax" desc_lower
      then Some ("Transfer", "Internal Transfer")
      else if (negb (contains "richard" desc_lower)
               && negb (contains "fairchild" desc_lower))%bool
      then Some ("Transfer", "Internal Transfer")
      else None
    else None in
  by_name <|>
  (if any_in ["instant saver"; "savings account"; "isa"; "current account"]
        desc_lower
   then Some ("Transfer", "Internal Transfer")
   else None).

(** "Handle empty or None subcategory": the hint inferred from the
    description when none, or ['Other'], is given. *)
Definition infer_subcategory (desc_lower : string)
    (subcategory : option string) : option string :=
  if (negb (truthy subcategory)
      || match subcategory with
         | Some x => String.eqb x "Other"
         | None => false
         end)%bool
  then
    if (contains "ddr" desc_lower || contains "direct debit" desc_lower
        || contains " dd" desc_lower)%bool
    then Some "Direct Debit"
    else if (contains "bcc" desc_lower || contains "card purchase" desc_lower
             || contains "cpm" desc_lower)%bool
    then Some "Card Purchase"
    else subcategory
  else subcategory.

Definition counter_credit (desc_lower : string) : categorization :=
  if contains "ramco" desc_lower then ("Income", "Business Income")
  else if contains "jn desai limited" desc_lower
  then ("Income", "Business Income")
  else if contains "astrenska" desc_lower then ("Income", "Insurance Payout")
  else if (contains "tax" desc_lower || contains "instant saver" desc_lower
           || contains "instant access" desc_lower)%bool
  then ("Transfer", "Internal Transfer")
  else if any_in ["saver"; "savings"; "isa"; "transfer to"; "transfer from";
                  "instant access"; "desai"; "jay"; "bank transfer"]
                 desc_lower
  then ("Transfer", "Internal Transfer")
  else if (contains "limited" desc_lower || contains "ltd" desc_lower
           || contains "llc" desc_lower)%bool
  then ("Income", "Business Income")
  else if (contains "salary" desc_lower || contains "wage" desc_lower
           || contains "payroll" desc_lower)%bool
  then ("Income", "Salary/Wages")
  else ("Income", "Other Income").

Definition direct_debit (desc_lower : string) : categorization :=
  if contains "bupa" desc_lower then ("Healthcare", "Health Insurance")
  else if (contains "american express" desc_lower
           || contains "amex" desc_lower)%bool
  then ("Bills & Payments", "Credit Card")
  else if contains "eyecare" desc_lower then ("Healthcare", "Vision")
  else if contains "aig life" desc_lower then ("Insurance", "Life Insurance")
  else if contains "royal london" desc_lower
  then ("Insurance", "Life Insurance")
  else if contains "clubwise" desc_lower then ("Healthcare", "Fitness")
  else if contains "etika" desc_lower
  then ("Entertainment", "Subscription Services")
  else match first_vendor (fun v => contains v desc_lower) VENDOR_DATABASE with
       | Some (_, c) => c
       | None => ("Bills & Payments", "Direct Debit")
       end.

Definition card_purchase (desc_lower : string) : option categorization :=
  if contains "apple.com" desc_lower
  then Some ("Entertainment", "Subscription Services")
  else if (contains "hmrc" desc_lower || contains "gov.uk" desc_lower)%bool
  then Some ("Bills & Payments", "Tax Payments")
  else if contains "mcdonalds" desc_lower then Some ("Food", "Fast Food")
  else if contains "sainsburys" desc_lower then Some ("Food", "Groceries")
  else None.

Definition debit (desc_lower : string) : option categorization :=
  if contains "blue rewards" desc_lower
  then Some ("Bills & Payments", "Bank Fees")
  else if contains "mcdonalds" desc_lower then Some ("Food", "Fast Food")
  else if contains "sainsburys" desc_lower then Some ("Food", "Groceries")
  else None.

Definition funds_transfer (desc_lower : string) : option categorization :=
  if contains "etoro" desc_lower
  then Some ("Investments", "Trading Platform")
  else if (contains "hmrc" desc_lower || contains "gov.uk" desc_lower)%bool
  then Some ("Bills & Payments", "Tax Payments")
  else if contains "tax" desc_lower
  then Some ("Transfer", "Internal Transfer")
  else if contains "payward" desc_lower then Some ("Savings", "Investments")
  else if (contains "jay" desc_lower || contains "desai" desc_lower
           || contains "transfer to" desc_lower
           || contains "transfer from" desc_lower
           || contains "instant saver" desc_lower
           || contains "savings account" desc_lower)%bool
  then Some ("Transfer", "Internal Transfer")
  else None.

(** "Check for UK bank subcategories": the handlers chosen by the hint
    (given or inferred), tried in the order of the source. *)
Definition subcategory_handlers (desc_lower : string)
    (subcategory : option string) : option categorization :=
  match subcategory with
  | Some sub =>
      if is_empty sub then None
      else
        let subcat_lower := strip (lower sub) in
        if contains "counter credit" subcat_lower
        then Some (counter_credit desc_lower)
        else if contains "direct debit" subcat_lower
        then Some (direct_debit desc_lower)
        else
          (if contains "card purchase" subcat_lower
           then card_purchase desc_lower else None) <|>
          (if String.eqb "debit" subcat_lower
           then debit desc_lower else None) <|>
          (if contains "funds transfer" subcat_lower
           then funds_transfer desc_lower else None)
  | None => None
  end.

(** "Quick check for common UK transaction prefixes and special cases", up
    to the test for a refund. *)
Definition quick_checks (desc_lower : string) : option categorization :=
  if (contains "instant saver" desc_lower
      || (contains "saver" desc_lower && contains "tax" desc_lower))%bool
  then Some ("Transfer", "Internal Transfer")
  else if (contains "salary" desc_lower || contains "wages" desc_lower)%bool
  then Some ("Income", "Salary/Wages")
  else if contains "dividend" desc_lower then Some ("Income", "Dividends")
  else if (contains "interest" desc_lower
           && negb (contains "loan" desc_lower
                    || contains "mortgage" desc_lower))%bool
  then Some ("Income", "Interest")
  else None.

(** Everything [match_vendor] tries before it looks for a refund. *)
Definition rules_before_refund (desc_lower : string)
    (subcategory : option string) : option categorization :=
  let subcat_lower :=
    match subcategory with
    | Some sub => if is_empty sub then EmptyString else lower sub
    | None => EmptyString
    end in
  platform_rules desc_lower <|>
  internal_transfer_rules desc_lower subcat_lower <|>
  subcategory_handlers desc_lower (infer_subcategory desc_lower subcategory)
  <|> quick_checks desc_lower.

(** The body of [if "refund" in desc_lower:]. *)
Definition refund_rule (desc_lower : string) : categorization :=
  match first_vendor (word_match desc_lower) VENDOR_DATABASE with
  | Some (_, c) => (cat_of c, "Refund")
  | None => ("Income", "Refund")
  end.

(** The partial match on words, a scan of the table that keeps
    [(best_match, best_score, best_vendor_length)]. *)
Definition overlap_step (desc_words : list string)
    (best : option categorization * nat * nat)
    (entry : string * categorization)
    : option categorization * nat * nat :=
  let '(best_match, best_score, best_vendor_length) := best in
  let vendor := fst entry in
  let vendor_words := dedup (split vendor) in
  let ov := overlap vendor_words desc_words in
  let required_overlap :=
    if Nat.ltb 2 (List.length vendor_words) then 2 else 1 in
  if ((Nat.ltb best_score ov
       || (Nat.eqb ov best_score
           && Nat.ltb best_vendor_length (String.length vendor)))
      && Nat.leb required_overlap ov)%bool
  then (Some (snd entry), ov, String.length vendor)
  else best.

Definition overlap_match (desc_lower : string) : option categorization :=
  let '(best_match, best_score, _) :=
    fold_left (overlap_step (split desc_lower)) VENDOR_DATABASE (None, 0, 0) in
  if Nat.ltb 0 best_score then best_match else None.

(** What follows the refund test: pay keywords, whole-word matches,
    substring matches of multi-word vendors, word overlap. *)
Definition rules_after_refund (desc_lower : string) : option categorization :=
  (if any_in ["pay"; "payroll"; "salary"; "wage"; "income"; "direct deposit"]
        desc_lower
   then Some ("Income", "Salary/Wages") else None) <|>
  option_map snd (first_vendor (word_match desc_lower) VENDOR_DATABASE) <|>
  option_map snd
    (first_vendor (fun v => (contains " " v && contains v desc_lower)%bool)
                  VENDOR_DATABASE) <|>
  overlap_match desc_lower.

(** [match_vendor(description, subcategory=None, amount=None)]; [amount] is
    only printed. *)
Definition match_vendor (description : string) (subcategory : option string)
    (amount : Q) : option categorization :=
  if is_empty description then None
  else
    let desc_lower := strip (lower description) in
    match rules_before_refund desc_lower subcategory with
    | Some c => Some c
    | None =>
        if contains "refund" desc_lower then Some (refund_rule desc_lower)
        else rules_after_refund desc_lower
    end.

(** A categorization whose category is a name, not the default
    "Uncategorized". *)
Definition named (c : categorization) : Prop := cat_of c <> "Uncategorized".

End VendorDatabase.

(** * Data frames of transactions *)

Module Frame.

Local Open Scope nat_scope.
Local Open Scope string_scope.

(** A row of the ledger.  [date] is the timestamp of a valid date;
    [cap_subcategory] is the column ['Subcategory'] of a raw statement and
    [raw_subcategory] the column of that name ([None] where it holds
    nothing). *)
Record Transaction : Type := Tx {
  date : Z;
  description : string;
  amount : Q;
  category : string;
  subcategory : string;
  cap_subcategory : option string;
  raw_subcategory : option string;
  statement_id : string
}.

(** Which of the optional columns a frame has ([c in df.columns]). *)
Record Columns : Type := Cols {
  has_subcategory : bool;
  has_cap_subcategory : bool;
  has_raw_subcategory : bool
}.

(** A [DataFrame]: its rows in order, each with its index label. *)
Definition DataFrame : Type := list (nat * Transaction).

Definition set_category (c : string) (t : Transaction) : Transaction :=
  Tx (date t) (description t) (amount t) c (subcategory t)
     (cap_subcategory t) (raw_subcategory t) (statement_id t).

Definition set_subcategory (s : string) (t : Transaction) : Transaction :=
  Tx (date t) (description t) (amount t) (category t) s
     (cap_subcategory t) (raw_subcategory t) (statement_id t).

(** [df.loc[idx, col] = v]: every row labelled [idx]. *)
Definition loc_update (idx : nat) (f : Transaction -> Transaction)
    (df : DataFrame) : DataFrame :=
  map (fun r => if Nat.eqb (fst r) idx then (fst r, f (snd r)) else r) df.

(** [df.iloc[pos, col] = v]: the row at position [pos]; [IndexError] when
    there is none. *)
Fixpoint iloc_update (pos : nat) (f : Transaction -> Transaction)
    (df : DataFrame) {struct df} : option DataFrame :=
  match df, pos with
  | [], _ => None
  | r :: t, O => Some ((fst r, f (snd r)) :: t)
  | r :: t, S p => option_map (cons r) (iloc_update p f t)
  end.

(** [df.loc[mask, col] = v] for a mask computed row by row. *)
Definition mask_update (mask : Transaction -> bool)
    (f : Transaction -> Transaction) (df : DataFrame) : DataFrame :=
  map (fun r => if mask (snd r) then (fst r, f (snd r)) else r) df.

End Frame.

(** * utils/data_processor.py *)

Module DataProcessor.

Import PyStr VendorDatabase Frame.
Local Open Scope nat_scope.
Local Open Scope string_scope.

Definition income_keywords : list string :=
  [ "salary"; "wage"; "payroll"; "direct deposit"; "payment received";
    "dividend"; "interest"; "refund"; "cashback"; "tax return"; "tax refund";
    "deposit"; "credit"; "income"; "bonus"; "commission"; "pension";
    "benefit"; "incoming"; "credit in"; "paid in"; "payment in";
    "transfer in" ].

Definition transfer_keywords : list string :=
  [ "saver"; "saving"; "transfer to"; "transfer from"; "instant saver";
    "instant access" ].

Definition expense_keywords : list string :=
  [ "payment to"; "purchase"; "fee"; "charge"; "bill"; "debit"; "withdrawal";
    "card payment"; "subscription"; "order"; "uber"; "lyft"; "online payment";
    "direct debit"; "transfer to"; "payment out"; "paid out" ].

Definition category_keywords : list (string * list string) :=
  [ ("Housing",
      [ "rent"; "mortgage"; "home"; "apartment"; "electric"; "water"; "gas";
        "utility"; "utilities"; "internet"; "sewage"; "waste"; "homeowner";
        "hoa"; "maintenance"; "repair"; "lawn"; "garden" ]);
    ("Transportation",
      [ "gas"; "gasoline"; "fuel"; "uber"; "lyft"; "taxi"; "car"; "auto";
        "vehicle"; "public transit"; "bus"; "train"; "subway"; "metro";
        "parking"; "toll"; "maintenance"; "repair"; "insurance"; "dmv";
        "registration" ]);
    ("Food",
      [ "grocery"; "groceries"; "supermarket"; "market"; "food"; "restaurant";
        "cafe"; "coffee"; "diner"; "dinner"; "lunch"; "breakfast"; "take-out";
        "takeout"; "delivery"; "grubhub"; "doordash"; "ubereats"; "bakery";
        "pizza" ]);
    ("Healthcare",
      [ "doctor"; "hospital"; "medical"; "dental"; "dentist"; "pharmacy";
        "prescription"; "drug"; "health"; "insurance"; "therapy"; "gym";
        "fitness"; "vitamin"; "eyecare"; "optometrist"; "eyeglasses";
        "contacts" ]);
    ("Entertainment",
      [ "movie"; "theatre"; "theater"; "concert"; "music"; "spotify";
        "netflix"; "hulu"; "disney"; "amazon prime"; "streaming"; "game";
        "book"; "hobby"; "ticket"; "event"; "sports"; "subscription" ]);
    ("Shopping",
      [ "amazon"; "walmart"; "target"; "clothing"; "apparel"; "department";
        "store"; "mall"; "retail"; "electronics"; "computer"; "phone";
        "merchandise"; "ebay"; "online"; "purchase"; "shop" ]);
    ("Education",
      [ "school"; "university"; "college"; "tuition"; "education"; "student";
        "loan"; "book"; "course"; "class"; "degree"; "training" ]);
    ("Travel",
      [ "hotel"; "airbnb"; "airline"; "flight"; "travel"; "trip"; "vacation";
        "rental car"; "cruise"; "tour"; "booking"; "resort"; "airport" ]);
    ("Savings",
      [ "transfer"; "savings"; "investment"; "deposit"; "stock"; "bond";
        "retirement"; "401k"; "ira"; "roth"; "etf"; "mutual fund" ]);
    ("Miscellaneous",
      [ "gift"; "donation"; "charity"; "fee"; "interest"; "tax"; "insurance";
        "subscription"; "dues"; "membership"; "service"; "misc" ]) ].

(** The caller's [categories]: category name to its list of subcategories
    (so [has_subcats] is true). *)
Definition Categories : Type := list (string * list string).

Definition has_key (k : string) (d : Categories) : bool :=
  existsb (fun e => String.eqb (fst e) k) d.

(** [d.get(k, [])] *)
Fixpoint get_or_nil (k : string) (d : Categories) : list string :=
  match d with
  | [] => []
  | (k', v) :: t => if String.eqb k' k then v else get_or_nil k t
  end.

(** ** The sign corrections before the loop *)

Definition incorrect_income (t : Transaction) : bool :=
  (Qlt_bool (amount t) 0
   && any_in income_keywords (lower (description t)))%bool.

Definition payward_transactions (t : Transaction) : bool :=
  contains "payward" (lower (description t)).

Definition internal_transfer_mask (t : Transaction) : bool :=
  any_in transfer_keywords (lower (description t)).

Definition incorrect_expense (t : Transaction) : bool :=
  (Qlt_bool 0 (amount t)
   && any_in expense_keywords (lower (description t)))%bool.

(** Lines 25 to 77 on one row: the defaults, then the writes under the four
    masks, in the order of the source.  The masks read the amount and the
    description, which no write changes. *)
Definition initial_marks (t : Transaction) : Transaction :=
  let r := set_subcategory "Other" (set_category "Uncategorized" t) in
  let r := if (incorrect_income t && negb (payward_transactions t))%bool
           then set_category "Income" r else r in
  let r := if payward_transactions t
           then set_subcategory "Investments" (set_category "Savings" r)
           else r in
  let r := if internal_transfer_mask t
           then set_subcategory "Internal Transfer" (set_category "Transfer" r)
           else r in
  let r := if incorrect_expense t then set_category "Uncategorized" r else r in
  r.

(** ** The loop over the rows *)

(** [sum(1 for keyword in keywords if keyword in desc)] *)
Definition keyword_score (keywords : list string) (desc : string) : nat :=
  List.length (filter (fun k => contains k desc) keywords).

(** The scan of [category_keywords] that keeps [(best_match, max_score)]. *)
Definition score_step (categories : Categories) (desc : string)
    (best : option string * nat) (entry : string * list string)
    : option string * nat :=
  if negb (has_key (fst entry) categories) then best
  else
    let score := keyword_score (snd entry) desc in
    if Nat.ltb (snd best) score then (Some (fst entry), score) else best.

Definition best_category (categories : Categories) (desc : string)
    : option string * nat :=
  fold_left (score_step categories desc) category_keywords (None, 0).

(** The scan of [subcats] that keeps [(best_subcat, max_subscore)], with its
    [break] on a direct match. *)
Fixpoint best_subcategory (subcats : list string) (desc : string)
    (best_subcat : option string) (max_subscore : nat) : option string :=
  match subcats with
  | [] => best_subcat
  | subcat :: rest =>
      let subcat_lower := lower subcat in
      if contains subcat_lower desc then Some subcat
      else
        let ov := overlap (split subcat_lower) (split desc) in
        if Nat.ltb max_subscore ov
        then best_subcategory rest desc (Some subcat) ov
        else best_subcategory rest desc best_subcat max_subscore
  end.

(** The hint handed to [match_vendor].  [row] is the row the iteration
    yields, [df] the input frame; ['Subcategory'] is read from [df] by
    position [idx], which can raise. *)
Definition subcategory_hint (cols : Columns) (df : DataFrame) (idx : nat)
    (row : Transaction) : option (option string) :=
  if has_subcategory cols then Some (Some (subcategory row))
  else if has_cap_subcategory cols then
    match nth_error df idx with
    | Some r => Some (cap_subcategory (snd r))
    | None => None
    end
  else if has_raw_subcategory cols then Some (raw_subcategory row)
  else Some None.

(** The keyword fallback for one row: the writes go through [iloc] at
    position [idx]. *)
Definition keyword_fallback (categories : Categories) (idx : nat)
    (desc : string) (cur : DataFrame) : option DataFrame :=
  match best_category categories desc with
  | (Some best_match, S _) =>
      if is_empty best_match then Some cur
      else
        match iloc_update idx (set_category best_match) cur with
        | None => None
        | Some cur1 =>
            let subcats := get_or_nil best_match categories in
            match best_subcategory subcats desc None 0 with
            | Some b =>
                if negb (is_empty b)
                then iloc_update idx (set_subcategory b) cur1
                else match subcats with
                     | s0 :: _ => iloc_update idx (set_subcategory s0) cur1
                     | [] => Some cur1
                     end
            | None =>
                match subcats with
                | s0 :: _ => iloc_update idx (set_subcategory s0) cur1
                | [] => Some cur1
                end
            end
        end
  | _ => Some cur
  end.

(** One iteration of [for idx, row in result_df.iterrows()].  [row] is the
    row as it was when the loop began; [cur] is [result_df] now. *)
Definition classify_row (cols : Columns) (categories : Categories)
    (df : DataFrame) (idx : nat) (row : Transaction) (cur : DataFrame)
    : option DataFrame :=
  if negb (String.eqb (category row) "Uncategorized") then Some cur
  else
    match subcategory_hint cols df idx row with
    | None => None
    | Some hint =>
        match match_vendor (description row) hint (amount row) with
        | Some vendor_match =>
            Some (loc_update idx
                    (fun t => set_subcategory (subcat_of vendor_match)
                                (set_category (cat_of vendor_match) t))
                    cur)
        | None => keyword_fallback categories idx (description row) cur
        end
    end.

Fixpoint classify_loop (cols : Columns) (categories : Categories)
    (df : DataFrame) (rows : DataFrame) (cur : DataFrame)
    : option DataFrame :=
  match rows with
  | [] => Some cur
  | (idx, row) :: rest =>
      match classify_row cols categories df idx row cur with
      | None => None
      | Some cur' => classify_loop cols categories df rest cur'
      end
  end.

(** Everything before the final pass: the marks, then the loop. *)
Definition classify_stages (cols : Columns) (categories : Categories)
    (df : DataFrame) : option DataFrame :=
  let result_df := map (fun r => (fst r, initial_marks (snd r))) df in
  classify_loop cols categories df result_df result_df.

(** ** The final pass *)

Definition remaining_uncategorized (t : Transaction) : bool :=
  (String.eqb (category t) "Uncategorized" && Qlt_bool 0 (amount t))%bool.

Definition final_pass (df : DataFrame) : DataFrame :=
  mask_update remaining_uncategorized
    (fun t => set_subcategory "Other Income" (set_category "Income" t)) df.

Definition categorize_transactions (cols : Columns) (df : DataFrame)
    (categories : Categories) : option DataFrame :=
  match df with
  | [] => Some df
  | _ => option_map final_pass (classify_stages cols categories df)
  end.

(** [st.session_state.categories] of app.py. *)
Definition default_categories : Categories :=
  [ ("Income", ["Salary"; "Bonus"; "Interest"; "Dividends"; "Other Income"]);
    ("Housing", ["Rent"; "Mortgage"; "Utilities"; "Maintenance"; "Insurance"]);
    ("Transportation",
       ["Car Payment"; "Fuel"; "Public Transit"; "Maintenance"; "Insurance"]);
    ("Food", ["Groceries"; "Dining Out"; "Delivery"; "Snacks"]);
    ("Healthcare",
       ["Insurance"; "Medications"; "Doctor Visits"; "Gym Membership"]);
    ("Entertainment", ["Movies"; "Streaming Services"; "Hobbies"; "Events"]);
    ("Shopping", ["Clothing"; "Electronics"; "Home Goods"; "Personal Care"]);
    ("Education", ["Tuition"; "Books"; "Courses"; "School Supplies"]);
    ("Travel", ["Flights"; "Hotels"; "Car Rental"; "Activities"]);
    ("Savings", ["Emergency Fund"; "Investments"; "Retirement"]);
    ("Miscellaneous", ["Gifts"; "Donations"; "Other"]) ].

(** ** What a row of the result can be traced to *)

(** Everything but the two columns the classifier writes. *)
Definition same_data (a b : Transaction) : Prop :=
  date a = date b /\ description a = description b /\ amount a = amount b /\
  cap_subcategory a = cap_subcategory b /\
  raw_subcategory a = raw_subcategory b /\
  statement_id a = statement_id b.

(** Some row of [df] labelled [idx] is matched by [match_vendor] to
    [(c, s)], with the hint the loop hands over for that row: the one
    [subcategory_hint] reads for the row as the marks leave it. *)
Definition vendor_says (cols : Columns) (df : DataFrame) (idx : nat)
    (c s : string) : Prop :=
  exists t0 hint,
    In (idx, t0) df /\
    subcategory_hint cols df idx (initial_marks t0) = Some hint /\
    match_vendor (description t0) hint (amount t0) = Some (c, s).

(** A row [e] of the frame after the loop, against the input row [e0] at
    its place: the category and subcategory are the initial marks, or what
    the vendor matcher gave for its label, or the category is one of the
    scored ones. *)
Definition provenance (cols : Columns) (df : DataFrame)
    (e0 e : nat * Transaction) : Prop :=
  fst e = fst e0 /\
  same_data (snd e0) (snd e) /\
  ((category (snd e) = category (initial_marks (snd e0)) /\
    subcategory (snd e) = subcategory (initial_marks (snd e0)))
   \/ vendor_says cols df (fst e0) (category (snd e)) (subcategory (snd e))
   \/ In (category (snd e)) (map fst category_keywords)).

(** Frames for the examples: no optional column. *)
Definition plain : Columns := Cols false false false.

Definition tx (d : string) (a : Q) : Transaction :=
  Tx 20240105 d a EmptyString EmptyString None None "statement.csv".

(** The two columns the classifier writes. *)
Definition labels (out : option DataFrame)
    : option (list (string * string)) :=
  option_map (map (fun e => (category (snd e), subcategory (snd e)))) out.

Definition sample_frame : DataFrame :=
  [ (0, tx "salary" (-50)); (1, tx "zzz" 0); (2, tx "zzz" 5);
    (3, tx "zzz" (-5)); (4, tx "coffee shop" (-3)) ].

End DataProcessor.

(** * app.py: the merge of an imported statement into the ledger *)

Module App.

Import Frame.
Local Open Scope nat_scope.

(** Equality on the columns [['date', 'description', 'amount']]. *)
Definition same_key (a b : Transaction) : bool :=
  (Z.eqb (date a) (date b)
   && String.eqb (description a) (description b)
   && Qeq_bool (amount a) (amount b))%bool.

Definition key_seen (seen : list Transaction) (t : Transaction) : bool :=
  existsb (same_key t) seen.

(** [df.drop_duplicates(subset=['date', 'description', 'amount'],
    keep='first')]: a row is dropped when an earlier row has its key; the
    rows kept stay in order and keep their labels.  [seen] holds the rows
    read so far. *)
Fixpoint drop_duplicates_from (seen : list Transaction) (df : DataFrame)
    : DataFrame :=
  match df with
  | [] => []
  | r :: t =>
      if key_seen seen (snd r) then drop_duplicates_from seen t
      else r :: drop_duplicates_from (snd r :: seen) t
  end.

Definition drop_duplicates (df : DataFrame) : DataFrame :=
  drop_duplicates_from [] df.

(** [pd.concat([a, b], ignore_index=True)]: the rows of [a] then those of
    [b], labelled [0, 1, 2, ...]. *)
Definition concat (a b : DataFrame) : DataFrame :=
  let rows := map snd (a ++ b) in
  combine (seq 0 (List.length rows)) rows.

(** [df.sort_values('date', ascending=False)].  The order pandas gives to
    rows of equal date is not fixed by its default sort; here they keep
    their order. *)
Fixpoint insert_by_date (r : nat * Transaction) (l : DataFrame) : DataFrame :=
  match l with
  | [] => [r]
  | x :: t =>
      if Z.leb (date (snd x)) (date (snd r)) then r :: x :: t
      else x :: insert_by_date r t
  end.

Fixpoint sort_values_date_desc (df : DataFrame) : DataFrame :=
  match df with
  | [] => []
  | r :: t => insert_by_date r (sort_values_date_desc t)
  end.

(** "Combine with new data", lines 147 to 162: [current_data] is the
    ledger, [new_data] the parsed statement. *)
Definition merge (current_data new_data : DataFrame) : DataFrame :=
  let combined_data :=
    match current_data with
    | _ :: _ => drop_duplicates (concat current_data new_data)
    | [] => new_data
    end in
  sort_values_date_desc combined_data.

(** The import handler after parsing: the merge, then
    [categorize_transactions] on the merged frame, whose result becomes the
    ledger.  [None] when the categorization raises; the ledger is then left
    as it was. *)
Definition import_statement (cols : Columns)
    (categories : DataProcessor.Categories)
    (current_data new_data : DataFrame) : option DataFrame :=
  DataProcessor.categorize_transactions cols (merge current_data new_data)
    categories.

(** The rows of a frame without their labels. *)
Definition rows (df : DataFrame) : list Transaction := map snd df.

(** Two frames with the same keys, row by row. *)
Definition same_rows (a b : DataFrame) : Prop :=
  Forall2 (fun x y => same_key (snd x) (snd y) = true) a b.

(** No two rows with the same key. *)
Fixpoint distinct_keys (l : list Transaction) : Prop :=
  match l with
  | [] => True
  | t :: rest => key_seen rest t = false /\ distinct_keys rest
  end.

(** Sorted by date, latest first. *)
Definition later_first (a b : Transaction) : Prop := (date b <= date a)%Z.

Definition date_descending (l : list Transaction) : Prop :=
  StronglySorted later_first l.

(** [firsts l]: the rows of [l] that no earlier row of [l] duplicates, in
    order: what "keep the first-seen occurrence" leaves. *)
Fixpoint firsts_from (earlier : list Transaction) (l : list Transaction)
    : list Transaction :=
  match l with
  | [] => []
  | t :: rest =>
      if key_seen earlier t then firsts_from (earlier ++ [t]) rest
      else t :: firsts_from (earlier ++ [t]) rest
  end.

Definition firsts (l : list Transaction) : list Transaction :=
  firsts_from [] l.

(** A statement of ten rows, for the scenario of the double import. *)
Definition statement_row (n : nat) : nat * Transaction :=
  (n, Tx (20240100 + Z.of_nat n) "CARD PAYMENT" (inject_Z (- Z.of_nat n) - 5)
         EmptyString EmptyString None None "statement.csv").

Definition ten_rows : DataFrame := map statement_row (seq 0 10).

(** A row imported twice in one statement. *)
Definition coffee : Transaction :=
  Tx 20240105 "COFFEE" (- (7 # 2)) EmptyString EmptyString None None
     "statement.csv".

End App.

(** * More on the tax calculator: conditions on a table *)

Module TaxTable.

Import TaxCalculator.

(** No two brackets with the same [min]. *)
Fixpoint distinct_mins (l : list bracket) : Prop :=
  match l with
  | [] => True
  | b :: t => Forall (fun x => ~ b_min b == b_min x) t /\ distinct_mins t
  end.

(** A lower bound that is not negative, a rate between 0 and 100%. *)
Definition min_ok (b : bracket) : Prop := 0 <= b_min b.
Definition rate_in_unit (b : bracket) : Prop := 0 <= b_rate b /\ b_rate b <= 1.

(** The sum of the [income_in_bracket] column of a breakdown. *)
Definition sum_income (l : list breakdown_entry) : Q :=
  fold_right (fun e acc => income_in_bracket e + acc) 0 l.

End TaxTable.

(** * More on the vendor matcher: the categories of its answers *)

Module VendorAnswers.

Import PyStr VendorDatabase.
Local Open Scope string_scope.

(** The categories that occur in [VENDOR_DATABASE], in the order of their
    first occurrence. *)
Definition vendor_categories : list string :=
  [ "Bills & Payments"; "Savings"; "Investments"; "Transfer"; "Food";
    "Shopping"; "Transportation"; "Travel"; "Housing"; "Utilities";
    "Entertainment"; "Banking"; "Healthcare"; "Insurance"; "Education";
    "Income"; "Business"; "Cash"; "Fees & Charges"; "Taxes"; "Giving" ].

(** A categorization whose category is one of them. *)
Definition known (c : categorization) : Prop :=
  mem (cat_of c) vendor_categories = true.

(** A hint that selects the handler of counter credits or the one of
    direct debits. *)
Definition bank_hint (sub : string) : bool :=
  (contains "counter credit" (strip (lower sub))
   || contains "direct debit" (strip (lower sub)))%bool.

End VendorAnswers.

(** * More on the classifier and the ledger of app.py *)

Module Ledger.

Import PyStr VendorDatabase VendorAnswers Frame DataProcessor.
Local Open Scope nat_scope.
Local Open Scope string_scope.

(** Two frames with the same labels and, row by row, the same data; the
    columns ['category'] and ['subcategory'] may differ. *)
Definition same_frame (a b : DataFrame) : Prop :=
  Forall2 (fun x y => fst x = fst y /\ same_data (snd x) (snd y)) a b.

(** Every label is a position of the frame. *)
Definition labels_in_range (df : DataFrame) : Prop :=
  Forall (fun r => fst r < List.length df) df.

(** The categories a row of the ledger can have: the default, those of the
    vendor table and the keys of [category_keywords]. *)
Definition ledger_categories : list string :=
  "Uncategorized" :: (vendor_categories ++ map fst category_keywords)%list.

(** "Apply New Category", app.py lines 737 to 741: the rows with the
    selected description get the chosen category and subcategory. *)
Definition apply_new_category (selected_desc new_cat new_subcat : string)
    (transactions : DataFrame) : DataFrame :=
  mask_update (fun t => String.eqb (description t) selected_desc)
    (fun t => set_subcategory new_subcat (set_category new_cat t))
    transactions.

(** "Remove this statement", app.py lines 612 to 614. *)
Definition remove_statement (id : string) (transactions : DataFrame)
    : DataFrame :=
  filter (fun r => negb (String.eqb (statement_id (snd r)) id)) transactions.

(** A frame with a label that is no position. *)
Definition relabelled_frame : DataFrame := [ (7, tx "coffee shop" (-3)) ].

End Ledger.

(** * More on app.py: statements that overlap the ledger *)

Module Statements.

Import Frame DataProcessor App.
Local Open Scope nat_scope.
Local Open Scope string_scope.

(** The rows "Remove this statement" keeps. *)
Definition kept (id : string) (t : Transaction) : bool :=
  negb (String.eqb (statement_id t) id).

(** A ledger of one row, a statement that repeats it and ends with a row
    that only the keyword scoring can classify. *)
Definition old_row : Transaction :=
  Tx 20240105 "COFFEE" (- (7 # 2)) "Food" "Groceries" None None "january.csv".

Definition new_row : Transaction :=
  Tx 20240107 "coffee shop" (- 3) EmptyString EmptyString None None
     "february.csv".

Definition february : DataFrame :=
  [ (0, Tx 20240105 "COFFEE" (- (7 # 2)) EmptyString EmptyString None None
           "february.csv") ].

End Statements.

(** * The summary, the charts and the tax settings *)

Module Reports.

Import PyStr TaxCalculator Frame App.
Local Open Scope string_scope.

(** ** utils/data_processor.py: [calculate_summary] *)

Definition set_amount (a : Q) (t : Transaction) : Transaction :=
  Tx (date t) (description t) a (category t) (subcategory t)
     (cap_subcategory t) (raw_subcategory t) (statement_id t).

Definition income_mask (t : Transaction) : bool :=
  String.eqb (category t) "Income".

Definition payward_mask (t : Transaction) : bool :=
  contains "payward" (lower (description t)).

Definition transfer_mask (t : Transaction) : bool :=
  String.eqb (category t) "Transfer".

(** [~income_mask & ~transfer_mask & ~payward_mask] *)
Definition expense_mask (t : Transaction) : bool :=
  (negb (income_mask t) && negb (transfer_mask t)
   && negb (payward_mask t))%bool.

(** [df['amount'].sum()] *)
Definition sum_amounts (l : list Transaction) : Q :=
  fold_right (fun t acc => amount t + acc) 0 l.

(** [income_df]: the rows of category Income, the negative amounts made
    positive. *)
Definition income_df (df : DataFrame) : list Transaction :=
  map (fun t => if Qlt_bool (amount t) 0
                then set_amount (Qabs (amount t)) t else t)
      (filter income_mask (rows df)).

(** [expense_df] after the [pd.concat]: the other rows with the positive
    amounts made negative, then the transfers, then the rows of Payward,
    both as they are. *)
Definition expense_df (df : DataFrame) : list Transaction :=
  (map (fun t => if Qlt_bool 0 (amount t)
                 then set_amount (- amount t) t else t)
       (filter expense_mask (rows df))
   ++ filter transfer_mask (rows df)
   ++ filter payward_mask (rows df))%list.

(** The numbers of the dictionary [calculate_summary] returns;
    [income_count] and [expense_count] are its ['transaction_types']. *)
Record Summary : Type := MkSummary {
  total_income : Q;
  total_expenses : Q;
  net_savings : Q;
  savings_rate : Q;
  income_count : nat;
  expense_count : nat
}.

Definition calculate_summary (df : DataFrame) : Summary :=
  match df with
  | [] => MkSummary 0 0 0 0 0%nat 0%nat
  | _ :: _ =>
      let total_income := sum_amounts (income_df df) in
      let total_expenses := Qabs (sum_amounts (expense_df df)) in
      let net_savings := total_income - total_expenses in
      let savings_rate :=
        if Qlt_bool 0 total_income then net_savings / total_income * 100
        else 0 in
      MkSummary total_income total_expenses net_savings savings_rate
                (List.length (income_df df)) (List.length (expense_df df))
  end.

(** The sum of the absolute amounts. *)
Definition sum_abs (l : list Transaction) : Q :=
  fold_right (fun t acc => Qabs (amount t) + acc) 0 l.

(** A row that is in [income_df] or among the transfers and also among the
    rows of Payward. *)
Definition counted_twice (t : Transaction) : bool :=
  (payward_mask t && (income_mask t || transfer_mask t))%bool.

(** ** utils/visualization.py: [plot_income_vs_expense]

    The two bars of the chart, [values = [income, expenses]]. *)
Definition plot_income_vs_expense (df : DataFrame) : Q * Q :=
  (sum_amounts (filter (fun t => Qlt_bool 0 (amount t)) (rows df)),
   Qabs (sum_amounts (filter (fun t => Qlt_bool (amount t) 0) (rows df)))).

(** ** app.py: the tax estimate of the dashboard, lines 213 to 226

    [days] is [(end_date - start_date).days]. *)
Definition annual_income_estimate (total : Q) (days : Z) : Q :=
  if Z.ltb 0 days then total * (365 / inject_Z days) else 0.

Definition dashboard_tax (filtered_data : DataFrame) (days : Z)
    (tax_brackets : list bracket) : tax_result :=
  calculate_tax_liability
    (annual_income_estimate (total_income (calculate_summary filtered_data))
       days)
    tax_brackets.

(** ** app.py: "Add New Tax Bracket", lines 808 to 821 *)

(** [[b['max'] for b in updated_brackets if b['max'] != float('inf')]] *)
Definition finite_maxes (l : list bracket) : list Q :=
  flat_map (fun b => match b_max b with Fin q => [q] | Inf => [] end) l.

(** [max(values)]; [ValueError] on the empty list. *)
Definition max_of (l : list Q) : option Q :=
  match l with
  | [] => None
  | x :: t => Some (fold_left (fun m y => if Qlt_bool m y then y else m) t x)
  end.

Definition add_new_tax_bracket (updated_brackets : list bracket)
    : option (list bracket) :=
  match updated_brackets with
  | [] => Some []
  | _ :: _ =>
      match max_of (finite_maxes updated_brackets) with
      | None => None
      | Some last_max =>
          Some (map (fun b =>
                       match b_max b with
                       | Inf => Bracket (b_min b) (Fin (last_max + 50000))
                                        (b_rate b)
                       | Fin _ => b
                       end) updated_brackets
                ++ [Bracket (last_max + 50000) Inf (37 # 100)])%list
      end
  end.

(** A table without gaps: every bracket ends where the next begins and
    the last one is open. *)
Fixpoint contiguous (l : list bracket) : Prop :=
  match l with
  | [] => False
  | b :: t =>
      match t with
      | [] => b_max b = Inf
      | c :: _ =>
          match b_max b with
          | Fin q => q == b_min c
          | Inf => False
          end /\ contiguous t
      end
  end.

Definition last_bracket (l : list bracket) : bracket :=
  last l (Bracket 0 Inf 0).

(** A small ledger for the examples. *)
Definition march : DataFrame :=
  [ (0%nat, Tx 20240301 "ACME LTD" 2000 "Income" "Salary" None None "march.csv");
    (1%nat, Tx 20240302 "RENT" (- 800) "Housing" "Rent" None None "march.csv");
    (2%nat, Tx 20240305 "REBATE" 30 "Shopping" "Clothing" None None
           "march.csv") ].

End Reports.

(** * The rounding of binary64

    Python's [float] is the binary64 format of IEEE 754: 53 significant
    bits, exponents of the unit in the last place from -1074 up.  An
    operation returns the number of the format nearest to the exact result,
    the one with the even last bit when two are as near. *)

Module Binary64.

Local Open Scope Q_scope.

(** The nearest integer, the even one of two. *)
Definition rne (q : Q) : Z :=
  let f := Qfloor q in
  match Qcompare (q - inject_Z f) (1 # 2) with
  | Lt => f
  | Gt => (f + 1)%Z
  | Eq => if Z.even f then f else (f + 1)%Z
  end.

(** The exponent [e] with [2^e <= q < 2^(e+1)], for [0 < q]. *)
Definition ilog2 (q : Q) : Z :=
  let k := (Z.log2 (Qnum q) - Z.log2 (Zpos (Qden q)))%Z in
  if Qle_bool (2 ^ k) q then k else (k - 1)%Z.

(** The exponent of the unit in the last place at [q]. *)
Definition ulp_exp (q : Q) : Z := Z.max (ilog2 q - 52) (-1074).

Definition round_pos (q : Q) : Q :=
  let u := ulp_exp q in inject_Z (rne (q / 2 ^ u)) * 2 ^ u.

Definition round64 (q : Q) : Q :=
  match Qcompare q 0 with
  | Eq => 0
  | Gt => round_pos q
  | Lt => - round_pos (- q)
  end.

(** The largest number of the format is 2^1024 - 2^971.  A result that
    [round64] takes to 2^1024 or beyond overflows: Python returns [inf]
    for it, and [-inf] on the other side.  [saturated] is the rounding
    with 2^1024 in the place of [inf]; it is above every number of the
    format, and a sum of it and a number that is not negative is 2^1024
    again, as [inf + x] is [inf]. *)
Definition top : Q := 2 ^ 1024.

Definition clamp (r : Q) : Q :=
  if Qle_bool top r then top
  else if Qle_bool r (- top) then - top
  else r.

Definition saturated (q : Q) : Q := clamp (round64 q).

End Binary64.

(** * utils/tax_calculator.py in floating point

    The arithmetic of [calculate_tax_liability] as Python does it on
    floats: every subtraction, product, sum and quotient returns the
    exact result rounded to a number of the format, [rnd] of it.  The
    comparisons are exact.  With [Binary64.round64] for [rnd] the results
    are those of Python as long as none overflows to [inf];
    [Binary64.saturated] is the rounding with the overflow. *)

Module TaxFloat.

Import TaxCalculator.

Section Rounded.

Variable rnd : Q -> Q.

Definition bracket_income (remaining_income : Q) (b : bracket) : Q :=
  if Qle_bool remaining_income 0 then 0
  else match b_max b with
       | Fin max_amount =>
           if Qle_bool (b_min b) remaining_income
              && Qle_bool remaining_income max_amount
           then rnd (remaining_income - b_min b)
           else if Qlt_bool max_amount remaining_income
           then rnd (max_amount - b_min b)
           else 0
       | Inf =>
           if Qle_bool (b_min b) remaining_income
           then rnd (remaining_income - b_min b)
           else 0
       end.

Fixpoint bracket_loop (bs : list bracket) (total remaining : Q)
    (breakdown : list breakdown_entry) : Q * list breakdown_entry :=
  match bs with
  | [] => (total, breakdown)
  | b :: bs' =>
      let inc := bracket_income remaining b in
      let tax := rnd (inc * b_rate b) in
      let total' := rnd (total + tax) in
      let remaining' := rnd (remaining - inc) in
      let breakdown' :=
        if Qlt_bool 0 inc
        then breakdown ++ [Entry (b_min b) (b_max b) (b_rate b) inc tax]
        else breakdown in
      if Qle_bool remaining' 0 then (total', breakdown')
      else bracket_loop bs' total' remaining' breakdown'
  end.

Definition calculate_tax_liability (income : Q) (tax_brackets : list bracket)
    : tax_result :=
  let '(total, breakdown) :=
    bracket_loop (sorted_brackets tax_brackets) 0 income [] in
  let eff :=
    if Qlt_bool 0 income then rnd (rnd (total / income) * 100) else 0 in
  TaxResult income total eff breakdown.

End Rounded.

(** 2^52.  Whole numbers up to 2^53 in magnitude are numbers of binary64,
    so the difference of two whole numbers up to 2^52 is computed
    exactly. *)
Definition limit : Q := 4503599627370496.

(** What the properties below use of a rounding: it keeps the order, it
    leaves a rounded number as it is, and it leaves the whole numbers up to
    2^53 as they are.  The rounding of binary64 to the nearest number,
    ties to even, is one ([Binary64.round64]). *)
Definition rounding (rnd : Q -> Q) : Prop :=
  (forall x y, x <= y -> rnd x <= rnd y) /\
  (forall x, rnd (rnd x) == rnd x) /\
  (forall z : Z, - (2 * limit) <= inject_Z z -> inject_Z z <= 2 * limit ->
                 rnd (inject_Z z) == inject_Z z).

Definition integer (q : Q) : Prop := exists z : Z, q == inject_Z z.

(** A whole number of at most 2^52 in magnitude. *)
Definition whole (q : Q) : Prop :=
  integer q /\ - limit <= q /\ q <= limit.

Definition whole_bracket (b : bracket) : Prop :=
  whole (b_min b) /\
  match b_max b with
  | Fin m => whole m
  | Inf => True
  end.

(** The number of binary64 a decimal literal of Python denotes. *)
Definition literal (q : Q) : Q := Binary64.round64 q.

(** A table of whole bounds as Python holds it: the rates are the numbers
    of binary64 nearest to 0.10, 0.12, ... *)
Definition rates_as_literals (l : list bracket) : list bracket :=
  map (fun b => Bracket (b_min b) (b_max b) (literal (b_rate b))) l.

Definition default_tax_brackets : list bracket :=
  rates_as_literals TaxCalculator.default_tax_brackets.

(** Two brackets that begin at 0.3: after the first one the income that
    remains is 0.3 up to a rounding error. *)
Definition sliver_table : list bracket :=
  [ Bracket (literal (3 # 10)) (Fin 1000000) 0;
    Bracket (literal (3 # 10)) (Fin 2000000) (literal (5 # 10)) ].

(** Four brackets at the rate 1 whose bounds are no whole numbers. *)
Definition fraction_table : list bracket :=
  [ Bracket 0 (Fin (literal (4 # 10))) 1;
    Bracket 0 (Fin (literal (9 # 10))) 1;
    Bracket 0 (Fin 2) 1;
    Bracket 0 (Fin (literal (5 # 10))) 1 ].

End TaxFloat.

(** * Properties *)

(** ** Rational comparisons *)

Lemma Qlt_bool_iff (x y : Q) : Qlt_bool x y = true <-> x < y.
Proof.
  unfold Qlt_bool. rewrite negb_true_iff.
  split; intro H.
  - apply Qnot_le_lt. intro L. apply Qle_bool_iff in L. congruence.
  - destruct (Qle_bool y x) eqn:E; [|reflexivity].
    apply Qle_bool_iff in E. exfalso. apply (Qlt_not_le _ _ H E).
Qed.

Lemma Qlt_bool_false (x y : Q) : Qlt_bool x y = false <-> y <= x.
Proof.
  unfold Qlt_bool. rewrite negb_false_iff. apply Qle_bool_iff.
Qed.

Lemma Qle_bool_false (x y : Q) : Qle_bool x y = false <-> y < x.
Proof.
  rewrite <- Qlt_bool_iff. unfold Qlt_bool.
  destruct (Qle_bool x y); simpl; intuition congruence.
Qed.

Ltac qbool :=
  repeat match goal with
  | H : Qle_bool _ _ = true |- _ => apply Qle_bool_iff in H
  | H : Qle_bool _ _ = false |- _ => apply Qle_bool_false in H
  | H : Qlt_bool _ _ = true |- _ => apply Qlt_bool_iff in H
  | H : Qlt_bool _ _ = false |- _ => apply Qlt_bool_false in H
  | H : andb _ _ = true |- _ => apply andb_true_iff in H; destruct H
  | H : andb _ _ = false |- _ => apply andb_false_iff in H; destruct H
  end.


Ltac case_ifs :=
  repeat match goal with
  | |- context [if ?c then _ else _] => destruct c eqn:?
  end.

(** ** The tax calculator *)

Module TaxFacts.

Import TaxCalculator.

Lemma bracket_income_nonneg (b : bracket) (r : Q) :
  span_ok b -> 0 <= bracket_income r b.
Proof.
  unfold span_ok, bracket_income. intro Hs.
  destruct (b_max b) as [m|]; case_ifs; qbool; lra.
Qed.

(** The income taken by a bracket grows with what remains, and what is left
    after it grows too unless nothing is left. *)
Lemma bracket_income_mono (b : bracket) (r s : Q) :
  span_ok b -> r <= s ->
  bracket_income r b <= bracket_income s b /\
  (r - bracket_income r b <= 0 \/
   r - bracket_income r b <= s - bracket_income s b).
Proof.
  unfold span_ok, bracket_income. intros Hs Hrs.
  destruct (b_max b) as [m|]; case_ifs; qbool; split; lra.
Qed.

Lemma tax_from_nonpos (bs : list bracket) (r : Q) :
  r <= 0 -> tax_from bs r == 0.
Proof.
  intro Hr. destruct bs as [|b bs]; simpl; [reflexivity|].
  assert (E : bracket_income r b = 0).
  { unfold bracket_income.
    destruct (Qle_bool r 0) eqn:E0; [reflexivity|]. qbool. lra. }
  rewrite E.
  destruct (Qle_bool (r - 0) 0) eqn:E1; [lra|]. qbool. lra.
Qed.

Lemma tax_from_nonneg (bs : list bracket) :
  Forall span_ok bs -> Forall rate_ok bs -> forall r, 0 <= tax_from bs r.
Proof.
  induction bs as [|b bs IH]; intros Hs Hr r; simpl; [lra|].
  inversion Hs as [|? ? Hsb Hsbs]; inversion Hr as [|? ? Hrb Hrbs]; subst.
  assert (0 <= bracket_income r b) by (apply bracket_income_nonneg; assumption).
  assert (0 <= bracket_income r b * b_rate b)
    by (apply Qmult_le_0_compat; assumption).
  destruct (Qle_bool _ 0); [lra|].
  specialize (IH Hsbs Hrbs (r - bracket_income r b)). lra.
Qed.

(** The loop adds [tax_from] to its accumulator. *)
Lemma bracket_loop_total (bs : list bracket) :
  forall total r bd,
    fst (bracket_loop bs total r bd) == total + tax_from bs r.
Proof.
  induction bs as [|b bs IH]; intros total r bd; simpl; [lra|].
  destruct (Qle_bool (r - bracket_income r b) 0); simpl; [lra|].
  rewrite IH. lra.
Qed.

Lemma total_tax_eq (income : Q) (brackets : list bracket) :
  total_tax (calculate_tax_liability income brackets)
  == tax_from (sorted_brackets brackets) income.
Proof.
  unfold calculate_tax_liability.
  pose proof (bracket_loop_total (sorted_brackets brackets) 0 income []) as H.
  destruct (bracket_loop (sorted_brackets brackets) 0 income []) as [t bd].
  simpl in *. rewrite H. lra.
Qed.

Lemma insert_by_min_Forall (P : bracket -> Prop) (b : bracket)
    (l : list bracket) :
  P b -> Forall P l -> Forall P (insert_by_min b l).
Proof.
  intros Hb Hl. induction Hl as [|x t Hx Ht IH]; simpl.
  - constructor; [assumption|constructor].
  - destruct (Qle_bool (b_min b) (b_min x)); repeat constructor; assumption.
Qed.

Lemma sorted_brackets_Forall (P : bracket -> Prop) (l : list bracket) :
  Forall P l -> Forall P (sorted_brackets l).
Proof.
  induction 1; simpl; [constructor|].
  apply insert_by_min_Forall; assumption.
Qed.

(** A list that is already ascending by [min] is left as it is. *)
Lemma sorted_brackets_id (l : list bracket) :
  ascending_by_min l -> sorted_brackets l = l.
Proof.
  unfold ascending_by_min. induction 1 as [|b t Hs IH Hb]; simpl.
  - reflexivity.
  - rewrite IH. destruct t as [|x t']; simpl; [reflexivity|].
    inversion Hb as [|? ? Hbx Hbt]; subst.
    destruct (Qle_bool (b_min b) (b_min x)) eqn:E; [reflexivity|].
    qbool. lra.
Qed.

(** The entries the loop appends, and their sum. *)
Lemma bracket_loop_breakdown (bs : list bracket) :
  forall total r bd,
  exists new,
    snd (bracket_loop bs total r bd) = bd ++ new /\
    Forall entry_ok new /\
    (Forall span_ok bs -> tax_from bs r == sum_tax new).
Proof.
  induction bs as [|b bs IH]; intros total r bd.
  - exists []. simpl. rewrite app_nil_r.
    split; [reflexivity|]. split; [constructor|]. intros _. reflexivity.
  - simpl.
    set (inc := bracket_income r b).
    set (e := Entry (b_min b) (b_max b) (b_rate b) inc (inc * b_rate b)).
    assert (Hzero : span_ok b -> Qlt_bool 0 inc = false -> inc * b_rate b == 0).
    { intros Hsb Hi. pose proof (bracket_income_nonneg b r Hsb) as Hnn.
      fold inc in Hnn. qbool. assert (E : inc == 0) by lra. rewrite E. lra. }
    destruct (Qlt_bool 0 inc) eqn:Ei; destruct (Qle_bool (r - inc) 0) eqn:Er.
    + exists [e]. split; [reflexivity|]. split.
      * constructor; [|constructor]. split; simpl; [qbool; assumption|reflexivity].
      * intros _. simpl. lra.
    + destruct (IH (total + inc * b_rate b) (r - inc) (bd ++ [e]))
        as (new & Hsnd & Hok & Hsum).
      exists (e :: new). rewrite Hsnd, <- app_assoc.
      split; [reflexivity|]. split.
      * constructor; [|assumption]. split; simpl; [qbool; assumption|reflexivity].
      * intro Hs. inversion Hs as [|? ? Hsb Hsbs]; subst.
        simpl. rewrite (Hsum Hsbs). reflexivity.
    + exists []. rewrite app_nil_r.
      split; [reflexivity|]. split; [constructor|].
      intro Hs. inversion Hs as [|? ? Hsb Hsbs]; subst.
      simpl. rewrite (Hzero Hsb eq_refl). lra.
    + destruct (IH (total + inc * b_rate b) (r - inc) bd)
        as (new & Hsnd & Hok & Hsum).
      exists new. split; [assumption|]. split; [assumption|].
      intro Hs. inversion Hs as [|? ? Hsb Hsbs]; subst.
      rewrite (Hsum Hsbs), (Hzero Hsb eq_refl). lra.
Qed.

(** C1 (the code at the input of the scenario).  With an annual income of
    75000 and the default table, [calculate_tax_liability] taxes the first
    two brackets only: the total is 0.10*11000 + 0.12*33725 = 5147.  The
    third bracket gets nothing, because what remains of the income (30275)
    is compared with the bounds of the bracket (44725 and 95375).  The
    stepwise sum of the scenario is 11807.5.  The effective rate is the
    total over the income, as a percentage. *)
Theorem tax_of_75000_on_default_table :
  let r := calculate_tax_liability 75000 default_tax_brackets in
  total_tax r == 5147 /\
  map (fun e => Qred (income_in_bracket e)) (bracket_breakdown r)
    = [11000; 33725] /\
  ~ total_tax r ==
      (10 # 100) * 11000 + (12 # 100) * (44725 - 11000)
      + (22 # 100) * (75000 - 44725) /\
  effective_rate r == total_tax r / 75000 * 100.
Proof.
  intro r. split; [|split; [|split]].
  - vm_compute. reflexivity.
  - vm_compute. reflexivity.
  - intro H. vm_compute in H. discriminate.
  - vm_compute. reflexivity.
Qed.


Lemma default_table_span_ok : Forall span_ok default_tax_brackets.
Proof.
  unfold default_tax_brackets.
  repeat (constructor; [unfold span_ok; simpl; try exact I; try lra|]).
  constructor.
Qed.

Lemma default_table_rate_ok : Forall rate_ok default_tax_brackets.
Proof.
  unfold default_tax_brackets.
  repeat (constructor; [unfold rate_ok; simpl; lra|]).
  constructor.
Qed.

(** C10 as stated fails: with the bracket 10 to 5 at 10% and an income of
    20 the loop adds 0.1 * (5 - 10) = -0.5 to the total and appends nothing
    to the breakdown. *)
Lemma breakdown_sum_fails_on_reversed_bracket :
  ~ (forall income brackets,
       let r := calculate_tax_liability income brackets in
       Forall (fun e => 0 < income_in_bracket e /\
                        tax_amount e == income_in_bracket e * e_rate e)
              (bracket_breakdown r) /\
       total_tax r == sum_tax (bracket_breakdown r)).
Proof.
  intro H. destruct (H 20 reversed_bracket) as [_ Hsum].
  vm_compute in Hsum. discriminate.
Qed.

(** C10, amended.  For every annual income and every list of brackets in
    which every bracket has [min <= max]: every entry of the breakdown has
    [income_in_bracket > 0] and [tax_amount = income_in_bracket * rate], and
    [total_tax] is the sum of [tax_amount] over the entries. *)
Theorem breakdown_invariant (income : Q) (brackets : list bracket)
    (Hspan : Forall span_ok brackets) :
  let r := calculate_tax_liability income brackets in
  Forall (fun e => 0 < income_in_bracket e /\
                   tax_amount e = income_in_bracket e * e_rate e)
         (bracket_breakdown r) /\
  total_tax r == sum_tax (bracket_breakdown r).
Proof.
  intro r. subst r.
  pose proof (total_tax_eq income brackets) as Ht.
  unfold calculate_tax_liability in *.
  destruct (bracket_loop_breakdown (sorted_brackets brackets) 0 income [])
    as (new & Hsnd & Hok & Hsum).
  destruct (bracket_loop (sorted_brackets brackets) 0 income []) as [t bd].
  simpl in *. subst bd. split; [exact Hok|].
  rewrite Ht. apply Hsum. apply sorted_brackets_Forall. assumption.
Qed.

Lemma breakdown_invariant_witness :
  let r := calculate_tax_liability 75000 default_tax_brackets in
  Forall (fun e => 0 < income_in_bracket e /\
                   tax_amount e = income_in_bracket e * e_rate e)
         (bracket_breakdown r) /\
  total_tax r == sum_tax (bracket_breakdown r).
Proof.
  apply (breakdown_invariant 75000 default_tax_brackets).
  exact default_table_span_ok.
Defined.

(** The first two parts of C10 need no assumption on the brackets. *)
Lemma breakdown_entries_ok (income : Q) (brackets : list bracket) :
  Forall entry_ok (bracket_breakdown (calculate_tax_liability income brackets)).
Proof.
  unfold calculate_tax_liability.
  destruct (bracket_loop_breakdown (sorted_brackets brackets) 0 income [])
    as (new & Hsnd & Hok & _).
  destruct (bracket_loop (sorted_brackets brackets) 0 income []) as [t bd].
  simpl in *. subst bd. exact Hok.
Qed.

End TaxFacts.

(** ** [parse_csv]: the combined amount of split debit and credit columns *)

Module AmountFacts.

Import FileHandler.

Lemma Qneq_bool_true (x y : Q) : Qneq_bool x y = true <-> ~ x == y.
Proof.
  unfold Qneq_bool. rewrite negb_true_iff.
  split.
  - intros H E. apply Qeq_bool_iff in E. congruence.
  - intro H. destruct (Qeq_bool x y) eqn:E; [|reflexivity].
    apply Qeq_bool_iff in E. contradiction.
Qed.

Lemma Qneq_bool_false (x y : Q) : Qneq_bool x y = false <-> x == y.
Proof.
  unfold Qneq_bool. rewrite negb_false_iff. apply Qeq_bool_iff.
Qed.

(** What the three assignments leave in [combined_amount]: the debit value
    (as a negative magnitude) whenever it is not zero, otherwise the credit
    value. *)
Lemma combined_amount_cases (credit debit : option Q) :
  let c := fillna0 credit in
  let d := - Qabs (fillna0 debit) in
  (~ d == 0 -> combined_amount credit debit == d) /\
  (d == 0 -> combined_amount credit debit == c).
Proof.
  intros c d. unfold combined_amount. fold c.
  assert (Hd : -1 * Qabs (fillna0 debit) == d) by (unfold d; ring).
  destruct (Qneq_bool (-1 * Qabs (fillna0 debit)) 0) eqn:E1;
    destruct (Qneq_bool c 0) eqn:E2;
    repeat match goal with
    | H : Qneq_bool _ _ = true |- _ => apply Qneq_bool_true in H
    | H : Qneq_bool _ _ = false |- _ => apply Qneq_bool_false in H
    end; split; intro H; try lra.
Qed.

(** The half of C3 that the code keeps: when exactly one of the two parsed
    values is not zero, the amount is that value (the debit value as a
    negative magnitude). *)
Lemma combined_amount_single (credit debit : option Q) :
  let c := fillna0 credit in
  let d := - Qabs (fillna0 debit) in
  (c == 0 -> ~ d == 0 -> combined_amount credit debit == d) /\
  (d == 0 -> ~ c == 0 -> combined_amount credit debit == c).
Proof.
  intros c d. destruct (combined_amount_cases credit debit) as [H1 H2].
  split; intros; [apply H1|apply H2]; assumption.
Qed.

(** C3 (the code at a row where both columns hold a value).  With credit
    100 and debit 30 both parsed values are non-zero; the amount is the
    debit value -30, not credit + debit = 70: the third assignment,
    [df.loc[debit_values != 0, 'combined_amount'] = debit_values], does not
    test that the credit is zero. *)
Theorem combined_amount_both_nonzero :
  let credit := Some 100 in
  let debit := Some 30 in
  ~ fillna0 credit == 0 /\ ~ - Qabs (fillna0 debit) == 0 /\
  combined_amount credit debit == -30 /\
  ~ combined_amount credit debit == fillna0 credit + - Qabs (fillna0 debit).
Proof.
  simpl. split; [|split; [|split]];
    try (intro H; vm_compute in H; discriminate).
  vm_compute. reflexivity.
Qed.

End AmountFacts.

(** ** [match_vendor] *)

Module VendorFacts.

Import PyStr Re VendorDatabase.
Local Open Scope nat_scope.
Local Open Scope string_scope.
Local Open Scope list_scope.

Lemma first_vendor_some (test : string -> bool)
    (db : list (string * categorization)) (v : string) (c : categorization) :
  first_vendor test db = Some (v, c) ->
  exists pre post,
    db = pre ++ (v, c) :: post /\
    Forall (fun e => test (fst e) = false) pre /\
    test v = true.
Proof.
  induction db as [|[v' c'] t IH]; simpl; [discriminate|].
  destruct (test v') eqn:E.
  - intro H. inversion H; subst. exists [], t. repeat split; [constructor|assumption].
  - intro H. destruct (IH H) as (pre & post & Hdb & Hpre & Hv).
    exists ((v', c') :: pre), post. subst t.
    repeat split; [constructor; assumption|assumption].
Qed.

Lemma first_vendor_none (test : string -> bool)
    (db : list (string * categorization)) :
  first_vendor test db = None ->
  Forall (fun e => test (fst e) = false) db.
Proof.
  induction db as [|[v' c'] t IH]; simpl; [constructor|].
  destruct (test v') eqn:E; [discriminate|].
  intro H. constructor; [assumption|apply IH; assumption].
Qed.

Lemma first_vendor_in (test : string -> bool)
    (db : list (string * categorization)) (v : string) (c : categorization) :
  first_vendor test db = Some (v, c) -> In (v, c) db.
Proof.
  intro H. destruct (first_vendor_some _ _ _ _ H) as (pre & post & -> & _).
  apply in_or_app. right. left. reflexivity.
Qed.

Lemma or_else_some {A : Type} (x y : option A) (a : A) :
  or_else x y = Some a -> x = Some a \/ (x = None /\ y = Some a).
Proof.
  destruct x; simpl; intro H; [left|right; split]; congruence.
Qed.


(** With the hint "Direct Debit" the vendor table is searched before the
    refund test, and the subcategory of the vendor is returned as it is. *)
Lemma refund_after_direct_debit :
  match_vendor "amazon refund" (Some "Direct Debit") 0
  = Some ("Shopping", "Online Shopping").
Proof. vm_compute. reflexivity. Qed.



(** At that input the vendor is `tesco' and the result Food/Refund, where
    the vendor lookup alone gives Food/Groceries. *)
Lemma refund_from_tesco :
  match_vendor "refund from tesco" None 0 = Some ("Food", "Refund") /\
  match_vendor "from tesco" None 0 = Some ("Food", "Groceries").
Proof. split; vm_compute; reflexivity. Qed.

(** *** No rule answers with the category "Uncategorized" *)

Ltac by_cases_on H :=
  repeat match type of H with
  | context [if ?c then _ else _] => destruct c
  end;
  try discriminate H;
  try (inversion H; subst; unfold named; simpl; discriminate).

Lemma table_named : Forall (fun e => named (snd e)) VENDOR_DATABASE.
Proof.
  apply Forall_forall. intros e He.
  assert (Hb : forallb (fun e => negb (String.eqb (cat_of (snd e))
                                                 "Uncategorized"))
                       VENDOR_DATABASE = true) by (vm_compute; reflexivity).
  rewrite forallb_forall in Hb. specialize (Hb e He).
  apply negb_true_iff in Hb. apply String.eqb_neq in Hb. exact Hb.
Qed.

Lemma first_vendor_named (test : string -> bool) (v : string)
    (c : categorization) :
  first_vendor test VENDOR_DATABASE = Some (v, c) -> named c.
Proof.
  intro H. apply first_vendor_in in H.
  pose proof table_named as Ht. rewrite Forall_forall in Ht.
  apply (Ht (v, c) H).
Qed.

Lemma platform_rules_named (d : string) (c : categorization) :
  platform_rules d = Some c -> named c.
Proof. unfold platform_rules. intro H. by_cases_on H. Qed.

Lemma internal_transfer_rules_named (d sub : string) (c : categorization) :
  internal_transfer_rules d sub = Some c -> named c.
Proof.
  unfold internal_transfer_rules. intro H.
  apply or_else_some in H. destruct H as [H|[_ H]]; by_cases_on H.
Qed.

Lemma counter_credit_named (d : string) : named (counter_credit d).
Proof.
  unfold counter_credit, named. case_ifs; simpl; discriminate.
Qed.

Lemma direct_debit_named (d : string) : named (direct_debit d).
Proof.
  unfold direct_debit. case_ifs; try (unfold named; simpl; discriminate).
  destruct (first_vendor (fun v => contains v d) VENDOR_DATABASE)
    as [[v c]|] eqn:E.
  - apply (first_vendor_named _ _ _ E).
  - unfold named. simpl. discriminate.
Qed.

Lemma card_purchase_named (d : string) (c : categorization) :
  card_purchase d = Some c -> named c.
Proof. unfold card_purchase. intro H. by_cases_on H. Qed.

Lemma debit_named (d : string) (c : categorization) :
  debit d = Some c -> named c.
Proof. unfold debit. intro H. by_cases_on H. Qed.

Lemma funds_transfer_named (d : string) (c : categorization) :
  funds_transfer d = Some c -> named c.
Proof. unfold funds_transfer. intro H. by_cases_on H. Qed.

Lemma subcategory_handlers_named (d : string) (sub : option string)
    (c : categorization) :
  subcategory_handlers d sub = Some c -> named c.
Proof.
  unfold subcategory_handlers. destruct sub as [sub|]; [|discriminate].
  destruct (is_empty sub); [discriminate|].
  destruct (contains "counter credit" (strip (lower sub))).
  { intro H. inversion H. apply counter_credit_named. }
  destruct (contains "direct debit" (strip (lower sub))).
  { intro H. inversion H. apply direct_debit_named. }
  intro H.
  apply or_else_some in H. destruct H as [H|[_ H]].
  { destruct (contains "card purchase" (strip (lower sub)));
      [apply (card_purchase_named d c H)|discriminate]. }
  apply or_else_some in H. destruct H as [H|[_ H]].
  { destruct (String.eqb "debit" (strip (lower sub)));
      [apply (debit_named d c H)|discriminate]. }
  destruct (contains "funds transfer" (strip (lower sub)));
    [apply (funds_transfer_named d c H)|discriminate].
Qed.

Lemma quick_checks_named (d : string) (c : categorization) :
  quick_checks d = Some c -> named c.
Proof. unfold quick_checks. intro H. by_cases_on H. Qed.

Lemma rules_before_refund_named (d : string) (sub : option string)
    (c : categorization) :
  rules_before_refund d sub = Some c -> named c.
Proof.
  unfold rules_before_refund. intro H.
  apply or_else_some in H. destruct H as [H|[_ H]];
    [apply (platform_rules_named _ _ H)|].
  apply or_else_some in H. destruct H as [H|[_ H]];
    [apply (internal_transfer_rules_named _ _ _ H)|].
  apply or_else_some in H. destruct H as [H|[_ H]];
    [apply (subcategory_handlers_named _ _ _ H)|].
  apply (quick_checks_named _ _ H).
Qed.

Lemma refund_rule_named (d : string) : named (refund_rule d).
Proof.
  unfold refund_rule.
  destruct (first_vendor (word_match d) VENDOR_DATABASE) as [[v c]|] eqn:E.
  - apply (first_vendor_named _ _ _ E).
  - unfold named. simpl. discriminate.
Qed.

Lemma overlap_fold_named (words : list string)
    (db : list (string * categorization)) :
  Forall (fun e => named (snd e)) db ->
  forall acc,
    (forall c, fst (fst acc) = Some c -> named c) ->
    forall c, fst (fst (fold_left (overlap_step words) db acc)) = Some c ->
              named c.
Proof.
  induction 1 as [|e db He Hdb IH]; intros acc Hacc c; simpl.
  - apply Hacc.
  - apply IH. intros c'. unfold overlap_step.
    destruct acc as [[bm bs] bl]. simpl in *.
    match goal with |- context [if ?b then _ else _] => destruct b end; simpl.
    + intro E. inversion E; subst. exact He.
    + apply Hacc.
Qed.

Lemma overlap_match_named (d : string) (c : categorization) :
  overlap_match d = Some c -> named c.
Proof.
  unfold overlap_match.
  pose proof (overlap_fold_named (split d) VENDOR_DATABASE table_named
                (None, 0, 0)) as H.
  destruct (fold_left (overlap_step (split d)) VENDOR_DATABASE (None, 0, 0))
    as [[bm bs] bl].
  simpl in H. destruct (Nat.ltb 0 bs); [|discriminate].
  apply H. discriminate.
Qed.

Lemma rules_after_refund_named (d : string) (c : categorization) :
  rules_after_refund d = Some c -> named c.
Proof.
  unfold rules_after_refund. intro H.
  apply or_else_some in H. destruct H as [H|[_ H]]; [by_cases_on H|].
  apply or_else_some in H. destruct H as [H|[_ H]].
  { destruct (first_vendor (word_match d) VENDOR_DATABASE) as [[v c']|] eqn:E;
      [|discriminate].
    inversion H; subst. apply (first_vendor_named _ _ _ E). }
  apply or_else_some in H. destruct H as [H|[_ H]].
  { match type of H with
    | option_map snd ?f = _ => destruct f as [[v c']|] eqn:E; [|discriminate]
    end.
    inversion H; subst. apply (first_vendor_named _ _ _ E). }
  apply (overlap_match_named _ _ H).
Qed.

(** Whatever [match_vendor] returns, its category is not "Uncategorized". *)
Lemma match_vendor_named (description : string) (subcategory : option string)
    (amount : Q) (c : categorization) :
  match_vendor description subcategory amount = Some c -> named c.
Proof.
  unfold match_vendor. destruct (is_empty description); [discriminate|].
  destruct (rules_before_refund (strip (lower description)) subcategory)
    as [c0|] eqn:E.
  - intro H. inversion H; subst. apply (rules_before_refund_named _ _ _ E).
  - destruct (contains "refund" (strip (lower description))).
    + intro H. inversion H. apply refund_rule_named.
    + apply rules_after_refund_named.
Qed.

End VendorFacts.

(** ** The merge of an import into the ledger *)

Module AppFacts.

Import Frame App.
Local Open Scope nat_scope.

Lemma same_key_refl (a : Transaction) : same_key a a = true.
Proof.
  unfold same_key. rewrite Z.eqb_refl, String.eqb_refl. simpl.
  apply Qeq_bool_iff. reflexivity.
Qed.

Lemma same_key_sym (a b : Transaction) : same_key a b = same_key b a.
Proof.
  unfold same_key. rewrite Z.eqb_sym, String.eqb_sym. f_equal.
  destruct (Qeq_bool (amount a) (amount b)) eqn:E1;
    destruct (Qeq_bool (amount b) (amount a)) eqn:E2; try reflexivity.
  - apply Qeq_bool_iff in E1. symmetry in E1. apply Qeq_bool_iff in E1. congruence.
  - apply Qeq_bool_iff in E2. symmetry in E2. apply Qeq_bool_iff in E2. congruence.
Qed.

Lemma same_key_trans (a b c : Transaction) :
  same_key a b = true -> same_key b c = true -> same_key a c = true.
Proof.
  unfold same_key. intros H1 H2.
  apply andb_true_iff in H1. destruct H1 as [H1 Q1].
  apply andb_true_iff in H1. destruct H1 as [D1 S1].
  apply andb_true_iff in H2. destruct H2 as [H2 Q2].
  apply andb_true_iff in H2. destruct H2 as [D2 S2].
  apply Z.eqb_eq in D1, D2. apply String.eqb_eq in S1, S2.
  apply Qeq_bool_iff in Q1, Q2.
  rewrite D1, D2, S1, S2, Z.eqb_refl, String.eqb_refl. simpl.
  apply Qeq_bool_iff. rewrite Q1. exact Q2.
Qed.

(** Rows with the same key are seen in the same lists. *)
Lemma key_seen_same (l : list Transaction) (t u : Transaction) :
  same_key t u = true -> key_seen l t = key_seen l u.
Proof.
  intro H. unfold key_seen. induction l as [|x l IH]; simpl; [reflexivity|].
  rewrite IH. f_equal.
  destruct (same_key t x) eqn:E1; destruct (same_key u x) eqn:E2; try reflexivity.
  - rewrite same_key_sym in H.
    rewrite (same_key_trans u t x H E1) in E2. discriminate.
  - rewrite (same_key_trans t u x H E2) in E1. discriminate.
Qed.

Lemma key_seen_app (a b : list Transaction) (t : Transaction) :
  key_seen (a ++ b) t = (key_seen a t || key_seen b t)%bool.
Proof. unfold key_seen. apply existsb_app. Qed.

Lemma key_seen_cons (x : Transaction) (l : list Transaction)
    (t : Transaction) :
  key_seen (x :: l) t = (same_key t x || key_seen l t)%bool.
Proof. reflexivity. Qed.

Lemma key_seen_snoc (l : list Transaction) (x t : Transaction) :
  key_seen (l ++ [x]) t = (key_seen l t || same_key t x)%bool.
Proof.
  rewrite key_seen_app, key_seen_cons. unfold key_seen. simpl.
  rewrite orb_false_r. reflexivity.
Qed.

Lemma key_seen_in (l : list Transaction) (t : Transaction) :
  In t l -> key_seen l t = true.
Proof.
  intro H. unfold key_seen. apply existsb_exists.
  exists t. split; [assumption|apply same_key_refl].
Qed.

Lemma key_seen_perm (l l' : list Transaction) (t : Transaction) :
  Permutation l l' -> key_seen l t = key_seen l' t.
Proof.
  unfold key_seen. induction 1; simpl.
  - reflexivity.
  - rewrite IHPermutation. reflexivity.
  - destruct (same_key t x), (same_key t y); reflexivity.
  - congruence.
Qed.

Lemma distinct_keys_perm (l l' : list Transaction) :
  Permutation l l' -> distinct_keys l -> distinct_keys l'.
Proof.
  induction 1; simpl.
  - trivial.
  - intros [H1 H2]. split; [|apply IHPermutation; assumption].
    rewrite <- (key_seen_perm l l' x H). assumption.
  - intros [H1 [H2 H3]]. unfold key_seen in *. simpl in *.
    apply orb_false_iff in H1. destruct H1 as [H1 H1'].
    rewrite same_key_sym in H1.
    repeat split; try assumption.
    apply orb_false_iff. split; assumption.
  - intro. apply IHPermutation2, IHPermutation1. assumption.
Qed.

(** *** [concat] and [sort_values] *)

Lemma rows_combine_seq (l : list Transaction) (n : nat) :
  map snd (combine (seq n (List.length l)) l) = l.
Proof.
  revert n. induction l as [|t l IH]; intro n; simpl; [reflexivity|].
  rewrite IH. reflexivity.
Qed.

Lemma rows_concat (a b : DataFrame) : rows (concat a b) = rows a ++ rows b.
Proof.
  unfold concat, rows. rewrite rows_combine_seq. apply map_app.
Qed.

Lemma insert_by_date_perm (r : nat * Transaction) (l : DataFrame) :
  Permutation (insert_by_date r l) (r :: l).
Proof.
  induction l as [|x l IH]; simpl; [reflexivity|].
  destruct (Z.leb (date (snd x)) (date (snd r))); [reflexivity|].
  rewrite IH. apply perm_swap.
Qed.

Lemma sort_values_perm (df : DataFrame) :
  Permutation (sort_values_date_desc df) df.
Proof.
  induction df as [|r df IH]; simpl; [reflexivity|].
  rewrite insert_by_date_perm. constructor. assumption.
Qed.

Lemma sort_values_length (df : DataFrame) :
  List.length (sort_values_date_desc df) = List.length df.
Proof. apply Permutation_length, sort_values_perm. Qed.

Lemma insert_by_date_sorted (r : nat * Transaction) (l : DataFrame) :
  Sorted later_first (rows l) ->
  Sorted later_first (rows (insert_by_date r l)).
Proof.
  unfold rows. induction l as [|x l IH]; simpl; intro Hs.
  - repeat constructor.
  - destruct (Z.leb (date (snd x)) (date (snd r))) eqn:E; simpl.
    + constructor; [assumption|]. constructor. apply Z.leb_le. assumption.
    + apply Z.leb_gt in E. inversion Hs as [|? ? Hs' Hhd]; subst.
      constructor; [apply IH; assumption|].
      destruct l as [|y l]; simpl.
      * constructor. unfold later_first. lia.
      * destruct (Z.leb (date (snd y)) (date (snd r))); simpl.
        -- constructor. unfold later_first. lia.
        -- inversion Hhd; subst. constructor. assumption.
Qed.

Lemma sort_values_sorted (df : DataFrame) :
  date_descending (rows (sort_values_date_desc df)).
Proof.
  unfold date_descending. apply Sorted_StronglySorted.
  - intros a b c Hab Hbc. unfold later_first in *. lia.
  - induction df as [|r df IH]; simpl; [constructor|].
    apply insert_by_date_sorted. assumption.
Qed.

(** *** [drop_duplicates] keeps the first occurrence of every key *)

Lemma drop_duplicates_from_firsts (df : DataFrame) :
  forall seen earlier,
    (forall t, key_seen seen t = key_seen earlier t) ->
    rows (drop_duplicates_from seen df) = firsts_from earlier (rows df).
Proof.
  unfold rows. induction df as [|r df IH]; intros seen earlier Heq; simpl.
  - reflexivity.
  - rewrite <- Heq. destruct (key_seen seen (snd r)) eqn:E.
    + apply IH. intro t. rewrite key_seen_snoc, <- Heq.
      destruct (same_key t (snd r)) eqn:Ek.
      * rewrite (key_seen_same seen t (snd r) Ek), E. reflexivity.
      * rewrite orb_false_r. reflexivity.
    + simpl. f_equal. apply IH. intro t.
      rewrite key_seen_snoc, key_seen_cons, <- Heq. apply orb_comm.
Qed.

Lemma rows_drop_duplicates (df : DataFrame) :
  rows (drop_duplicates df) = firsts (rows df).
Proof.
  apply drop_duplicates_from_firsts. reflexivity.
Qed.

Lemma firsts_from_app (a b earlier : list Transaction) :
  firsts_from earlier (a ++ b)
  = firsts_from earlier a ++ firsts_from (earlier ++ a) b.
Proof.
  revert earlier. induction a as [|t a IH]; intro earlier; simpl.
  - rewrite app_nil_r. reflexivity.
  - rewrite IH, <- app_assoc. simpl.
    destruct (key_seen earlier t); reflexivity.
Qed.

(** The occurrence kept for a key is the first one: a row is in the result
    exactly when it stands at a place where no earlier row has its key. *)
Lemma firsts_from_spec (l earlier : list Transaction) (t : Transaction) :
  In t (firsts_from earlier l) <->
  exists pre post, l = pre ++ t :: post /\ key_seen (earlier ++ pre) t = false.
Proof.
  revert earlier. induction l as [|x l IH]; intro earlier; simpl.
  - split; [contradiction|]. intros (pre & post & H & _).
    destruct pre; discriminate.
  - assert (Hrec : In t (firsts_from (earlier ++ [x]) l) <->
                   exists pre post, x :: l = (x :: pre) ++ t :: post /\
                                    key_seen (earlier ++ x :: pre) t = false).
    { rewrite IH. split; intros (pre & post & H1 & H2); exists pre, post.
      - rewrite <- app_assoc in H2. simpl in *. split; congruence.
      - rewrite <- app_assoc. simpl in *. split; congruence. }
    split.
    + intro H.
      assert (Hcase : (key_seen earlier x = false /\ x = t)
                      \/ In t (firsts_from (earlier ++ [x]) l)).
      { destruct (key_seen earlier x); [right; assumption|].
        destruct H as [H|H]; [left; split; [reflexivity|assumption]|right; assumption]. }
      destruct Hcase as [[Hk ->]|Hin].
      * exists [], l. rewrite app_nil_r. split; [reflexivity|assumption].
      * apply Hrec in Hin. destruct Hin as (pre & post & H1 & H2).
        exists (x :: pre), post. split; assumption.
    + intros (pre & post & H1 & H2). destruct pre as [|y pre]; simpl in H1.
      * inversion H1; subst. rewrite app_nil_r in H2. rewrite H2. left. reflexivity.
      * inversion H1; subst.
        assert (Hin : In t (firsts_from (earlier ++ [y]) (pre ++ t :: post))).
        { apply Hrec. exists pre, post. split; [reflexivity|assumption]. }
        destruct (key_seen earlier y); [assumption|right; assumption].
Qed.

Lemma firsts_from_distinct (l earlier : list Transaction) :
  distinct_keys l ->
  (forall t, In t l -> key_seen earlier t = false) ->
  firsts_from earlier l = l.
Proof.
  revert earlier. induction l as [|x l IH]; intros earlier Hd Hb; simpl.
  - reflexivity.
  - destruct Hd as [Hx Hd].
    rewrite (Hb x (or_introl eq_refl)). f_equal.
    apply IH; [assumption|].
    intros t Ht. rewrite key_seen_snoc, (Hb t (or_intror Ht)). simpl.
    destruct (same_key t x) eqn:E; [|reflexivity].
    rewrite same_key_sym in E.
    assert (key_seen l x = true)
      by (apply existsb_exists; exists t; split; assumption).
    congruence.
Qed.

Lemma firsts_from_all_seen (l earlier : list Transaction) :
  (forall t, In t l -> key_seen earlier t = true) ->
  firsts_from earlier l = [].
Proof.
  revert earlier. induction l as [|x l IH]; intros earlier Hb; simpl.
  - reflexivity.
  - rewrite (Hb x (or_introl eq_refl)). apply IH.
    intros t Ht. rewrite key_seen_app, (Hb t (or_intror Ht)). reflexivity.
Qed.

(** No key occurs twice in what is kept, and none that was seen earlier. *)
Lemma firsts_from_distinct_keys (l earlier : list Transaction) :
  distinct_keys (firsts_from earlier l) /\
  (forall t, key_seen earlier t = true ->
             key_seen (firsts_from earlier l) t = false).
Proof.
  revert earlier. induction l as [|x l IH]; intro earlier; simpl.
  - split; [exact I|reflexivity].
  - destruct (IH (earlier ++ [x])) as [Hd Hs].
    assert (Hx : key_seen (firsts_from (earlier ++ [x]) l) x = false).
    { apply Hs. rewrite key_seen_snoc, same_key_refl. apply orb_true_r. }
    destruct (key_seen earlier x) eqn:E.
    + split; [assumption|]. intros t Ht. apply Hs.
      rewrite key_seen_app, Ht. reflexivity.
    + split.
      * simpl. split; assumption.
      * intros t Ht. rewrite key_seen_cons.
        rewrite Hs by (rewrite key_seen_app, Ht; reflexivity).
        rewrite orb_false_r.
        destruct (same_key t x) eqn:Ek; [|reflexivity].
        rewrite (key_seen_same earlier t x Ek) in Ht. congruence.
Qed.

(** Every key of the input is still there. *)
Lemma firsts_from_covers (l earlier : list Transaction) (t : Transaction) :
  In t l -> key_seen (earlier ++ firsts_from earlier l) t = true.
Proof.
  revert earlier. induction l as [|x l IH]; intros earlier Hin; simpl.
  - contradiction.
  - destruct Hin as [->|Hin].
    + destruct (key_seen earlier t) eqn:E.
      * rewrite key_seen_app, E. reflexivity.
      * rewrite key_seen_app, key_seen_cons, same_key_refl. apply orb_true_r.
    + specialize (IH (earlier ++ [x]) Hin).
      rewrite <- app_assoc in IH. simpl in IH.
      rewrite key_seen_app, key_seen_cons in IH.
      destruct (key_seen earlier x) eqn:E.
      * rewrite key_seen_app.
        destruct (same_key t x) eqn:Ek; [|assumption].
        rewrite (key_seen_same earlier t x Ek), E. reflexivity.
      * rewrite key_seen_app, key_seen_cons. assumption.
Qed.

Lemma rows_length (df : DataFrame) : List.length (rows df) = List.length df.
Proof. apply length_map. Qed.

Lemma rows_sort_perm (df : DataFrame) :
  Permutation (rows (sort_values_date_desc df)) (rows df).
Proof. apply Permutation_map, sort_values_perm. Qed.

(** The merge into a ledger that has rows. *)
Lemma rows_merge_cons (r : nat * Transaction) (current new : DataFrame) :
  Permutation (rows (merge (r :: current) new))
              (firsts (rows (r :: current) ++ rows new)).
Proof.
  unfold merge. rewrite rows_sort_perm, rows_drop_duplicates, rows_concat.
  reflexivity.
Qed.

(** A batch whose keys are all in a ledger without duplicates adds
    nothing to it. *)
Lemma firsts_absorb (a b : list Transaction) :
  distinct_keys a ->
  (forall t, In t b -> key_seen a t = true) ->
  firsts (a ++ b) = a.
Proof.
  intros Hd Hb. unfold firsts. rewrite firsts_from_app.
  rewrite (firsts_from_distinct a [] Hd) by reflexivity.
  rewrite (firsts_from_all_seen b ([] ++ a) Hb). apply app_nil_r.
Qed.

Lemma merge_absorb (r : nat * Transaction) (ledger batch : DataFrame) :
  distinct_keys (rows (r :: ledger)) ->
  (forall t, In t (rows batch) -> key_seen (rows (r :: ledger)) t = true) ->
  List.length (merge (r :: ledger) batch) = List.length (r :: ledger).
Proof.
  intros Hd Hb.
  rewrite <- (rows_length (merge (r :: ledger) batch)).
  rewrite (Permutation_length (rows_merge_cons r ledger batch)).
  rewrite (firsts_absorb (rows (r :: ledger)) (rows batch) Hd Hb).
  apply rows_length.
Qed.

(** C6.  For every batch whose rows have pairwise distinct
    (date, description, amount) triples, importing it twice into an empty
    ledger gives a ledger with as many rows as the batch, the same number
    as after the first import. *)
Theorem import_twice_same_count (batch : DataFrame)
    (Hdistinct : distinct_keys (rows batch)) :
  let once := merge [] batch in
  let twice := merge once batch in
  List.length twice = List.length batch /\
  List.length twice = List.length once.
Proof.
  intros once twice.
  assert (Honce : List.length once = List.length batch)
    by apply sort_values_length.
  assert (Hperm : Permutation (rows once) (rows batch))
    by apply rows_sort_perm.
  cut (List.length twice = List.length batch);
    [intro Htw; split; congruence|].
  subst twice. destruct once as [|r once'] eqn:E.
  - simpl in *. rewrite sort_values_length. reflexivity.
  - rewrite <- Honce. apply merge_absorb.
    + apply (distinct_keys_perm (rows batch) (rows (r :: once')));
        [symmetry; exact Hperm|exact Hdistinct].
    + intros t Ht. apply key_seen_in.
      apply (Permutation_in t (Permutation_sym Hperm)). exact Ht.
Qed.

Lemma ten_rows_distinct : distinct_keys (rows ten_rows).
Proof. vm_compute. repeat split. Qed.

Lemma import_twice_same_count_witness :
  List.length (merge (merge [] ten_rows) ten_rows) = 10 /\
  List.length (merge (merge [] ten_rows) ten_rows)
  = List.length (merge [] ten_rows).
Proof.
  exact (import_twice_same_count ten_rows ten_rows_distinct).
Defined.

(** X20.  Merging a batch a second time never changes the count when the ledger
    had rows to begin with, whatever the batch. *)
Lemma merge_twice_nonempty_ledger (r : nat * Transaction)
    (current batch : DataFrame) :
  let once := merge (r :: current) batch in
  List.length (merge once batch) = List.length once.
Proof.
  intro once.
  pose proof (rows_merge_cons r current batch) as Hperm. fold once in Hperm.
  set (all := rows (r :: current) ++ rows batch) in *.
  destruct (firsts_from_distinct_keys all []) as [Hd _]. fold (firsts all) in Hd.
  assert (Hcov : forall t, In t (rows batch) -> key_seen (rows once) t = true).
  { intros t Ht. rewrite (key_seen_perm _ _ t Hperm).
    apply (firsts_from_covers all [] t). unfold all. apply in_or_app. right. assumption. }
  destruct once as [|x once'] eqn:E.
  - apply Permutation_length in Hperm. discriminate.
  - apply merge_absorb; [|exact Hcov].
    apply (distinct_keys_perm (firsts all) (rows (x :: once')));
      [symmetry; exact Hperm|exact Hd].
Qed.

(** C7 as stated fails: when the ledger is empty the batch is taken as it
    is, so a row that occurs twice in it occurs twice in the result. *)
Lemma merge_into_empty_keeps_duplicates :
  ~ (forall current new,
       let m := rows (merge current new) in
       date_descending m /\
       Permutation m (firsts (rows current ++ rows new))).
Proof.
  intro H. destruct (H [] [(0, coffee); (1, coffee)]) as [_ Hp].
  apply Permutation_length in Hp. vm_compute in Hp. discriminate.
Qed.

(** C7, amended.  For every ledger and every new batch the result of the
    merge is sorted by date, latest first.  When the ledger has rows, the
    result holds the rows of the ledger followed by the rows of the batch,
    without every row whose (date, description, amount) triple is that of
    an earlier row: the rows kept of the ledger come first, then the rows
    of the batch whose triple was not seen.  When the ledger is empty,
    the result holds all the rows of the batch, duplicates included. *)
Theorem merge_spec (current new : DataFrame) :
  let m := rows (merge current new) in
  date_descending m /\
  Permutation m
    (match current with
     | [] => rows new
     | _ :: _ => firsts (rows current ++ rows new)
     end) /\
  firsts (rows current ++ rows new)
  = firsts (rows current) ++ firsts_from (rows current) (rows new).
Proof.
  intro m. split; [apply sort_values_sorted|]. split.
  - destruct current as [|r current].
    + apply rows_sort_perm.
    + apply rows_merge_cons.
  - unfold firsts. apply firsts_from_app.
Qed.

(** What [firsts] keeps: the rows that stand where no earlier row has
    their triple, and no triple twice. *)
Lemma firsts_spec (l : list Transaction) (t : Transaction) :
  In t (firsts l) <->
  exists pre post, l = pre ++ t :: post /\ key_seen pre t = false.
Proof. apply (firsts_from_spec l [] t). Qed.

Lemma firsts_distinct (l : list Transaction) : distinct_keys (firsts l).
Proof. apply firsts_from_distinct_keys. Qed.

End AppFacts.

(** ** [categorize_transactions] *)

Module DataProcessorFacts.

Import PyStr VendorDatabase Frame DataProcessor.
Local Open Scope nat_scope.
Local Open Scope string_scope.
Local Open Scope list_scope.

(** *** Writes keep the data of a row *)

Lemma same_data_refl (t : Transaction) : same_data t t.
Proof. unfold same_data. repeat split. Qed.

Lemma same_data_trans (a b c : Transaction) :
  same_data a b -> same_data b c -> same_data a c.
Proof.
  unfold same_data. intros (H1 & H2 & H3 & H4 & H5 & H6) (K1 & K2 & K3 & K4 & K5 & K6).
  repeat split; congruence.
Qed.

Lemma same_data_set_category (c : string) (t : Transaction) :
  same_data t (set_category c t).
Proof. unfold same_data. repeat split. Qed.

Lemma same_data_set_subcategory (s : string) (t : Transaction) :
  same_data t (set_subcategory s t).
Proof. unfold same_data. repeat split. Qed.

Lemma same_data_initial_marks (t : Transaction) :
  same_data t (initial_marks t).
Proof.
  unfold initial_marks. case_ifs; unfold same_data; repeat split.
Qed.

(** *** The initial marks *)

Lemma initial_marks_income (t : Transaction) :
  category (initial_marks t) = "Income" -> incorrect_income t = true.
Proof.
  unfold initial_marks.
  destruct (incorrect_income t); [reflexivity|].
  case_ifs; simpl; discriminate.
Qed.

Lemma initial_marks_uncategorized (t : Transaction) :
  category (initial_marks t) = "Uncategorized" ->
  (amount t <= 0)%Q ->
  subcategory (initial_marks t) = "Other".
Proof.
  unfold initial_marks. intros Hc Ha.
  assert (He : incorrect_expense t = false).
  { unfold incorrect_expense. apply andb_false_iff. left.
    apply Qlt_bool_false. exact Ha. }
  rewrite He in *.
  destruct (incorrect_income t && negb (payward_transactions t))%bool;
    destruct (payward_transactions t);
    destruct (internal_transfer_mask t); simpl in *;
    try discriminate; reflexivity.
Qed.

(** *** The keyword scores *)

Lemma score_fold_key (categories : Categories) (desc : string)
    (l : list (string * list string)) :
  forall acc c,
    fst (fold_left (score_step categories desc) l acc) = Some c ->
    fst acc = Some c \/ In c (map fst l).
Proof.
  induction l as [|e l IH]; intros acc c; simpl.
  - intro H. left. exact H.
  - intro H. apply IH in H. destruct H as [H|H]; [|right; right; exact H].
    unfold score_step in H.
    destruct (negb (has_key (fst e) categories)); [left; exact H|].
    destruct (Nat.ltb (snd acc) (keyword_score (snd e) desc)).
    + simpl in H. inversion H. right. left. reflexivity.
    + left. exact H.
Qed.

Lemma best_category_key (categories : Categories) (desc : string)
    (c : string) (n : nat) :
  best_category categories desc = (Some c, n) ->
  In c (map fst category_keywords).
Proof.
  unfold best_category. intro H.
  assert (H' : fst (fold_left (score_step categories desc) category_keywords
                              (None, 0)) = Some c)
    by (rewrite H; reflexivity).
  apply score_fold_key in H'. destruct H' as [K|K].
  - simpl in K. discriminate.
  - exact K.
Qed.

Lemma scored_not_income :
  ~ In "Income" (map fst category_keywords).
Proof. simpl. intuition discriminate. Qed.

Lemma scored_not_uncategorized :
  ~ In "Uncategorized" (map fst category_keywords).
Proof. simpl. intuition discriminate. Qed.

(** *** Updates of a frame, against a relation with another list *)

Section Updates.

Variable X : Type.
Variable R : X -> nat * Transaction -> Prop.

Lemma Forall2_map_right (g : nat * Transaction -> nat * Transaction)
    (l : list X) (cur : DataFrame) :
  (forall a b, R a b -> R a (g b)) ->
  Forall2 R l cur -> Forall2 R l (map g cur).
Proof.
  intro Hg. induction 1; simpl; constructor; auto.
Qed.

Lemma Forall2_loc_update (idx : nat) (f : Transaction -> Transaction)
    (l : list X) (cur : DataFrame) :
  (forall a b, R a b -> fst b = idx -> R a (fst b, f (snd b))) ->
  Forall2 R l cur -> Forall2 R l (loc_update idx f cur).
Proof.
  intro Hf. unfold loc_update. apply Forall2_map_right.
  intros a b Hab. destruct (Nat.eqb (fst b) idx) eqn:E; [|exact Hab].
  apply Nat.eqb_eq in E. apply Hf; assumption.
Qed.

Lemma Forall2_iloc_update (pos : nat) (f : Transaction -> Transaction)
    (l : list X) (cur out : DataFrame) :
  (forall a b, R a b -> R a (fst b, f (snd b))) ->
  Forall2 R l cur -> iloc_update pos f cur = Some out -> Forall2 R l out.
Proof.
  intros Hf H. revert pos out.
  induction H as [|a b l cur Hab Hl IH]; intros pos out; simpl.
  - discriminate.
  - destruct pos as [|p].
    + intro E. inversion E; subst. constructor; [apply Hf; exact Hab|exact Hl].
    + destruct (iloc_update p f cur) as [out'|] eqn:E'; simpl; [|discriminate].
      intro E. inversion E; subst. constructor; [exact Hab|].
      apply (IH p out' E').
Qed.

End Updates.

Lemma iloc_update_twice (pos : nat) (f g : Transaction -> Transaction)
    (cur mid : DataFrame) :
  iloc_update pos f cur = Some mid ->
  iloc_update pos g mid = iloc_update pos (fun t => g (f t)) cur.
Proof.
  revert pos mid. induction cur as [|r cur IH]; intros pos mid; simpl.
  - discriminate.
  - destruct pos as [|p].
    + intro E. inversion E; subst. reflexivity.
    + destruct (iloc_update p f cur) as [mid'|] eqn:E'; simpl; [|discriminate].
      intro E. inversion E; subst. simpl.
      rewrite (IH p mid' E'). reflexivity.
Qed.

(** What the keyword fallback does to the frame: nothing, or one write at
    position [idx] that sets a scored category. *)
Lemma keyword_fallback_shape (categories : Categories) (idx : nat)
    (desc : string) (cur out : DataFrame) :
  keyword_fallback categories idx desc cur = Some out ->
  out = cur \/
  exists best F,
    In best (map fst category_keywords) /\
    iloc_update idx F cur = Some out /\
    forall t, category (F t) = best /\ same_data t (F t).
Proof.
  unfold keyword_fallback.
  destruct (best_category categories desc) as [[best|] [|n]] eqn:E;
    try (intro H; inversion H; left; reflexivity).
  apply best_category_key in E.
  destruct (is_empty best); [intro H; inversion H; left; reflexivity|].
  destruct (iloc_update idx (set_category best) cur) as [cur1|] eqn:E1;
    [|discriminate].
  assert (Hcat : forall t, category (set_category best t) = best
                           /\ same_data t (set_category best t)).
  { intro t. split; [reflexivity|apply same_data_set_category]. }
  assert (Hsub : forall s out',
             iloc_update idx (set_subcategory s) cur1 = Some out' ->
             exists best0 F,
               In best0 (map fst category_keywords) /\
               iloc_update idx F cur = Some out' /\
               forall t, category (F t) = best0 /\ same_data t (F t)).
  { intros s out' Hs. rewrite (iloc_update_twice _ _ _ _ _ E1) in Hs.
    exists best, (fun t => set_subcategory s (set_category best t)).
    split; [exact E|]. split; [exact Hs|].
    intro t. split; [reflexivity|unfold same_data; repeat split]. }
  assert (Hnone : Some cur1 = Some out ->
             exists best0 F,
               In best0 (map fst category_keywords) /\
               iloc_update idx F cur = Some out /\
               forall t, category (F t) = best0 /\ same_data t (F t)).
  { intro H. inversion H; subst.
    exists best, (set_category best).
    split; [exact E|]. split; [exact E1|exact Hcat]. }
  intro H. right.
  destruct (best_subcategory (get_or_nil best categories) desc None 0) as [b|].
  - destruct (negb (is_empty b)); [apply (Hsub _ _ H)|].
    destruct (get_or_nil best categories) as [|s0 rest];
      [apply Hnone; exact H|apply (Hsub _ _ H)].
  - destruct (get_or_nil best categories) as [|s0 rest];
      [apply Hnone; exact H|apply (Hsub _ _ H)].
Qed.

(** *** The loop keeps every row traceable *)

Lemma classify_row_provenance (cols : Columns) (categories : Categories)
    (df : DataFrame) (idx : nat) (row : Transaction) (cur out : DataFrame) :
  (exists t0, In (idx, t0) df /\ row = initial_marks t0) ->
  Forall2 (provenance cols df) df cur ->
  classify_row cols categories df idx row cur = Some out ->
  Forall2 (provenance cols df) df out.
Proof.
  intros (t0 & Hin & Hrow) Hcur.
  assert (Hd : description row = description t0)
    by (rewrite Hrow; symmetry; apply (same_data_initial_marks t0)).
  assert (Ha : amount row = amount t0)
    by (rewrite Hrow; symmetry; apply (same_data_initial_marks t0)).
  unfold classify_row.
  destruct (negb (String.eqb (category row) "Uncategorized")).
  { intro H. inversion H; subst. exact Hcur. }
  destruct (subcategory_hint cols df idx row) as [hint|] eqn:Eh;
    [|discriminate].
  destruct (match_vendor (description row) hint (amount row))
    as [[c s]|] eqn:Ev.
  - intro H. inversion H; subst out. clear H.
    apply Forall2_loc_update; [|exact Hcur].
    intros a b (Hfst & Hdata & _) Hidx. unfold provenance. simpl.
    split; [exact Hfst|]. split.
    + unfold same_data in *. simpl. exact Hdata.
    + right. left. exists t0, hint. split; [|split].
      * rewrite <- Hfst, Hidx. exact Hin.
      * rewrite <- Hfst, Hidx, <- Hrow. exact Eh.
      * rewrite <- Hd, <- Ha. exact Ev.
  - intro H. apply keyword_fallback_shape in H.
    destruct H as [->|(best & F & Hbest & Hupd & HF)]; [exact Hcur|].
    apply (Forall2_iloc_update _ (provenance cols df) idx F df cur out);
      [|exact Hcur|exact Hupd].
    intros a b (Hfst & Hdata & _). unfold provenance. simpl.
    destruct (HF (snd b)) as [Hc Hs].
    split; [exact Hfst|]. split.
    + apply (same_data_trans _ _ _ Hdata Hs).
    + right. right. rewrite Hc. exact Hbest.
Qed.

Lemma classify_loop_provenance (cols : Columns) (categories : Categories)
    (df : DataFrame) (rows : DataFrame) :
  forall cur out,
    (forall idx row, In (idx, row) rows ->
       exists t0, In (idx, t0) df /\ row = initial_marks t0) ->
    Forall2 (provenance cols df) df cur ->
    classify_loop cols categories df rows cur = Some out ->
    Forall2 (provenance cols df) df out.
Proof.
  induction rows as [|[idx row] rows IH]; intros cur out Hrows Hcur; simpl.
  - intro H. inversion H; subst. exact Hcur.
  - destruct (classify_row cols categories df idx row cur) as [cur'|] eqn:E;
      [|discriminate].
    apply IH.
    + intros i r Hin. apply Hrows. right. exact Hin.
    + apply (classify_row_provenance cols categories df idx row cur cur');
        [apply Hrows; left; reflexivity|exact Hcur|exact E].
Qed.

Lemma initial_frame_provenance (cols : Columns) (df df0 : DataFrame) :
  Forall2 (provenance cols df) df0
          (map (fun r => (fst r, initial_marks (snd r))) df0).
Proof.
  induction df0 as [|r df0 IH]; simpl; constructor; [|exact IH].
  unfold provenance. simpl. split; [reflexivity|].
  split; [apply same_data_initial_marks|].
  left. split; reflexivity.
Qed.

(** Every row of the frame after the loop stands for the input row at its
    place and is traceable. *)
Lemma classify_stages_provenance (cols : Columns) (categories : Categories)
    (df mid : DataFrame) :
  classify_stages cols categories df = Some mid ->
  Forall2 (provenance cols df) df mid.
Proof.
  unfold classify_stages.
  apply classify_loop_provenance; [|apply initial_frame_provenance].
  intros idx row Hin. apply in_map_iff in Hin.
  destruct Hin as ([i t0] & Heq & Hin). simpl in Heq. inversion Heq; subst.
  exists t0. split; [exact Hin|reflexivity].
Qed.

Lemma categorize_is_final_pass (cols : Columns) (categories : Categories)
    (df mid : DataFrame) :
  classify_stages cols categories df = Some mid ->
  categorize_transactions cols df categories = Some (final_pass mid).
Proof.
  intro H. unfold categorize_transactions.
  destruct df as [|r df]; [|rewrite H; reflexivity].
  unfold classify_stages in H. simpl in H. inversion H. reflexivity.
Qed.

Lemma categorize_inv (cols : Columns) (categories : Categories)
    (df out : DataFrame) :
  categorize_transactions cols df categories = Some out ->
  exists mid, classify_stages cols categories df = Some mid
              /\ out = final_pass mid.
Proof.
  unfold categorize_transactions. destruct df as [|r df].
  - intro H. inversion H. exists []. split; reflexivity.
  - destruct (classify_stages cols categories (r :: df)) as [mid|];
      [|discriminate].
    intro H. inversion H. exists mid. split; reflexivity.
Qed.

Lemma final_pass_income (cols : Columns) (df df0 mid0 : DataFrame) :
  Forall2 (provenance cols df) df0 mid0 ->
  Forall2
    (fun e0 e =>
       fst e = fst e0 /\ same_data (snd e0) (snd e) /\
       (category (snd e) = "Income" ->
        (0 < amount (snd e))%Q
        \/ incorrect_income (snd e0) = true
        \/ exists s, vendor_says cols df (fst e0) "Income" s))
    df0 (final_pass mid0).
Proof.
  unfold final_pass, mask_update.
  induction 1 as [|e0 e df1 mid1 He Hrest IH]; simpl; constructor;
    [|exact IH].
  destruct He as (Hfst & Hdata & Hprov).
  destruct (remaining_uncategorized (snd e)) eqn:Er; simpl.
  - split; [exact Hfst|]. split; [exact Hdata|].
    intros _. left. unfold remaining_uncategorized in Er.
    apply andb_true_iff in Er. destruct Er as [_ Er].
    apply Qlt_bool_iff. exact Er.
  - split; [exact Hfst|]. split; [exact Hdata|].
    intro Hinc. right.
    destruct Hprov as [[Hc _]|[Hv|Hk]].
    + left. apply initial_marks_income. congruence.
    + right. exists (subcategory (snd e)). rewrite <- Hinc. exact Hv.
    + exfalso. apply scored_not_income. rewrite <- Hinc. exact Hk.
Qed.

Lemma final_pass_default (cols : Columns) (df df0 mid0 : DataFrame) :
  Forall2 (provenance cols df) df0 mid0 ->
  Forall2
    (fun e e' =>
       fst e' = fst e /\ same_data (snd e) (snd e') /\
       (category (snd e) = "Uncategorized" ->
        ((0 < amount (snd e))%Q ->
         category (snd e') = "Income" /\
         subcategory (snd e') = "Other Income") /\
        ((amount (snd e) <= 0)%Q ->
         category (snd e') = "Uncategorized" /\
         subcategory (snd e') = "Other")))
    mid0 (final_pass mid0).
Proof.
  unfold final_pass, mask_update.
  induction 1 as [|e0 e df1 mid1 He Hrest IH]; simpl; constructor;
    [|exact IH].
  destruct He as (Hfst & Hdata & Hprov).
  unfold remaining_uncategorized.
  split; [destruct (_ && _)%bool; reflexivity|].
  split; [destruct (_ && _)%bool; simpl;
          [unfold same_data; repeat split|apply same_data_refl]|].
  intro Hunc. rewrite Hunc. simpl. split.
  - intro Hpos. apply Qlt_bool_iff in Hpos. rewrite Hpos. simpl.
    split; reflexivity.
  - intro Hle. apply Qlt_bool_false in Hle. rewrite Hle. simpl.
    split; [exact Hunc|].
    apply Qlt_bool_false in Hle.
    destruct Hprov as [[Hc Hs]|[Hv|Hk]].
    + rewrite Hs. apply initial_marks_uncategorized; [congruence|].
      destruct Hdata as (_ & _ & Ha & _). rewrite Ha. exact Hle.
    + exfalso. destruct Hv as (t0 & hint & _ & _ & Hv).
      apply VendorFacts.match_vendor_named in Hv.
      apply Hv. simpl. exact Hunc.
    + exfalso. apply scored_not_uncategorized. rewrite <- Hunc. exact Hk.
Qed.

(** C2 as stated fails: a debit of 50 whose description is "salary" is
    marked Income by the sign correction before the loop (a negative
    amount with an income keyword), and nothing changes its amount. *)
Lemma negative_income_row :
  ~ (forall cols df categories out,
       categorize_transactions cols df categories = Some out ->
       forall i t, In (i, t) out -> category t = "Income" ->
                   (0 <= amount t)%Q).
Proof.
  intro H.
  specialize (H plain [(0, tx "salary" (-50))] default_categories
                [(0, set_subcategory "Other"
                       (set_category "Income" (tx "salary" (-50))))]).
  assert (Hrun : categorize_transactions plain [(0, tx "salary" (-50))]
                   default_categories
                 = Some [(0, set_subcategory "Other"
                               (set_category "Income" (tx "salary" (-50))))])
    by (vm_compute; reflexivity).
  specialize (H Hrun 0 _ (or_introl eq_refl) eq_refl).
  apply Qle_bool_iff in H. vm_compute in H. discriminate.
Qed.

(** C2, amended.  After [categorize_transactions] completes, every row
    stands for the input row at its place (same label, same date,
    description and amount), and a row whose category is "Income" has an
    amount greater than 0, unless the input row was marked by the sign
    correction (a negative amount whose lower-cased description contains
    an income keyword) or the vendor matcher returned Income for a row of
    its label. *)
Theorem income_rows (cols : Columns) (df : DataFrame)
    (categories : Categories) (out : DataFrame)
    (Hrun : categorize_transactions cols df categories = Some out) :
  Forall2
    (fun e0 e =>
       fst e = fst e0 /\ same_data (snd e0) (snd e) /\
       (category (snd e) = "Income" ->
        (0 < amount (snd e))%Q
        \/ incorrect_income (snd e0) = true
        \/ exists s, vendor_says cols df (fst e0) "Income" s))
    df out.
Proof.
  apply categorize_inv in Hrun. destruct Hrun as (mid & Hmid & ->).
  apply final_pass_income, classify_stages_provenance with (1 := Hmid).
Qed.

Lemma income_rows_witness :
  exists out,
    categorize_transactions plain sample_frame default_categories = Some out /\
    Forall2
      (fun e0 e =>
         fst e = fst e0 /\ same_data (snd e0) (snd e) /\
         (category (snd e) = "Income" ->
          (0 < amount (snd e))%Q
          \/ incorrect_income (snd e0) = true
          \/ exists s, vendor_says plain sample_frame (fst e0) "Income" s))
      sample_frame out.
Proof.
  eexists. split.
  - vm_compute. reflexivity.
  - apply (income_rows plain sample_frame default_categories).
    vm_compute. reflexivity.
Defined.

(** C4 as stated fails: a row of amount 0 that no stage matches stays
    Uncategorized/Other; the final pass tests [amount > 0]. *)
Lemma zero_amount_stays_uncategorized :
  ~ (forall cols df categories mid,
       classify_stages cols categories df = Some mid ->
       forall i t, In (i, t) mid ->
         category t = "Uncategorized" -> (0 <= amount t)%Q ->
         exists t', In (i, t') (final_pass mid) /\
                    category t' = "Income" /\
                    subcategory t' = "Other Income").
Proof.
  intro H.
  assert (Hrun : classify_stages plain default_categories [(0, tx "zzz" 0)]
                 = Some [(0, set_subcategory "Other"
                               (set_category "Uncategorized" (tx "zzz" 0)))])
    by (vm_compute; reflexivity).
  destruct (H _ _ _ _ Hrun 0 _ (or_introl eq_refl) eq_refl) as (t' & Hin & Hc & _).
  - vm_compute. discriminate.
  - vm_compute in Hin. destruct Hin as [Hin|[]].
    inversion Hin; subst. discriminate.
Qed.

(** C4, amended.  The result of [categorize_transactions] is the final
    pass over the frame the earlier stages leave, and for every row of
    that frame still "Uncategorized": an amount greater than 0 gets
    Income/Other Income; an amount of 0 or less keeps
    Uncategorized/Other.  The final pass changes nothing else of a row. *)
Theorem terminal_default (cols : Columns) (df : DataFrame)
    (categories : Categories) (mid : DataFrame)
    (Hmid : classify_stages cols categories df = Some mid) :
  categorize_transactions cols df categories = Some (final_pass mid) /\
  Forall2
    (fun e e' =>
       fst e' = fst e /\ same_data (snd e) (snd e') /\
       (category (snd e) = "Uncategorized" ->
        ((0 < amount (snd e))%Q ->
         category (snd e') = "Income" /\
         subcategory (snd e') = "Other Income") /\
        ((amount (snd e) <= 0)%Q ->
         category (snd e') = "Uncategorized" /\
         subcategory (snd e') = "Other")))
    mid (final_pass mid).
Proof.
  split; [apply categorize_is_final_pass; exact Hmid|].
  apply final_pass_default with (cols := cols) (df := df) (df0 := df).
  apply classify_stages_provenance with (1 := Hmid).
Qed.

Lemma terminal_default_witness :
  exists mid,
    classify_stages plain default_categories sample_frame = Some mid /\
    (categorize_transactions plain sample_frame default_categories
     = Some (final_pass mid) /\
     Forall2
       (fun e e' =>
          fst e' = fst e /\ same_data (snd e) (snd e') /\
          (category (snd e) = "Uncategorized" ->
           ((0 < amount (snd e))%Q ->
            category (snd e') = "Income" /\
            subcategory (snd e') = "Other Income") /\
           ((amount (snd e) <= 0)%Q ->
            category (snd e') = "Uncategorized" /\
            subcategory (snd e') = "Other")))
       mid (final_pass mid)).
Proof.
  eexists. split.
  - vm_compute. reflexivity.
  - apply (terminal_default plain sample_frame default_categories).
    vm_compute. reflexivity.
Defined.

(** On the sample frame: the row of amount 0 and the row of amount -5 stay
    Uncategorized/Other, the row of amount 5 becomes Income/Other Income. *)
Lemma sample_frame_categories :
  labels (categorize_transactions plain sample_frame default_categories)
  = Some [ ("Income", "Other"); ("Uncategorized", "Other");
           ("Income", "Other Income"); ("Uncategorized", "Other");
           ("Food", "Groceries") ].
Proof. vm_compute. reflexivity. Qed.

End DataProcessorFacts.

(** ** The import handler: merge, then categorization *)

Module ImportFacts.

Import Frame DataProcessor App AppFacts DataProcessorFacts.
Local Open Scope nat_scope.

Lemma same_data_same_key (a b : Transaction) :
  same_data a b -> same_key a b = true.
Proof.
  intros (Hd & Hs & Ha & _). unfold same_key.
  rewrite Hd, Hs, Ha, Z.eqb_refl, String.eqb_refl. simpl.
  apply Qeq_bool_iff. reflexivity.
Qed.

(** The categorization changes no key and no label. *)
Lemma categorize_same_rows (cols : Columns) (categories : Categories)
    (df out : DataFrame) :
  categorize_transactions cols df categories = Some out ->
  same_rows df out.
Proof.
  intro H. apply categorize_inv in H. destruct H as (mid & Hmid & ->).
  apply classify_stages_provenance in Hmid.
  pose proof (final_pass_income cols df df mid Hmid) as HF.
  unfold same_rows. clear Hmid.
  induction HF as [|x y l l' Hxy Hl IH]; constructor; [|exact IH].
  destruct Hxy as (_ & Hdata & _). apply same_data_same_key. exact Hdata.
Qed.

Lemma same_rows_length (a b : DataFrame) :
  same_rows a b -> List.length a = List.length b.
Proof. induction 1; simpl; congruence. Qed.

Lemma same_rows_key_seen (a b : DataFrame) (t : Transaction) :
  same_rows a b -> key_seen (rows a) t = key_seen (rows b) t.
Proof.
  induction 1 as [|x y a b Hxy Hab IH]; [reflexivity|].
  change (rows (x :: a)) with (snd x :: rows a).
  change (rows (y :: b)) with (snd y :: rows b).
  rewrite !key_seen_cons, IH. f_equal.
  destruct (same_key t (snd x)) eqn:E1; destruct (same_key t (snd y)) eqn:E2;
    try reflexivity.
  - rewrite (same_key_trans _ _ _ E1 Hxy) in E2. discriminate.
  - rewrite same_key_sym in Hxy.
    rewrite (same_key_trans _ _ _ E2 Hxy) in E1. discriminate.
Qed.

Lemma same_rows_distinct (a b : DataFrame) :
  same_rows a b -> distinct_keys (rows a) -> distinct_keys (rows b).
Proof.
  induction 1 as [|x y a b Hxy Hab IH]; [trivial|].
  change (rows (x :: a)) with (snd x :: rows a).
  change (rows (y :: b)) with (snd y :: rows b).
  intros [Hx Ha]. split; [|apply IH; exact Ha].
  rewrite <- (same_rows_key_seen a b (snd y) Hab).
  rewrite <- (key_seen_same (rows a) (snd x) (snd y) Hxy). exact Hx.
Qed.

Lemma same_rows_seen (a b : DataFrame) (t : Transaction) :
  same_rows a b -> In t (rows b) -> key_seen (rows a) t = true.
Proof.
  induction 1 as [|x y a b Hxy Hab IH]; [contradiction|].
  change (rows (x :: a)) with (snd x :: rows a).
  change (rows (y :: b)) with (snd y :: rows b).
  intros [<-|Hin]; rewrite key_seen_cons.
  - rewrite same_key_sym, Hxy. reflexivity.
  - rewrite (IH Hin). apply orb_true_r.
Qed.

(** X21.  The double import through the handler itself.  The second statement
    has the rows of the first (its [statement_id] is new, its keys are the
    same).  If both categorizations complete, the ledger has as many rows
    as the batch. *)
Lemma import_twice_through_handler (cols : Columns) (categories : Categories)
    (batch batch' once twice : DataFrame) :
  distinct_keys (rows batch) ->
  same_rows batch batch' ->
  import_statement cols categories [] batch = Some once ->
  import_statement cols categories once batch' = Some twice ->
  List.length twice = List.length batch.
Proof.
  unfold import_statement. intros Hd Hsame Honce Htwice.
  apply categorize_same_rows in Honce, Htwice.
  rewrite <- (same_rows_length _ _ Htwice).
  assert (Hlen : List.length once = List.length batch).
  { rewrite <- (same_rows_length _ _ Honce). apply sort_values_length. }
  assert (Hperm : Permutation (rows (merge [] batch)) (rows batch))
    by apply rows_sort_perm.
  destruct once as [|r once'].
  - destruct batch; [|discriminate]. inversion Hsame; subst. reflexivity.
  - rewrite <- Hlen. apply merge_absorb.
    + apply (same_rows_distinct _ _ Honce).
      apply (distinct_keys_perm (rows batch)); [symmetry; exact Hperm|exact Hd].
    + intros t Ht.
      rewrite <- (same_rows_key_seen _ _ t Honce).
      rewrite (key_seen_perm _ _ t Hperm).
      apply (same_rows_seen batch batch' t Hsame Ht).
Qed.

End ImportFacts.

(** ** Strings *)

Module StrFacts.

Import PyStr.
Local Open Scope nat_scope.
Local Open Scope string_scope.

Lemma append_nil_r (s : string) : s ++ EmptyString = s.
Proof. induction s; simpl; congruence. Qed.

Lemma append_assoc (a b c : string) : (a ++ b) ++ c = a ++ b ++ c.
Proof. induction a; simpl; congruence. Qed.

Lemma length_append (a b : string) :
  String.length (a ++ b) = String.length a + String.length b.
Proof. induction a; simpl; congruence. Qed.

Lemma spaceless_append (a b : string) :
  spaceless (a ++ b) = (spaceless a && spaceless b)%bool.
Proof.
  induction a as [|c a IH]; simpl; [reflexivity|].
  rewrite IH. apply andb_assoc.
Qed.

(** *** [split] gives words *)

Lemma split_from_words (s : string) :
  forall cur, spaceless cur = true -> Forall word (split_from cur s).
Proof.
  induction s as [|c s IH]; intros cur Hcur; simpl.
  - destruct cur; simpl; [constructor|].
    constructor; [|constructor]. split; [discriminate|exact Hcur].
  - destruct (is_space c) eqn:Ec.
    + destruct cur as [|d cur]; simpl.
      * apply IH. reflexivity.
      * constructor; [split; [discriminate|exact Hcur]|].
        apply IH. reflexivity.
    + apply IH. rewrite spaceless_append, Hcur. simpl. rewrite Ec. reflexivity.
Qed.

Lemma split_words (s : string) : Forall word (split s).
Proof. apply split_from_words. reflexivity. Qed.

Lemma split_from_nonempty (s : string) :
  forall cur, cur <> EmptyString \/ blank s = false -> split_from cur s <> [].
Proof.
  induction s as [|c s IH]; intros cur H; simpl.
  - destruct H as [H|H]; [|discriminate].
    destruct cur; [contradiction|discriminate].
  - destruct (is_space c) eqn:Ec.
    + destruct cur as [|d cur]; [|discriminate].
      apply IH. right. destruct H as [H|H]; [contradiction|].
      simpl in H. rewrite Ec in H. exact H.
    + apply IH. left. destruct cur; discriminate.
Qed.

(** *** The shape of [collapse] *)

Lemma tidy_word_append (w r : string) :
  spaceless w = true -> tidy (w ++ r) = tidy r.
Proof.
  induction w as [|c w IH]; simpl; [reflexivity|].
  intro H. apply andb_true_iff in H. destruct H as [Hc Hw].
  apply negb_true_iff in Hc. rewrite Hc. simpl. apply IH. exact Hw.
Qed.

Lemma starts_with_text_word (w r : string) :
  word w -> starts_with_text (w ++ r) = true.
Proof.
  intros [Hne Hs]. destruct w as [|c w]; [contradiction|].
  simpl in *. apply andb_true_iff in Hs. tauto.
Qed.

Lemma join_cons (w : string) (ws : list string) :
  join " " (w :: ws)
  = match ws with [] => w | _ :: _ => w ++ " " ++ join " " ws end.
Proof. reflexivity. Qed.

Lemma tidy_space (r : string) :
  tidy (String " " r) = (starts_with_text r && tidy r)%bool.
Proof. reflexivity. Qed.

Lemma join_words_tidy (ws : list string) :
  Forall word ws ->
  tidy (join " " ws) = true /\
  (ws <> [] -> starts_with_text (join " " ws) = true).
Proof.
  induction 1 as [|w ws Hw Hws IH].
  - split; [reflexivity|]. intro H. contradiction.
  - rewrite join_cons. destruct ws as [|w' ws'].
    + split.
      * rewrite <- (append_nil_r w). rewrite tidy_word_append; [reflexivity|apply Hw].
      * intros _. rewrite <- (append_nil_r w). apply starts_with_text_word. exact Hw.
    + destruct IH as [IH1 IH2]. split.
      * rewrite tidy_word_append by apply Hw.
        change (tidy (String " " (join " " (w' :: ws'))) = true).
        rewrite tidy_space, IH1, IH2 by discriminate. reflexivity.
      * intros _. apply starts_with_text_word. exact Hw.
Qed.

Lemma collapse_tidy (s : string) : tidy (collapse s) = true.
Proof. apply join_words_tidy, split_words. Qed.

Lemma collapse_nonempty (s : string) :
  blank s = false -> collapse s <> EmptyString.
Proof.
  intro H. unfold collapse.
  pose proof (split_words s) as Hw.
  pose proof (split_from_nonempty s EmptyString (or_intror H)) as Hne.
  fold (split s) in Hne.
  destruct (join_words_tidy (split s) Hw) as [_ Hstart].
  specialize (Hstart Hne).
  destruct (join " " (split s)); [discriminate|discriminate].
Qed.

(** In a tidy string a white space character is followed by text. *)
Lemma tidy_after_space (a : string) (c : ascii) (r : string) :
  tidy (a ++ String c r) = true -> is_space c = true ->
  starts_with_text r = true.
Proof.
  induction a as [|d a IH]; simpl; intros H Hc.
  - rewrite Hc in H. apply andb_true_iff in H. destruct H as [H _].
    apply andb_true_iff in H. tauto.
  - apply andb_true_iff in H. destruct H as [_ H]. apply IH; assumption.
Qed.

Lemma prefix_single (c d : ascii) (s : string) :
  String.prefix (String c EmptyString) (String d s) = Ascii.eqb c d.
Proof.
  simpl. destruct (ascii_dec c d) as [->|Hn].
  - rewrite Ascii.eqb_refl. destruct s; reflexivity.
  - symmetry. apply Ascii.eqb_neq. exact Hn.
Qed.

(** The only white space of a tidy string is the space. *)
Lemma tidy_no_other_space (c : ascii) (s : string) :
  tidy s = true -> is_space c = true -> c <> " "%char ->
  contains (String c EmptyString) s = false.
Proof.
  intros Ht Hc Hne. induction s as [|d s IH]; [reflexivity|].
  simpl in Ht. apply andb_true_iff in Ht. destruct Ht as [Hd Ht].
  change (contains (String c EmptyString) (String d s))
    with (String.prefix (String c EmptyString) (String d s)
          || contains (String c EmptyString) s)%bool.
  rewrite (IH Ht), orb_false_r, prefix_single.
  destruct (Ascii.eqb c d) eqn:E; [|reflexivity].
  apply Ascii.eqb_eq in E. subst d. rewrite Hc in Hd.
  apply andb_true_iff in Hd. destruct Hd as [Hd _].
  apply Ascii.eqb_eq in Hd. contradiction.
Qed.

(** *** [strip] *)

Lemma strip_text (s : string) :
  starts_with_text s = true -> strip s <> EmptyString.
Proof.
  destruct s as [|c s]; simpl; [discriminate|].
  intro H. apply negb_true_iff in H.
  unfold strip. simpl. rewrite H. simpl. rewrite H. simpl. discriminate.
Qed.

Lemma last_char_append (a b : string) :
  last_char (a ++ b)
  = match last_char b with Some d => Some d | None => last_char a end.
Proof.
  induction a as [|c a IH]; simpl.
  - destruct (last_char b); reflexivity.
  - rewrite IH. destruct (last_char b); [reflexivity|].
    destruct (last_char a); reflexivity.
Qed.

Lemma last_or_append (prev : option ascii) (a b : string) :
  last_or prev (a ++ b) = last_or (last_or prev a) b.
Proof.
  unfold last_or. rewrite last_char_append.
  destruct (last_char b); [reflexivity|].
  destruct (last_char a); reflexivity.
Qed.

(** A string that is not empty ends with its last character. *)
Lemma last_char_snoc (w : string) (d : ascii) :
  last_char w = Some d -> exists w', w = w' ++ String d EmptyString.
Proof.
  revert d. induction w as [|c w IH]; simpl; intro d; [discriminate|].
  destruct (last_char w) as [e|] eqn:E.
  - intro H. inversion H; subst. destruct (IH d eq_refl) as [w' ->].
    exists (String c w'). reflexivity.
  - intro H. inversion H; subst.
    destruct w; [exists EmptyString; reflexivity|].
    simpl in E. destruct (last_char w); discriminate.
Qed.

Lemma all_chars_last (p : ascii -> bool) (w : string) (d : ascii) :
  all_chars p w = true -> last_char w = Some d -> p d = true.
Proof.
  revert d. induction w as [|c w IH]; simpl; intros d H; [discriminate|].
  apply andb_true_iff in H. destruct H as [Hc Hw].
  destruct (last_char w) as [e|].
  - intro E. inversion E; subst. apply IH; [exact Hw|reflexivity].
  - intro E. inversion E; subst. exact Hc.
Qed.

Lemma take_append (w r : string) :
  take (String.length (w ++ r) - String.length r) (w ++ r) = w.
Proof.
  rewrite length_append.
  replace (String.length w + String.length r - String.length r)
    with (String.length w) by lia.
  induction w as [|c w IH]; simpl.
  - destruct r; reflexivity.
  - rewrite IH. reflexivity.
Qed.

End StrFacts.

(** ** The matcher *)

Module ReFacts.

Import PyStr Re StrFacts.
Local Open Scope nat_scope.
Local Open Scope string_scope.

(** A successful repetition read some [w], all in the class and at least
    [lo] long, and went on from there. *)
Lemma rep_greedy_inv (A : Type) (p : ascii -> bool) (s : string) :
  forall lo hi prev (k : option ascii -> string -> option A) x,
    rep_greedy p lo hi prev s k = Some x ->
    exists w s',
      s = w ++ s' /\ k (last_or prev w) s' = Some x /\
      all_chars p w = true /\ lo <= String.length w.
Proof.
  induction s as [|c s IH]; intros lo hi prev k x; simpl.
  - destruct lo; [|discriminate]. intro H.
    exists EmptyString, EmptyString. repeat split; [exact H|lia].
  - assert (Hstop : match lo with O => k prev (String c s) | S _ => None end
                    = Some x ->
                    exists w s', String c s = w ++ s' /\
                      k (last_or prev w) s' = Some x /\
                      all_chars p w = true /\ lo <= String.length w).
    { destruct lo; [|discriminate]. intro H.
      exists EmptyString, (String c s). repeat split; [exact H|lia]. }
    destruct (p c && has_room hi)%bool eqn:E; [|exact Hstop].
    destruct (rep_greedy p (pred lo) (dec_hi hi) (Some c) s k) as [y|] eqn:Er;
      [|exact Hstop].
    intro H. inversion H; subst y.
    destruct (IH _ _ _ _ _ Er) as (w & s' & Hs & Hk & Hall & Hlo).
    exists (String c w), s'. apply andb_true_iff in E. destruct E as [Hc _].
    split; [simpl; congruence|]. split; [|split].
    + unfold last_or in *. simpl. destruct (last_char w); exact Hk.
    + simpl. rewrite Hc, Hall. reflexivity.
    + simpl. lia.
Qed.

(** A successful match read some [w] and went on from there. *)
Lemma rmatch_inv (A : Type) (r : regex) :
  forall prev s caps (k : option ascii -> string -> captures -> option A) x,
    rmatch r prev s caps k = Some x ->
    exists w s' caps',
      s = w ++ s' /\ k (last_or prev w) s' caps' = Some x.
Proof.
  induction r as [|p|r1 IH1 r2 IH2|r1 IH1 r2 IH2|p lo hi|n r1 IH1| | |p|p];
    intros prev s caps k x; simpl.
  - intro H. exists EmptyString, s, caps. split; [reflexivity|exact H].
  - destruct s as [|c s]; [discriminate|].
    destruct (p c); [|discriminate].
    intro H. exists (String c EmptyString), s, caps. split; [reflexivity|exact H].
  - intro H. apply IH1 in H. destruct H as (w1 & s1 & caps1 & Hs1 & H).
    apply IH2 in H. destruct H as (w2 & s2 & caps2 & Hs2 & H).
    exists (w1 ++ w2), s2, caps2. split.
    + rewrite append_assoc. congruence.
    + rewrite last_or_append. exact H.
  - destruct (rmatch r1 prev s caps k) as [y|] eqn:E.
    + intro H. inversion H; subst y. apply (IH1 _ _ _ _ _ E).
    + apply IH2.
  - intro H. apply rep_greedy_inv in H.
    destruct H as (w & s' & Hs & Hk & _). exists w, s', caps.
    split; assumption.
  - intro H. apply IH1 in H. destruct H as (w & s' & caps' & Hs & H).
    exists w, s', ((n, consumed s s') :: caps'). split; assumption.
  - destruct (xorb (word_before prev) (word_at s)); [|discriminate].
    intro H. exists EmptyString, s, caps. split; [reflexivity|exact H].
  - destruct (is_empty s || String.eqb s (String "010" EmptyString))%bool;
      [|discriminate].
    intro H. exists EmptyString, s, caps. split; [reflexivity|exact H].
  - destruct prev as [c|]; [destruct (p c); [discriminate|]|];
      intro H; exists EmptyString, s, caps; (split; [reflexivity|exact H]).
  - destruct s as [|c s]; [|destruct (p c); [discriminate|]];
      intro H; [exists EmptyString, EmptyString, caps|exists EmptyString, (String c s), caps];
      (split; [reflexivity|exact H]).
Qed.

Lemma seqs_cons (r : regex) (l : list regex) :
  l <> [] -> seqs (r :: l) = RSeq r (seqs l).
Proof. destruct l; [contradiction|reflexivity]. Qed.

(** The front of a sequence reads some [w]; the rest matches after it. *)
Lemma rmatch_seqs_inv (A : Type) (front rest : list regex) :
  rest <> [] ->
  forall prev s caps (k : option ascii -> string -> captures -> option A) x,
    rmatch (seqs (front ++ rest)) prev s caps k = Some x ->
    exists w s' caps',
      s = w ++ s' /\
      rmatch (seqs rest) (last_or prev w) s' caps' k = Some x.
Proof.
  intro Hrest. induction front as [|a front IH]; intros prev s caps k x.
  - intro H. exists EmptyString, s, caps. split; [reflexivity|exact H].
  - change ((a :: front) ++ rest)%list with (a :: (front ++ rest))%list.
    rewrite seqs_cons by (destruct front; [exact Hrest|discriminate]).
    simpl. intro H. apply rmatch_inv in H.
    destruct H as (w1 & s1 & caps1 & Hs1 & H).
    apply IH in H. destruct H as (w2 & s2 & caps2 & Hs2 & H).
    exists (w1 ++ w2), s2, caps2. split.
    + rewrite append_assoc. congruence.
    + rewrite last_or_append. exact H.
Qed.

Lemma search_from_inv (r : regex) (s : string) :
  forall prev caps,
    search_from r prev s = Some caps ->
    exists pre prev0 s0 s_end,
      s = pre ++ s0 /\ match_at r prev0 s0 = Some (s_end, caps).
Proof.
  induction s as [|c s IH]; intros prev caps; simpl.
  - destruct (match_at r prev EmptyString) as [[s_end caps']|] eqn:E; [|discriminate].
    intro H. inversion H; subst. exists EmptyString, prev, EmptyString, s_end.
    split; [reflexivity|exact E].
  - destruct (match_at r prev (String c s)) as [[s_end caps']|] eqn:E.
    + intro H. inversion H; subst. exists EmptyString, prev, (String c s), s_end.
      split; [reflexivity|exact E].
    + intro H. apply IH in H.
      destruct H as (pre & prev0 & s0 & s_end & Hs & Hm).
      exists (String c pre), prev0, s0, s_end. split; [simpl; congruence|exact Hm].
Qed.

(** White space, then a group that reads at least one character: the
    group starts right after a white space character. *)
Lemma capture_after_spaces (n : nat) (p : ascii -> bool)
    (prev : option ascii) (s : string) (caps0 caps : captures)
    (s_end : string) :
  rmatch (seqs [plus is_space; RGroup n (plus p)]) prev s caps0
         (fun _ s' c => Some (s', c)) = Some (s_end, caps) ->
  exists a c g,
    s = a ++ String c (g ++ s_end) /\ is_space c = true /\
    g <> EmptyString /\ group n caps = g.
Proof.
  simpl. unfold plus. simpl. intro H.
  apply rep_greedy_inv in H. destruct H as (w1 & s1 & Hs1 & H & Hall & Hlen).
  apply rep_greedy_inv in H. destruct H as (w2 & s2 & Hs2 & H & _ & Hlen2).
  inversion H; subst s_end caps. clear H.
  destruct (last_char w1) as [c|] eqn:El.
  - destruct (last_char_snoc w1 c El) as [a ->].
    exists a, c, w2. split; [|split; [|split]].
    + rewrite Hs1, Hs2, append_assoc. reflexivity.
    + apply (all_chars_last is_space _ c Hall El).
    + destruct w2; [simpl in Hlen2; lia|discriminate].
    + simpl. rewrite Nat.eqb_refl. unfold consumed. rewrite Hs2.
      apply take_append.
  - destruct w1; [simpl in Hlen; lia|].
    simpl in El. destruct (last_char w1); discriminate.
Qed.

(** In a tidy text, what such a group captures is not blank. *)
Lemma search_capture (front : list regex) (n : nat) (p : ascii -> bool)
    (text : string) (caps : captures) :
  tidy text = true ->
  search (seqs (front ++ [plus is_space; RGroup n (plus p)])) text
  = Some caps ->
  strip (group n caps) <> EmptyString.
Proof.
  intros Htidy H. unfold search in H. apply search_from_inv in H.
  destruct H as (pre & prev0 & s0 & s_end & Hs & H).
  unfold match_at in H. apply rmatch_seqs_inv in H; [|discriminate].
  destruct H as (w & s1 & caps1 & Hs1 & H).
  apply capture_after_spaces in H.
  destruct H as (a & c & g & Hs2 & Hc & Hg & Hgrp).
  rewrite Hgrp. apply strip_text.
  assert (Ht : tidy ((pre ++ w ++ a) ++ String c (g ++ s_end)) = true).
  { rewrite !append_assoc. rewrite <- Hs2, <- Hs1, <- Hs. exact Htidy. }
  apply tidy_after_space in Ht; [|exact Hc].
  destruct g; [contradiction|exact Ht].
Qed.

End ReFacts.

(** ** [clean_description] *)

Module CleanFacts.

Import PyStr Re FileHandler StrFacts ReFacts.
Local Open Scope nat_scope.
Local Open Scope string_scope.
Local Open Scope list_scope.

Lemma first_merchant_in (rules : list (regex * string)) (cleaned name : string) :
  first_merchant rules cleaned = Some name -> In name (map snd rules).
Proof.
  induction rules as [|[r n] rules IH]; simpl; [discriminate|].
  destruct (found r cleaned).
  - intro H. inversion H. left. reflexivity.
  - intro H. right. apply IH. exact H.
Qed.

Lemma merchant_names_nonempty (name : string) :
  In name (map snd merchant_rules) -> name <> EmptyString.
Proof.
  simpl. intros H E. subst name.
  repeat (destruct H as [H|H]; [discriminate|]). exact H.
Qed.

(** The branch for the tab format is never taken: the text tested has
    been collapsed, and a tab is white space. *)
Lemma no_tab_after_collapse (desc : string) :
  contains (String tab EmptyString) (collapse desc) = false.
Proof.
  apply tidy_no_other_space.
  - apply collapse_tidy.
  - reflexivity.
  - discriminate.
Qed.

(** A rule that returns at once returns some text. *)
Lemma early_rules_nonempty (desc r : string) :
  early_rules (collapse desc) = Some r -> r <> EmptyString.
Proof.
  unfold early_rules. rewrite no_tab_after_collapse.
  destruct (found bupa_re (collapse desc)).
  { intro H. inversion H. discriminate. }
  destruct (search dd_re (collapse desc)) as [caps|] eqn:Edd.
  { intro H. inversion H.
    apply (search_capture
             [lit_i "Direct"; plus is_space; lit_i "Debit"; plus is_space;
              lit_i "to"] 1 payee_class (collapse desc) caps);
      [apply collapse_tidy|exact Edd]. }
  destruct (search payment_re (collapse desc)) as [caps|] eqn:Epay.
  { intro H. inversion H.
    apply (search_capture
             [RGroup 1 (RAlt (lit_i "Payment") (lit_i "Transfer"));
              plus is_space; lit_i "to"] 2 payee_class (collapse desc) caps);
      [apply collapse_tidy|exact Epay]. }
  unfold ref_rule.
  destruct (search ref_re (collapse desc)) as [caps|]; [|discriminate].
  destruct (found name_re (strip (group 1 caps))) eqn:Ename; [|discriminate].
  intro H. inversion H. intro Hempty. rewrite Hempty in Ename.
  vm_compute in Ename. discriminate.
Qed.




(** At that input the prefixes "ATM " and "CHQ " and the words WITHDRAWAL
    and FEE are removed, nothing is left, and the input comes back. *)
Lemma clean_description_falls_back :
  strip_indicators (strip_noise (collapse "ATM CHQ withdrawal fee")) = EmptyString /\
  clean_description "ATM CHQ withdrawal fee" = "ATM CHQ withdrawal fee".
Proof. split; vm_compute; reflexivity. Qed.

End CleanFacts.

(** ** The scenarios of the specification *)

Module Scenarios.

Import PyStr VendorDatabase Frame DataProcessor FileHandler.
Local Open Scope nat_scope.
Local Open Scope string_scope.

(** "DIRECT DEBIT BUPA CENTRAL DDR" with the hint "Direct Debit". *)
Lemma scenario_bupa :
  match_vendor "DIRECT DEBIT BUPA CENTRAL DDR" (Some "Direct Debit") (-45)
  = Some ("Healthcare", "Health Insurance").
Proof. vm_compute. reflexivity. Qed.

(** "PAYWARD LTD", -500, no hint. *)
Lemma scenario_payward :
  labels (categorize_transactions plain [(0, tx "PAYWARD LTD" (-500))]
            default_categories)
  = Some [("Savings", "Investments")].
Proof. vm_compute. reflexivity. Qed.

(** Debit 120.00, credit 0, merchant "TESCO STORES". *)
Lemma scenario_tesco :
  combined_amount (Some 0%Q) (Some 120%Q) == -120%Q /\
  clean_description "TESCO STORES" = "Tesco" /\
  labels (categorize_transactions plain
            [(0, tx (clean_description "TESCO STORES")
                    (combined_amount (Some 0%Q) (Some 120%Q)))]
            default_categories)
  = Some [("Food", "Groceries")].
Proof. repeat split; vm_compute; reflexivity. Qed.

End Scenarios.

(** * Further properties of the code *)

(** ** [calculate_tax_liability]: edge cases and the sign of the total *)

Module TaxMore.

Import TaxCalculator TaxTable TaxFacts.

(** X1.  An income that is not positive owes nothing: the total is zero, the
    effective rate is zero and the breakdown is empty, whatever the
    brackets are. *)
Theorem no_tax_without_income (income : Q) (brackets : list bracket)
    (Hincome : income <= 0) :
  let r := calculate_tax_liability income brackets in
  total_tax r == 0 /\ effective_rate r = 0 /\ bracket_breakdown r = [].
Proof.
  unfold calculate_tax_liability.
  assert (Hlt : Qlt_bool 0 income = false) by (apply Qlt_bool_false; exact Hincome).
  destruct (sorted_brackets brackets) as [|b bs]; simpl.
  - rewrite Hlt. split; [reflexivity|]. split; reflexivity.
  - assert (Hinc : bracket_income income b = 0).
    { unfold bracket_income.
      destruct (Qle_bool income 0) eqn:E; [reflexivity|]. qbool. lra. }
    rewrite Hinc.
    assert (Hstop : Qle_bool (income - 0) 0 = true)
      by (apply Qle_bool_iff; lra).
    rewrite Hstop. simpl. rewrite Hlt. simpl.
    split; [lra|]. split; reflexivity.
Qed.

Lemma no_tax_without_income_witness :
  let r := calculate_tax_liability (-5) default_tax_brackets in
  total_tax r == 0 /\ effective_rate r = 0 /\ bracket_breakdown r = [].
Proof.
  apply (no_tax_without_income (-5) default_tax_brackets). lra.
Defined.

(** X2.  With spans that are not reversed and rates that are not negative the
    total is never negative. *)
Theorem total_tax_nonneg (income : Q) (brackets : list bracket)
    (Hspan : Forall span_ok brackets) (Hrate : Forall rate_ok brackets) :
  0 <= total_tax (calculate_tax_liability income brackets).
Proof.
  rewrite total_tax_eq.
  apply tax_from_nonneg; apply sorted_brackets_Forall; assumption.
Qed.

Lemma total_tax_nonneg_witness :
  0 <= total_tax (calculate_tax_liability 75000 default_tax_brackets).
Proof.
  apply (total_tax_nonneg 75000 default_tax_brackets).
  - exact default_table_span_ok.
  - exact default_table_rate_ok.
Defined.

(** What a bracket takes is at most what remains, when its lower bound is
    not negative. *)
Lemma bracket_income_le (b : bracket) (r : Q) :
  min_ok b -> 0 <= r -> bracket_income r b <= r.
Proof.
  unfold min_ok, bracket_income. intros Hm Hr.
  destruct (b_max b) as [m|]; case_ifs; qbool; lra.
Qed.

Lemma default_table_min_ok : Forall min_ok default_tax_brackets.
Proof.
  unfold default_tax_brackets.
  repeat (constructor; [unfold min_ok; simpl; lra|]).
  constructor.
Qed.

Lemma default_table_rate_in_unit : Forall rate_in_unit default_tax_brackets.
Proof.
  unfold default_tax_brackets.
  repeat (constructor; [unfold rate_in_unit; simpl; split; lra|]).
  constructor.
Qed.

End TaxMore.

(** ** [calculate_tax_liability]: the order of the table *)

Module TaxOrder.

Import TaxCalculator TaxTable TaxFacts TaxMore.

(** *** The order in which the brackets are given *)

Lemma insert_by_min_perm (b : bracket) (l : list bracket) :
  Permutation (insert_by_min b l) (b :: l).
Proof.
  induction l as [|x l IH]; simpl; [reflexivity|].
  destruct (Qle_bool (b_min b) (b_min x)); [reflexivity|].
  rewrite IH. apply perm_swap.
Qed.

Lemma sorted_brackets_perm (l : list bracket) :
  Permutation (sorted_brackets l) l.
Proof.
  induction l as [|b l IH]; simpl; [reflexivity|].
  rewrite insert_by_min_perm. constructor. exact IH.
Qed.

Lemma insert_by_min_ascending (b : bracket) (l : list bracket) :
  ascending_by_min l -> ascending_by_min (insert_by_min b l).
Proof.
  unfold ascending_by_min. induction 1 as [|x l Hl IH Hx]; simpl.
  - constructor; constructor.
  - destruct (Qle_bool (b_min b) (b_min x)) eqn:E; qbool.
    + constructor; [constructor; assumption|].
      constructor; [exact E|].
      rewrite Forall_forall in *. intros y Hy. specialize (Hx y Hy). lra.
    + constructor; [exact IH|].
      rewrite Forall_forall in *. intros y Hy.
      apply (Permutation_in _ (insert_by_min_perm b l)) in Hy.
      destruct Hy as [<-|Hy]; [lra|apply Hx; exact Hy].
Qed.

Lemma sorted_brackets_ascending (l : list bracket) :
  ascending_by_min (sorted_brackets l).
Proof.
  induction l as [|b l IH]; simpl.
  - constructor.
  - apply insert_by_min_ascending. exact IH.
Qed.

Lemma distinct_mins_perm (l l' : list bracket) :
  Permutation l l' -> distinct_mins l -> distinct_mins l'.
Proof.
  induction 1 as [|x l l' Hp IH|x y l|l l' l'' H1 IH1 H2 IH2]; simpl.
  - trivial.
  - intros [Hx Hl]. split; [|apply IH; exact Hl].
    rewrite Forall_forall in *. intros z Hz. apply Hx.
    apply (Permutation_in _ (Permutation_sym Hp)). exact Hz.
  - intros [Hy [Hx Hl]]. inversion Hy as [|? ? Hyx Hyl]; subst.
    split; [|split; assumption].
    constructor; [|exact Hx]. intro E. apply Hyx. symmetry. exact E.
  - intro H. apply IH2, IH1. exact H.
Qed.

(** Two ascending lists with the same brackets, no two of them with the
    same lower bound, are the same list. *)
Lemma ascending_unique (l1 : list bracket) :
  forall l2,
    ascending_by_min l1 -> ascending_by_min l2 ->
    distinct_mins l1 -> Permutation l1 l2 -> l1 = l2.
Proof.
  unfold ascending_by_min.
  induction l1 as [|a1 t1 IH]; intros l2 H1 H2 Hd Hp.
  - apply Permutation_nil in Hp. congruence.
  - destruct l2 as [|a2 t2].
    + apply Permutation_sym, Permutation_nil in Hp. discriminate.
    + inversion H1 as [|? ? Ht1 Ha1]; inversion H2 as [|? ? Ht2 Ha2]; subst.
      destruct Hd as [Hd1 Hdt].
      assert (Heq : a1 = a2).
      { assert (In1 : In a1 (a2 :: t2))
          by (apply (Permutation_in _ Hp); left; reflexivity).
        assert (In2 : In a2 (a1 :: t1))
          by (apply (Permutation_in _ (Permutation_sym Hp)); left; reflexivity).
        destruct In1 as [E|In1]; [congruence|].
        destruct In2 as [E|In2]; [congruence|].
        exfalso. rewrite Forall_forall in *.
        specialize (Ha1 a2 In2). specialize (Ha2 a1 In1).
        apply (Hd1 a2 In2). lra. }
      subst a2. f_equal. apply IH; try assumption.
      apply (Permutation_cons_inv Hp).
Qed.

(** X5.  The result does not depend on the order in which the brackets are
    given, as long as no two of them have the same [min]: the function
    sorts them first. *)
Theorem order_of_brackets_irrelevant (income : Q)
    (brackets brackets' : list bracket)
    (Hperm : Permutation brackets brackets')
    (Hdistinct : distinct_mins brackets) :
  calculate_tax_liability income brackets
  = calculate_tax_liability income brackets'.
Proof.
  unfold calculate_tax_liability.
  replace (sorted_brackets brackets') with (sorted_brackets brackets);
    [reflexivity|].
  apply ascending_unique.
  - apply sorted_brackets_ascending.
  - apply sorted_brackets_ascending.
  - apply (distinct_mins_perm brackets);
      [symmetry; apply sorted_brackets_perm|exact Hdistinct].
  - rewrite sorted_brackets_perm, Hperm. symmetry. apply sorted_brackets_perm.
Qed.

Lemma default_table_distinct_mins : distinct_mins default_tax_brackets.
Proof.
  unfold default_tax_brackets. simpl.
  repeat split;
    repeat (constructor; [intro H; vm_compute in H; discriminate|]);
    constructor.
Qed.

Lemma order_of_brackets_irrelevant_witness :
  calculate_tax_liability 75000 default_tax_brackets
  = calculate_tax_liability 75000 (rev default_tax_brackets).
Proof.
  apply (order_of_brackets_irrelevant 75000 default_tax_brackets
           (rev default_tax_brackets)).
  - apply Permutation_rev.
  - exact default_table_distinct_mins.
Defined.

End TaxOrder.

(** ** [clean_description]: white space *)

Module CleanMore.

Import PyStr Re FileHandler StrFacts ReFacts CleanFacts.
Local Open Scope nat_scope.
Local Open Scope string_scope.
Local Open Scope list_scope.

(** *** [strip] of a stripped string *)

Lemma lstrip_text (s : string) :
  s = EmptyString \/ starts_with_text s = true -> lstrip s = s.
Proof.
  destruct s as [|c s]; simpl; [reflexivity|].
  intros [H|H]; [discriminate|].
  apply negb_true_iff in H. rewrite H. reflexivity.
Qed.

Lemma lstrip_shape (s : string) :
  lstrip s = EmptyString \/ starts_with_text (lstrip s) = true.
Proof.
  induction s as [|c s IH]; simpl; [left; reflexivity|].
  destruct (is_space c) eqn:E; [exact IH|].
  right. simpl. rewrite E. reflexivity.
Qed.

Lemma rstrip_idem (s : string) : rstrip (rstrip s) = rstrip s.
Proof.
  induction s as [|c s IH]; simpl; [reflexivity|].
  destruct (is_space c && is_empty (rstrip s))%bool eqn:E; [reflexivity|].
  simpl. rewrite IH, E. reflexivity.
Qed.

Lemma rstrip_shape (s : string) :
  s = EmptyString \/ starts_with_text s = true ->
  rstrip s = EmptyString \/ starts_with_text (rstrip s) = true.
Proof.
  destruct s as [|c s]; simpl; [left; reflexivity|].
  intros [H|H]; [discriminate|].
  apply negb_true_iff in H. rewrite H. simpl. right. rewrite H. reflexivity.
Qed.

Lemma strip_idem (s : string) : strip (strip s) = strip s.
Proof.
  unfold strip.
  rewrite (lstrip_text (rstrip (lstrip s)))
    by (apply rstrip_shape, lstrip_shape).
  apply rstrip_idem.
Qed.

Lemma rstrip_tidy (s : string) : tidy s = true -> rstrip s = s.
Proof.
  induction s as [|c s IH]; simpl; [reflexivity|].
  intro H. apply andb_true_iff in H. destruct H as [Hc Hs].
  rewrite (IH Hs).
  destruct (is_space c); [|reflexivity].
  apply andb_true_iff in Hc. destruct Hc as [_ Hc].
  destruct s; [discriminate|reflexivity].
Qed.

Lemma collapse_shape (s : string) :
  collapse s = EmptyString \/ starts_with_text (collapse s) = true.
Proof.
  unfold collapse.
  destruct (join_words_tidy (split s) (split_words s)) as [_ H].
  destruct (split s) as [|w ws]; [left; reflexivity|].
  right. apply H. discriminate.
Qed.

Lemma strip_collapse (s : string) : strip (collapse s) = collapse s.
Proof.
  unfold strip. rewrite (lstrip_text _ (collapse_shape s)).
  apply rstrip_tidy, collapse_tidy.
Qed.

Lemma merchant_names_stripped (name : string) :
  In name (map snd merchant_rules) -> strip name = name.
Proof.
  simpl. intro H.
  repeat (destruct H as [<-|H]; [reflexivity|]). contradiction.
Qed.

(** X6.  The result never starts or ends with white space. *)
Theorem clean_description_stripped (desc : string) :
  strip (clean_description desc) = clean_description desc.
Proof.
  unfold clean_description.
  destruct (early_rules (collapse desc)) as [r|] eqn:Ee.
  - unfold early_rules in Ee. rewrite no_tab_after_collapse in Ee.
    destruct (found bupa_re (collapse desc)).
    { inversion Ee. reflexivity. }
    destruct (search dd_re (collapse desc)).
    { inversion Ee. apply strip_idem. }
    destruct (search payment_re (collapse desc)).
    { inversion Ee. apply strip_idem. }
    unfold ref_rule in Ee.
    destruct (search ref_re (collapse desc)); [|discriminate].
    destruct (found name_re _); [|discriminate].
    inversion Ee. apply strip_idem.
  - destruct (first_merchant merchant_rules (strip_noise (collapse desc)))
      as [name|] eqn:Em.
    { apply merchant_names_stripped, (first_merchant_in _ _ _ Em). }
    destruct (Nat.ltb _ 2).
    + apply strip_collapse.
    + unfold strip_indicators. apply strip_idem.
Qed.

(** *** Inputs of white space only *)

Lemma split_from_blank (s : string) :
  blank s = true -> split_from EmptyString s = [].
Proof.
  induction s as [|c s IH]; simpl; [reflexivity|].
  intro H. apply andb_true_iff in H. destruct H as [Hc Hs].
  rewrite Hc. simpl. apply IH. exact Hs.
Qed.

Lemma collapse_blank (s : string) : blank s = true -> collapse s = EmptyString.
Proof.
  intro H. unfold collapse, split. rewrite (split_from_blank s H). reflexivity.
Qed.

(** X7.  An input of white space only (the empty input too) gives the empty
    string. *)
Theorem clean_description_blank (desc : string)
    (Hblank : blank desc = true) :
  clean_description desc = EmptyString.
Proof.
  unfold clean_description. rewrite (collapse_blank desc Hblank).
  vm_compute. reflexivity.
Qed.

Lemma clean_description_blank_witness :
  clean_description (String "009" (String " " (String "010" EmptyString)))
  = EmptyString.
Proof.
  apply (clean_description_blank
           (String "009" (String " " (String "010" EmptyString)))).
  vm_compute. reflexivity.
Defined.

(** *** White space between the words *)

Lemma split_from_text (w : string) :
  forall cur rest,
    spaceless w = true ->
    split_from cur (w ++ rest) = split_from (cur ++ w) rest.
Proof.
  induction w as [|c w IH]; intros cur rest H; simpl.
  - rewrite append_nil_r. reflexivity.
  - simpl in H. apply andb_true_iff in H. destruct H as [Hc Hw].
    apply negb_true_iff in Hc. rewrite Hc.
    rewrite (IH _ _ Hw), append_assoc. reflexivity.
Qed.

Lemma split_from_end (w : string) :
  w <> EmptyString -> split_from w EmptyString = [w].
Proof. destruct w; [contradiction|reflexivity]. Qed.

Lemma split_from_space (w rest : string) :
  w <> EmptyString ->
  split_from w (String " " rest) = w :: split_from EmptyString rest.
Proof. destruct w; [contradiction|reflexivity]. Qed.

Lemma join_two (w w' : string) (ws : list string) :
  join " " (w :: w' :: ws) = (w ++ String " " (join " " (w' :: ws)))%string.
Proof. reflexivity. Qed.

Lemma split_join_words (ws : list string) :
  Forall word ws -> split (join " " ws) = ws.
Proof.
  induction 1 as [|w ws [Hne Hw] Hws IH]; [reflexivity|].
  unfold split in *. destruct ws as [|w' ws'].
  - change (join " " [w]) with w.
    rewrite <- (append_nil_r w) at 1.
    rewrite (split_from_text w _ _ Hw).
    apply split_from_end. exact Hne.
  - rewrite join_two, (split_from_text w _ _ Hw).
    change (EmptyString ++ w)%string with w.
    rewrite (split_from_space w _ Hne), IH. reflexivity.
Qed.

Lemma collapse_idem (s : string) : collapse (collapse s) = collapse s.
Proof.
  unfold collapse. rewrite (split_join_words _ (split_words s)). reflexivity.
Qed.

(** X8.  The amount of white space in the input does not matter: cleaning the
    collapsed input gives what cleaning the input gives. *)
Theorem clean_description_of_collapsed (desc : string) :
  clean_description (collapse desc) = clean_description desc.
Proof.
  unfold clean_description. rewrite collapse_idem. reflexivity.
Qed.

(** X9.  The branch for the tab-separated statement format is never taken:
    after [' '.join(desc.split())] the text holds no tab, so the test
    ['\t' in cleaned] is false for every input. *)
Theorem tab_format_never_detected (desc : string) :
  contains (String tab EmptyString) (collapse desc) = false.
Proof. apply no_tab_after_collapse. Qed.

End CleanMore.

(** ** More on the vendor matcher *)

Module VendorMore.

Import PyStr Re VendorDatabase VendorAnswers VendorFacts.
Local Open Scope nat_scope.
Local Open Scope string_scope.
Local Open Scope list_scope.

Lemma mem_In (x : string) (l : list string) : mem x l = true <-> In x l.
Proof.
  unfold mem. rewrite existsb_exists. split.
  - intros (y & Hy & E). apply String.eqb_eq in E. subst. exact Hy.
  - intro H. exists x. split; [exact H|apply String.eqb_refl].
Qed.

(** [vendor_categories] holds the categories of the table and no other. *)
Lemma vendor_categories_of_table (x : string) :
  In x vendor_categories <->
  exists e, In e VENDOR_DATABASE /\ cat_of (snd e) = x.
Proof.
  split.
  - intro H.
    assert (Hb : forallb
                   (fun y => mem y (map (fun e => cat_of (snd e))
                                        VENDOR_DATABASE))
                   vendor_categories = true) by (vm_compute; reflexivity).
    rewrite forallb_forall in Hb. specialize (Hb x H).
    apply mem_In, in_map_iff in Hb. destruct Hb as (e & He & Hin).
    exists e. split; assumption.
  - intros (e & He & <-).
    assert (Hb : forallb (fun e => mem (cat_of (snd e)) vendor_categories)
                         VENDOR_DATABASE = true) by (vm_compute; reflexivity).
    rewrite forallb_forall in Hb. apply mem_In, Hb, He.
Qed.

Ltac known_cases H :=
  repeat match type of H with
  | context [if ?c then _ else _] => destruct c
  end;
  try discriminate H;
  try (inversion H; subst; reflexivity).

Lemma table_known : Forall (fun e => known (snd e)) VENDOR_DATABASE.
Proof.
  apply Forall_forall. intros e He.
  assert (Hb : forallb (fun e => mem (cat_of (snd e)) vendor_categories)
                       VENDOR_DATABASE = true) by (vm_compute; reflexivity).
  rewrite forallb_forall in Hb. apply (Hb e He).
Qed.

Lemma first_vendor_known (test : string -> bool) (v : string)
    (c : categorization) :
  first_vendor test VENDOR_DATABASE = Some (v, c) -> known c.
Proof.
  intro H. apply first_vendor_in in H.
  pose proof table_known as Ht. rewrite Forall_forall in Ht.
  apply (Ht (v, c) H).
Qed.

Lemma platform_rules_known (d : string) (c : categorization) :
  platform_rules d = Some c -> known c.
Proof. unfold platform_rules. intro H. known_cases H. Qed.

Lemma internal_transfer_rules_known (d sub : string) (c : categorization) :
  internal_transfer_rules d sub = Some c -> known c.
Proof.
  unfold internal_transfer_rules. intro H.
  apply or_else_some in H. destruct H as [H|[_ H]]; known_cases H.
Qed.

Lemma counter_credit_known (d : string) : known (counter_credit d).
Proof. unfold counter_credit. case_ifs; reflexivity. Qed.

Lemma direct_debit_known (d : string) : known (direct_debit d).
Proof.
  unfold direct_debit. case_ifs; try reflexivity.
  destruct (first_vendor (fun v => contains v d) VENDOR_DATABASE)
    as [[v c]|] eqn:E.
  - apply (first_vendor_known _ _ _ E).
  - reflexivity.
Qed.

Lemma card_purchase_known (d : string) (c : categorization) :
  card_purchase d = Some c -> known c.
Proof. unfold card_purchase. intro H. known_cases H. Qed.

Lemma debit_known (d : string) (c : categorization) :
  debit d = Some c -> known c.
Proof. unfold debit. intro H. known_cases H. Qed.

Lemma funds_transfer_known (d : string) (c : categorization) :
  funds_transfer d = Some c -> known c.
Proof. unfold funds_transfer. intro H. known_cases H. Qed.

Lemma subcategory_handlers_known (d : string) (sub : option string)
    (c : categorization) :
  subcategory_handlers d sub = Some c -> known c.
Proof.
  unfold subcategory_handlers. destruct sub as [sub|]; [|discriminate].
  destruct (is_empty sub); [discriminate|].
  destruct (contains "counter credit" (strip (lower sub))).
  { intro H. inversion H. apply counter_credit_known. }
  destruct (contains "direct debit" (strip (lower sub))).
  { intro H. inversion H. apply direct_debit_known. }
  intro H.
  apply or_else_some in H. destruct H as [H|[_ H]].
  { destruct (contains "card purchase" (strip (lower sub)));
      [apply (card_purchase_known d c H)|discriminate]. }
  apply or_else_some in H. destruct H as [H|[_ H]].
  { destruct (String.eqb "debit" (strip (lower sub)));
      [apply (debit_known d c H)|discriminate]. }
  destruct (contains "funds transfer" (strip (lower sub)));
    [apply (funds_transfer_known d c H)|discriminate].
Qed.

Lemma quick_checks_known (d : string) (c : categorization) :
  quick_checks d = Some c -> known c.
Proof. unfold quick_checks. intro H. known_cases H. Qed.

Lemma rules_before_refund_known (d : string) (sub : option string)
    (c : categorization) :
  rules_before_refund d sub = Some c -> known c.
Proof.
  unfold rules_before_refund. intro H.
  apply or_else_some in H. destruct H as [H|[_ H]];
    [apply (platform_rules_known _ _ H)|].
  apply or_else_some in H. destruct H as [H|[_ H]];
    [apply (internal_transfer_rules_known _ _ _ H)|].
  apply or_else_some in H. destruct H as [H|[_ H]];
    [apply (subcategory_handlers_known _ _ _ H)|].
  apply (quick_checks_known _ _ H).
Qed.

Lemma refund_rule_known (d : string) : known (refund_rule d).
Proof.
  unfold refund_rule.
  destruct (first_vendor (word_match d) VENDOR_DATABASE) as [[v c]|] eqn:E.
  - apply (first_vendor_known _ _ _ E).
  - reflexivity.
Qed.

Lemma overlap_fold_known (words : list string)
    (db : list (string * categorization)) :
  Forall (fun e => known (snd e)) db ->
  forall acc,
    (forall c, fst (fst acc) = Some c -> known c) ->
    forall c, fst (fst (fold_left (overlap_step words) db acc)) = Some c ->
              known c.
Proof.
  induction 1 as [|e db He Hdb IH]; intros acc Hacc c; simpl.
  - apply Hacc.
  - apply IH. intros c'. unfold overlap_step.
    destruct acc as [[bm bs] bl]. simpl in *.
    match goal with |- context [if ?b then _ else _] => destruct b end; simpl.
    + intro E. inversion E; subst. exact He.
    + apply Hacc.
Qed.

Lemma overlap_match_known (d : string) (c : categorization) :
  overlap_match d = Some c -> known c.
Proof.
  unfold overlap_match.
  pose proof (overlap_fold_known (split d) VENDOR_DATABASE table_known
                (None, 0, 0)) as H.
  destruct (fold_left (overlap_step (split d)) VENDOR_DATABASE (None, 0, 0))
    as [[bm bs] bl].
  simpl in H. destruct (Nat.ltb 0 bs); [|discriminate].
  apply H. discriminate.
Qed.

Lemma rules_after_refund_known (d : string) (c : categorization) :
  rules_after_refund d = Some c -> known c.
Proof.
  unfold rules_after_refund. intro H.
  apply or_else_some in H. destruct H as [H|[_ H]]; [known_cases H|].
  apply or_else_some in H. destruct H as [H|[_ H]].
  { destruct (first_vendor (word_match d) VENDOR_DATABASE) as [[v c']|] eqn:E;
      [|discriminate].
    inversion H; subst. apply (first_vendor_known _ _ _ E). }
  apply or_else_some in H. destruct H as [H|[_ H]].
  { match type of H with
    | option_map snd ?f = _ => destruct f as [[v c']|] eqn:E; [|discriminate]
    end.
    inversion H; subst. apply (first_vendor_known _ _ _ E). }
  apply (overlap_match_known _ _ H).
Qed.

Lemma match_vendor_known (description : string) (subcategory : option string)
    (amount : Q) (c : categorization) :
  match_vendor description subcategory amount = Some c -> known c.
Proof.
  unfold match_vendor. destruct (is_empty description); [discriminate|].
  destruct (rules_before_refund (strip (lower description)) subcategory)
    as [c0|] eqn:E.
  - intro H. inversion H; subst. apply (rules_before_refund_known _ _ _ E).
  - destruct (contains "refund" (strip (lower description))).
    + intro H. inversion H. apply refund_rule_known.
    + apply rules_after_refund_known.
Qed.

(** X10.  Whatever [match_vendor] returns, for whatever description, hint and
    amount, its category is one of the 21 categories of the vendor table:
    the rules written out in the function answer with no category that the
    table does not have. *)
Theorem match_vendor_categories (description : string)
    (subcategory : option string) (amount : Q) (c : categorization)
    (Hmatch : match_vendor description subcategory amount = Some c) :
  In (cat_of c) vendor_categories /\
  exists e, In e VENDOR_DATABASE /\ cat_of (snd e) = cat_of c.
Proof.
  assert (H : In (cat_of c) vendor_categories)
    by (apply mem_In, (match_vendor_known _ _ _ _ Hmatch)).
  split; [exact H|]. apply vendor_categories_of_table. exact H.
Qed.

Lemma match_vendor_categories_witness :
  In (cat_of ("Food", "Refund")) vendor_categories /\
  exists e, In e VENDOR_DATABASE /\ cat_of (snd e) = cat_of ("Food", "Refund").
Proof.
  apply (match_vendor_categories "refund from tesco" None 0 ("Food", "Refund")).
  vm_compute. reflexivity.
Defined.

(** *** Case, white space and the amount *)

Lemma lower_empty (s : string) : is_empty (lower s) = is_empty s.
Proof. destruct s; reflexivity. Qed.

(** X11.  The answer depends on the description only through its lower-cased,
    stripped form, and not on the amount: two descriptions that differ in
    case or in the white space around them get the same answer, whatever
    the amounts. *)
Theorem match_vendor_normalised (d d' : string) (subcategory : option string)
    (amount amount' : Q)
    (Hd : is_empty d = false) (Hd' : is_empty d' = false)
    (Hsame : strip (lower d) = strip (lower d')) :
  match_vendor d subcategory amount = match_vendor d' subcategory amount'.
Proof.
  unfold match_vendor. rewrite Hd, Hd', Hsame. reflexivity.
Qed.

Lemma match_vendor_normalised_witness :
  match_vendor "  TESCO Stores " None 5 = match_vendor "tesco stores" None (-5).
Proof.
  apply (match_vendor_normalised "  TESCO Stores " "tesco stores" None 5 (-5));
    vm_compute; reflexivity.
Defined.

(** *** The hint *)

Lemma other_is_no_handler (d : string) :
  subcategory_handlers d (Some "Other") = None.
Proof. vm_compute. reflexivity. Qed.

(** X12.  The hint 'Other' is no hint: the answer is the one given without a
    hint. *)
Theorem other_hint_is_no_hint (description : string) (amount : Q) :
  match_vendor description (Some "Other") amount
  = match_vendor description None amount.
Proof.
  unfold match_vendor. destruct (is_empty description); [reflexivity|].
  set (d := strip (lower description)).
  assert (E : rules_before_refund d (Some "Other")
              = rules_before_refund d None).
  { unfold rules_before_refund.
    assert (Ei : internal_transfer_rules d (lower "Other")
                 = internal_transfer_rules d EmptyString).
    { unfold internal_transfer_rules.
      change (contains "funds transfer" (lower "Other")) with false.
      change (contains "funds transfer" EmptyString) with false.
      reflexivity. }
    change (if is_empty "Other" then EmptyString else lower "Other")
      with (lower "Other").
    rewrite Ei.
    assert (Eh : subcategory_handlers d (infer_subcategory d (Some "Other"))
                 = subcategory_handlers d (infer_subcategory d None)).
    { unfold infer_subcategory. simpl truthy. simpl negb. simpl orb.
      change (String.eqb "Other" "Other") with true. simpl orb.
      case_ifs; try reflexivity. }
    rewrite Eh. reflexivity. }
  rewrite E. reflexivity.
Qed.

Lemma bank_hint_not_other (sub : string) :
  bank_hint sub = true -> String.eqb sub "Other" = false.
Proof.
  intro H. destruct (String.eqb sub "Other") eqn:E; [|reflexivity].
  apply String.eqb_eq in E. subst. vm_compute in H. discriminate.
Qed.

(** X13.  With a hint that names a counter credit or a direct debit every
    description that is not empty gets an answer: such a row never reaches
    the keyword scoring of the classifier. *)
Theorem bank_hint_always_answers (description sub : string) (amount : Q)
    (Hd : is_empty description = false)
    (Hsub : is_empty sub = false)
    (Hhint : bank_hint sub = true) :
  exists c, match_vendor description (Some sub) amount = Some c.
Proof.
  unfold match_vendor. rewrite Hd.
  set (d := strip (lower description)).
  assert (E : exists c, rules_before_refund d (Some sub) = Some c).
  { unfold rules_before_refund.
    destruct (platform_rules d) as [c|]; [exists c; reflexivity|].
    simpl or_else.
    destruct (internal_transfer_rules d _) as [c|]; [exists c; reflexivity|].
    simpl or_else.
    assert (Ei : infer_subcategory d (Some sub) = Some sub).
    { unfold infer_subcategory. simpl truthy. rewrite Hsub.
      rewrite (bank_hint_not_other sub Hhint). reflexivity. }
    rewrite Ei. unfold subcategory_handlers. rewrite Hsub.
    unfold bank_hint in Hhint.
    destruct (contains "counter credit" (strip (lower sub)));
      [eexists; reflexivity|].
    simpl in Hhint. rewrite Hhint. eexists; reflexivity. }
  destruct E as [c E]. rewrite E. exists c. reflexivity.
Qed.

Lemma bank_hint_always_answers_witness :
  exists c, match_vendor "zzz" (Some "Direct Debit") 0 = Some c.
Proof.
  apply (bank_hint_always_answers "zzz" "Direct Debit" 0);
    vm_compute; reflexivity.
Defined.

End VendorMore.

(** ** More on the classifier *)

Module ClassifierMore.

Import PyStr VendorDatabase VendorAnswers Frame DataProcessor Ledger.
Import DataProcessorFacts.
Local Open Scope nat_scope.
Local Open Scope string_scope.
Local Open Scope list_scope.

(** *** The input columns ['category'] and ['subcategory'] are not read *)

Lemma initial_marks_same_data (a b : Transaction) :
  same_data a b -> initial_marks a = initial_marks b.
Proof.
  destruct a, b. unfold same_data. simpl.
  intros (-> & -> & -> & -> & -> & ->). reflexivity.
Qed.

Lemma same_frame_marks (df df' : DataFrame) :
  same_frame df df' ->
  map (fun r => (fst r, initial_marks (snd r))) df
  = map (fun r => (fst r, initial_marks (snd r))) df'.
Proof.
  induction 1 as [|x y l l' [Hf Hd] Hl IH]; simpl; [reflexivity|].
  rewrite Hf, (initial_marks_same_data _ _ Hd), IH. reflexivity.
Qed.

Lemma same_frame_cap (df df' : DataFrame) :
  same_frame df df' ->
  forall idx,
    option_map (fun r => cap_subcategory (snd r)) (nth_error df idx)
    = option_map (fun r => cap_subcategory (snd r)) (nth_error df' idx).
Proof.
  induction 1 as [|x y l l' [Hf Hd] Hl IH]; intros [|idx]; simpl;
    try reflexivity.
  - destruct Hd as (_ & _ & _ & Hc & _). rewrite Hc. reflexivity.
  - apply IH.
Qed.

Lemma same_frame_hint (cols : Columns) (df df' : DataFrame) (idx : nat)
    (row : Transaction) :
  same_frame df df' ->
  subcategory_hint cols df idx row = subcategory_hint cols df' idx row.
Proof.
  intro H. unfold subcategory_hint.
  destruct (has_subcategory cols); [reflexivity|].
  destruct (has_cap_subcategory cols); [|reflexivity].
  pose proof (same_frame_cap df df' H idx) as E.
  destruct (nth_error df idx), (nth_error df' idx); simpl in E;
    congruence.
Qed.

Lemma same_frame_loop (cols : Columns) (categories : Categories)
    (df df' : DataFrame) :
  same_frame df df' ->
  forall rows cur,
    classify_loop cols categories df rows cur
    = classify_loop cols categories df' rows cur.
Proof.
  intros H rows. induction rows as [|[idx row] rows IH]; intro cur; simpl;
    [reflexivity|].
  unfold classify_row. rewrite (same_frame_hint cols df df' idx row H).
  destruct (negb (String.eqb (category row) "Uncategorized")); [apply IH|].
  destruct (subcategory_hint cols df' idx row) as [hint|]; [|reflexivity].
  destruct (match_vendor (description row) hint (amount row)); [apply IH|].
  destruct (keyword_fallback categories idx (description row) cur);
    [apply IH|reflexivity].
Qed.

Lemma same_frame_categorize (cols : Columns) (categories : Categories)
    (df df' : DataFrame) :
  same_frame df df' ->
  categorize_transactions cols df categories
  = categorize_transactions cols df' categories.
Proof.
  intro H. unfold categorize_transactions, classify_stages.
  rewrite (same_frame_marks df df' H).
  destruct H as [|x y l l' Hxy Hl]; [reflexivity|].
  rewrite (same_frame_loop cols categories (x :: l) (y :: l')
             (Forall2_cons x y Hxy Hl)).
  reflexivity.
Qed.

(** X14.  The classifier does not read the columns ['category'] and
    ['subcategory'] of its input: two frames with the same labels, dates,
    descriptions, amounts and hint columns get the same result (or both
    runs raise). *)
Theorem categorize_ignores_old_categories (cols : Columns)
    (categories : Categories) (df df' : DataFrame)
    (Hsame : same_frame df df') :
  categorize_transactions cols df categories
  = categorize_transactions cols df' categories.
Proof. apply same_frame_categorize. exact Hsame. Qed.

Lemma same_frame_refl (df : DataFrame) : same_frame df df.
Proof.
  induction df as [|r df IH]; constructor; [|exact IH].
  split; [reflexivity|apply same_data_refl].
Qed.

Lemma same_frame_mask_update (mask : Transaction -> bool)
    (c s : string) (df : DataFrame) :
  same_frame df
    (mask_update mask (fun t => set_subcategory s (set_category c t)) df).
Proof.
  unfold mask_update.
  induction df as [|r df IH]; simpl; constructor; [|exact IH].
  destruct (mask (snd r)); simpl.
  - split; [reflexivity|]. unfold same_data. repeat split.
  - split; [reflexivity|apply same_data_refl].
Qed.

Lemma categorize_ignores_old_categories_witness :
  categorize_transactions plain sample_frame default_categories
  = categorize_transactions plain
      (apply_new_category "zzz" "Travel" "Flights" sample_frame)
      default_categories.
Proof.
  apply (categorize_ignores_old_categories plain default_categories
           sample_frame
           (apply_new_category "zzz" "Travel" "Flights" sample_frame)).
  apply same_frame_mask_update.
Defined.

(** X15.  A category chosen by hand does not survive the next run of the
    classifier (the next import, or "Save Category Changes"): the run
    gives what it gives on the ledger without the manual change. *)
Theorem manual_category_is_overwritten (cols : Columns)
    (categories : Categories) (selected_desc new_cat new_subcat : string)
    (transactions : DataFrame) :
  categorize_transactions cols
    (apply_new_category selected_desc new_cat new_subcat transactions)
    categories
  = categorize_transactions cols transactions categories.
Proof.
  symmetry. apply same_frame_categorize, same_frame_mask_update.
Qed.

Lemma categorize_same_frame (cols : Columns) (categories : Categories)
    (df out : DataFrame) :
  categorize_transactions cols df categories = Some out ->
  same_frame df out.
Proof.
  intro H. apply categorize_inv in H. destruct H as (mid & Hmid & ->).
  apply classify_stages_provenance in Hmid.
  pose proof (final_pass_income cols df df mid Hmid) as HF.
  unfold same_frame. clear Hmid.
  induction HF as [|x y l l' Hxy Hl IH]; constructor; [|exact IH].
  destruct Hxy as (Hf & Hdata & _). split; [symmetry; exact Hf|exact Hdata].
Qed.

(** X16.  Classifying twice is classifying once.  For a frame that has the
    column ['subcategory'] (as every frame has that went through the
    classifier), a run on the result of a run, with the same category
    table, returns that result unchanged. *)
Theorem categorize_idempotent (cols : Columns) (categories : Categories)
    (df out : DataFrame)
    (Hcols : has_subcategory cols = true)
    (Hrun : categorize_transactions cols df categories = Some out) :
  categorize_transactions cols out categories = Some out.
Proof.
  rewrite <- (same_frame_categorize cols categories df out
                (categorize_same_frame cols categories df out Hrun)).
  exact Hrun.
Qed.

Lemma categorize_idempotent_witness :
  exists out,
    categorize_transactions (Cols true false false) sample_frame
      default_categories = Some out /\
    categorize_transactions (Cols true false false) out default_categories
    = Some out.
Proof.
  eexists. split.
  - vm_compute. reflexivity.
  - apply (categorize_idempotent (Cols true false false) default_categories
             sample_frame); [reflexivity|].
    vm_compute. reflexivity.
Defined.

(** *** When the run completes and when it raises *)

Lemma iloc_update_some (pos : nat) (f : Transaction -> Transaction)
    (cur : DataFrame) :
  pos < List.length cur ->
  exists out, iloc_update pos f cur = Some out.
Proof.
  revert pos. induction cur as [|r cur IH]; intros pos H; simpl in *.
  - lia.
  - destruct pos as [|p]; [eexists; reflexivity|].
    destruct (IH p) as [out E]; [lia|]. rewrite E. eexists; reflexivity.
Qed.

Lemma iloc_update_none (pos : nat) (f : Transaction -> Transaction)
    (cur : DataFrame) :
  List.length cur <= pos -> iloc_update pos f cur = None.
Proof.
  revert pos. induction cur as [|r cur IH]; intros pos H; simpl in *.
  - reflexivity.
  - destruct pos as [|p]; [lia|]. rewrite (IH p); [reflexivity|lia].
Qed.

Lemma iloc_update_length (pos : nat) (f : Transaction -> Transaction)
    (cur out : DataFrame) :
  iloc_update pos f cur = Some out -> List.length out = List.length cur.
Proof.
  revert pos out. induction cur as [|r cur IH]; intros pos out; simpl.
  - discriminate.
  - destruct pos as [|p].
    + intro E. inversion E. reflexivity.
    + destruct (iloc_update p f cur) as [out'|] eqn:E'; simpl; [|discriminate].
      intro E. inversion E. simpl. rewrite (IH p out' E'). reflexivity.
Qed.

Lemma loc_update_length (idx : nat) (f : Transaction -> Transaction)
    (cur : DataFrame) :
  List.length (loc_update idx f cur) = List.length cur.
Proof. unfold loc_update. apply length_map. Qed.

Lemma keyword_fallback_length (categories : Categories) (idx : nat)
    (desc : string) (cur out : DataFrame) :
  keyword_fallback categories idx desc cur = Some out ->
  List.length out = List.length cur.
Proof.
  intro H. apply keyword_fallback_shape in H.
  destruct H as [->|(best & F & _ & Hupd & _)]; [reflexivity|].
  apply (iloc_update_length _ _ _ _ Hupd).
Qed.

Lemma keyword_fallback_some (categories : Categories) (idx : nat)
    (desc : string) (cur : DataFrame) :
  idx < List.length cur ->
  exists out, keyword_fallback categories idx desc cur = Some out.
Proof.
  intro H. unfold keyword_fallback.
  destruct (best_category categories desc) as [[best|] [|n]];
    try (eexists; reflexivity).
  destruct (is_empty best); [eexists; reflexivity|].
  destruct (iloc_update_some idx (set_category best) cur H) as [cur1 E1].
  rewrite E1.
  assert (H1 : idx < List.length cur1)
    by (rewrite (iloc_update_length _ _ _ _ E1); exact H).
  destruct (best_subcategory (get_or_nil best categories) desc None 0) as [b|].
  - destruct (negb (is_empty b)); [apply iloc_update_some; exact H1|].
    destruct (get_or_nil best categories);
      [eexists; reflexivity|apply iloc_update_some; exact H1].
  - destruct (get_or_nil best categories);
      [eexists; reflexivity|apply iloc_update_some; exact H1].
Qed.

Lemma classify_row_length (cols : Columns) (categories : Categories)
    (df : DataFrame) (idx : nat) (row : Transaction) (cur out : DataFrame) :
  classify_row cols categories df idx row cur = Some out ->
  List.length out = List.length cur.
Proof.
  unfold classify_row.
  destruct (negb (String.eqb (category row) "Uncategorized")).
  { intro H. inversion H. reflexivity. }
  destruct (subcategory_hint cols df idx row) as [hint|]; [|discriminate].
  destruct (match_vendor (description row) hint (amount row)).
  - intro H. inversion H. apply loc_update_length.
  - apply keyword_fallback_length.
Qed.

Lemma subcategory_hint_some (cols : Columns) (df : DataFrame) (idx : nat)
    (row : Transaction) :
  idx < List.length df ->
  exists hint, subcategory_hint cols df idx row = Some hint.
Proof.
  intro H. unfold subcategory_hint.
  destruct (has_subcategory cols); [eexists; reflexivity|].
  destruct (has_cap_subcategory cols).
  - destruct (nth_error df idx) as [r|] eqn:E; [eexists; reflexivity|].
    apply nth_error_None in E. lia.
  - destruct (has_raw_subcategory cols); eexists; reflexivity.
Qed.

Lemma classify_row_some (cols : Columns) (categories : Categories)
    (df : DataFrame) (idx : nat) (row : Transaction) (cur : DataFrame) :
  idx < List.length df -> List.length cur = List.length df ->
  exists out, classify_row cols categories df idx row cur = Some out.
Proof.
  intros Hidx Hlen. unfold classify_row.
  destruct (negb (String.eqb (category row) "Uncategorized"));
    [eexists; reflexivity|].
  destruct (subcategory_hint_some cols df idx row Hidx) as [hint E].
  rewrite E.
  destruct (match_vendor (description row) hint (amount row));
    [eexists; reflexivity|].
  apply keyword_fallback_some. rewrite Hlen. exact Hidx.
Qed.

Lemma classify_loop_some (cols : Columns) (categories : Categories)
    (df : DataFrame) (rows : DataFrame) :
  Forall (fun r => fst r < List.length df) rows ->
  forall cur,
    List.length cur = List.length df ->
    exists out, classify_loop cols categories df rows cur = Some out.
Proof.
  induction 1 as [|[idx row] rows Hidx Hrows IH]; intros cur Hlen; simpl.
  - eexists; reflexivity.
  - destruct (classify_row_some cols categories df idx row cur Hidx Hlen)
      as [cur' E].
    rewrite E. apply IH.
    rewrite (classify_row_length _ _ _ _ _ _ _ E). exact Hlen.
Qed.

(** X17.  The run completes on every frame whose labels are positions of the
    frame (a frame as read from a file, labelled 0, 1, 2, ..., or such a
    frame sorted): no write by position falls outside the frame. *)
Theorem categorize_completes (cols : Columns) (categories : Categories)
    (df : DataFrame)
    (Hrange : labels_in_range df) :
  exists out, categorize_transactions cols df categories = Some out.
Proof.
  unfold categorize_transactions. destruct df as [|r df].
  { eexists; reflexivity. }
  unfold classify_stages.
  destruct (classify_loop_some cols categories (r :: df)
              (map (fun r => (fst r, initial_marks (snd r))) (r :: df)))
    with (cur := map (fun r => (fst r, initial_marks (snd r))) (r :: df))
    as [out E].
  - apply Forall_map. exact Hrange.
  - apply length_map.
  - rewrite E. eexists; reflexivity.
Qed.

Lemma categorize_completes_witness :
  exists out,
    categorize_transactions plain sample_frame default_categories = Some out.
Proof.
  apply (categorize_completes plain default_categories sample_frame).
  unfold labels_in_range, sample_frame.
  repeat constructor.
Defined.

Lemma classify_loop_fails (cols : Columns) (categories : Categories)
    (df : DataFrame) (idx : nat) (row : Transaction) (n : nat) :
  (forall cur, List.length cur = n ->
               classify_row cols categories df idx row cur = None) ->
  forall rows cur,
    In (idx, row) rows -> List.length cur = n ->
    classify_loop cols categories df rows cur = None.
Proof.
  intros Hfail rows. induction rows as [|[i r] rows IH]; intros cur Hin Hlen.
  - contradiction.
  - simpl.
    destruct (classify_row cols categories df i r cur) as [cur'|] eqn:E;
      [|reflexivity].
    destruct Hin as [Heq|Hin].
    + injection Heq as Hi Hr. rewrite Hi, Hr, (Hfail cur Hlen) in E.
      discriminate.
    + apply IH; [exact Hin|].
      rewrite (classify_row_length _ _ _ _ _ _ _ E). exact Hlen.
Qed.

Lemma categorize_raises (cols : Columns) (categories : Categories)
    (df : DataFrame) (idx : nat) (row0 : Transaction) (best : string)
    (score : nat)
    (Hin : In (idx, row0) df)
    (Hlabel : List.length df <= idx)
    (Hmarks : category (initial_marks row0) = "Uncategorized")
    (Hvendor : forall hint,
        subcategory_hint cols df idx (initial_marks row0) = Some hint ->
        match_vendor (description row0) hint (amount row0) = None)
    (Hscore : best_category categories (description row0)
              = (Some best, S score))
    (Hbest : is_empty best = false) :
  categorize_transactions cols df categories = None.
Proof.
  unfold categorize_transactions. destruct df as [|r df]; [contradiction|].
  unfold classify_stages.
  rewrite (classify_loop_fails cols categories (r :: df) idx
             (initial_marks row0) (List.length (r :: df))); [reflexivity| | |].
  - intros cur Hlen. unfold classify_row. rewrite Hmarks. simpl negb. cbv iota.
    destruct (same_data_initial_marks row0) as (_ & Hd & Ha & _).
    rewrite <- Hd, <- Ha.
    destruct (subcategory_hint cols (r :: df) idx (initial_marks row0))
      as [hint|] eqn:Eh; [|reflexivity].
    rewrite (Hvendor hint eq_refl). unfold keyword_fallback. rewrite Hscore, Hbest.
    rewrite iloc_update_none; [reflexivity|]. rewrite Hlen. exact Hlabel.
  - apply (in_map (fun r => (fst r, initial_marks (snd r))) _ _ Hin).
  - apply length_map.
Qed.

(** X18.  The run raises ([IndexError]) when some row has a label that is no
    position of the frame, the sign corrections leave it Uncategorized,
    the vendor matcher has no answer for it (with the hint the loop
    hands over) and the keyword scoring has one: the scored category is written by position, at the label. *)
Theorem categorize_raises_on_label (cols : Columns) (categories : Categories)
    (df : DataFrame) (idx : nat) (row0 : Transaction) (best : string)
    (score : nat)
    (Hin : In (idx, row0) df)
    (Hlabel : List.length df <= idx)
    (Hmarks : category (initial_marks row0) = "Uncategorized")
    (Hvendor : forall hint,
        subcategory_hint cols df idx (initial_marks row0) = Some hint ->
        match_vendor (description row0) hint (amount row0) = None)
    (Hscore : best_category categories (description row0)
              = (Some best, S score))
    (Hbest : is_empty best = false) :
  categorize_transactions cols df categories = None.
Proof.
  exact (categorize_raises cols categories df idx row0 best score
           Hin Hlabel Hmarks Hvendor Hscore Hbest).
Qed.

Lemma categorize_raises_on_label_witness :
  categorize_transactions plain relabelled_frame default_categories = None.
Proof.
  apply (categorize_raises_on_label plain default_categories relabelled_frame
           7 (tx "coffee shop" (-3)) "Food" 0).
  - left. reflexivity.
  - unfold relabelled_frame. simpl. lia.
  - vm_compute. reflexivity.
  - intros hint H. vm_compute in H. inversion H. vm_compute. reflexivity.
  - vm_compute. reflexivity.
  - reflexivity.
Defined.

End ClassifierMore.

(** ** The categories of the ledger *)

Module LedgerCategories.

Import PyStr VendorDatabase VendorAnswers Frame DataProcessor Ledger.
Import DataProcessorFacts.
Local Open Scope nat_scope.
Local Open Scope string_scope.
Local Open Scope list_scope.

Lemma initial_marks_category (t : Transaction) :
  mem (category (initial_marks t)) ledger_categories = true.
Proof. unfold initial_marks. case_ifs; reflexivity. Qed.

Lemma vendor_category_in_ledger (c : string) :
  mem c vendor_categories = true -> In c ledger_categories.
Proof.
  intro H. apply VendorMore.mem_In in H. right. apply in_or_app. left.
  exact H.
Qed.

Lemma keyword_category_in_ledger (c : string) :
  In c (map fst category_keywords) -> In c ledger_categories.
Proof.
  intro H. unfold ledger_categories. apply in_cons, in_or_app. right.
  exact H.
Qed.

Lemma final_pass_categories (cols : Columns) (df df0 mid0 : DataFrame) :
  Forall2 (provenance cols df) df0 mid0 ->
  Forall (fun e => In (category (snd e)) ledger_categories)
         (final_pass mid0).
Proof.
  unfold final_pass, mask_update.
  induction 1 as [|e0 e df1 mid1 He Hrest IH]; simpl; constructor;
    [|exact IH].
  destruct (remaining_uncategorized (snd e)); simpl.
  { apply vendor_category_in_ledger. reflexivity. }
  destruct He as (_ & _ & [[Hc _]|[Hv|Hk]]).
  - rewrite Hc.
    apply (proj1 (VendorMore.mem_In _ ledger_categories)),
      initial_marks_category.
  - destruct Hv as (t0 & hint & _ & _ & Hm).
    apply vendor_category_in_ledger.
    apply (VendorMore.match_vendor_known _ _ _ _ Hm).
  - apply keyword_category_in_ledger. exact Hk.
Qed.

(** X19.  Every category of a classified frame is "Uncategorized", one of the
    21 categories of the vendor table or one of the 10 keys of the keyword
    table, whatever the caller's category table holds: the classifier
    never writes a name of the caller's table that is not among these. *)
Theorem categorize_categories (cols : Columns) (categories : Categories)
    (df out : DataFrame)
    (Hrun : categorize_transactions cols df categories = Some out) :
  Forall (fun e => In (category (snd e)) ledger_categories) out.
Proof.
  apply categorize_inv in Hrun. destruct Hrun as (mid & Hmid & ->).
  apply (final_pass_categories cols df df mid).
  apply classify_stages_provenance with (1 := Hmid).
Qed.

Lemma categorize_categories_witness :
  exists out,
    categorize_transactions plain sample_frame default_categories = Some out /\
    Forall (fun e => In (category (snd e)) ledger_categories) out.
Proof.
  eexists. split.
  - vm_compute. reflexivity.
  - apply (categorize_categories plain default_categories sample_frame).
    vm_compute. reflexivity.
Defined.

End LedgerCategories.

(** ** More on the ledger of app.py *)

Module LedgerMore.

Import PyStr VendorDatabase Frame DataProcessor App Ledger Statements.
Import AppFacts DataProcessorFacts ImportFacts.
Local Open Scope nat_scope.
Local Open Scope string_scope.
Local Open Scope list_scope.

(** *** Removing a statement *)

Lemma rows_remove_statement (id : string) (df : DataFrame) :
  rows (remove_statement id df) = filter (kept id) (rows df).
Proof.
  unfold remove_statement, rows, kept.
  induction df as [|r df IH]; simpl; [reflexivity|].
  destruct (negb (String.eqb (statement_id (snd r)) id)); simpl;
    rewrite IH; reflexivity.
Qed.

Lemma filter_perm (A : Type) (f : A -> bool) (l l' : list A) :
  Permutation l l' -> Permutation (filter f l) (filter f l').
Proof.
  induction 1 as [|x l l' H IH|x y l|l l' l'' H1 IH1 H2 IH2]; simpl.
  - constructor.
  - destruct (f x); [constructor|]; exact IH.
  - destruct (f x), (f y); try reflexivity. constructor.
  - exact (Permutation_trans IH1 IH2).
Qed.

Lemma filter_sorted (f : Transaction -> bool) (l : list Transaction) :
  date_descending l -> date_descending (filter f l).
Proof.
  unfold date_descending.
  induction 1 as [|x l Hl IH Hx]; simpl; [constructor|].
  destruct (f x); [|exact IH].
  constructor; [exact IH|].
  apply Forall_forall. intros y Hy. apply filter_In in Hy.
  rewrite Forall_forall in Hx. apply Hx. tauto.
Qed.

Lemma filter_all (A : Type) (f : A -> bool) (l : list A) :
  (forall x, In x l -> f x = true) -> filter f l = l.
Proof.
  induction l as [|x l IH]; intro H; simpl; [reflexivity|].
  rewrite (H x (or_introl eq_refl)), IH; [reflexivity|].
  intros y Hy. apply H. right. exact Hy.
Qed.

Lemma filter_none (A : Type) (f : A -> bool) (l : list A) :
  (forall x, In x l -> f x = false) -> filter f l = [].
Proof.
  induction l as [|x l IH]; intro H; simpl; [reflexivity|].
  rewrite (H x (or_introl eq_refl)). apply IH.
  intros y Hy. apply H. right. exact Hy.
Qed.

Lemma firsts_from_incl (l earlier : list Transaction) (t : Transaction) :
  In t (firsts_from earlier l) -> In t l.
Proof.
  intro H. apply firsts_from_spec in H.
  destruct H as (pre & post & -> & _). apply in_or_app. right. left.
  reflexivity.
Qed.

Lemma kept_rows (id : string) (df : DataFrame) (t : Transaction) :
  Forall (fun r => statement_id (snd r) <> id) df ->
  In t (rows df) -> kept id t = true.
Proof.
  intros H Hin. unfold rows in Hin. apply in_map_iff in Hin.
  destruct Hin as (r & <- & Hr). rewrite Forall_forall in H.
  unfold kept. apply negb_true_iff, String.eqb_neq, (H r Hr).
Qed.

Lemma removed_rows (id : string) (df : DataFrame) (t : Transaction) :
  Forall (fun r => statement_id (snd r) = id) df ->
  In t (rows df) -> kept id t = false.
Proof.
  intros H Hin. unfold rows in Hin. apply in_map_iff in Hin.
  destruct Hin as (r & <- & Hr). rewrite Forall_forall in H.
  unfold kept. apply negb_false_iff, String.eqb_eq, (H r Hr).
Qed.

(** X22.  Removing a statement right after its merge gives the ledger back:
    what is left are the rows the ledger had (each key once), by date,
    latest first.  A row of the statement that repeats a row of the ledger
    was dropped by the merge, so no row of the ledger is lost. *)
Theorem remove_undoes_merge (id : string) (current new : DataFrame)
    (Hcur : Forall (fun r => statement_id (snd r) <> id) current)
    (Hnew : Forall (fun r => statement_id (snd r) = id) new) :
  let left := rows (remove_statement id (merge current new)) in
  date_descending left /\ Permutation left (firsts (rows current)).
Proof.
  intro left. unfold left. rewrite rows_remove_statement. split.
  { apply filter_sorted. unfold merge. apply sort_values_sorted. }
  destruct current as [|r current].
  - unfold merge.
    rewrite (filter_perm _ (kept id) _ _ (rows_sort_perm new)).
    rewrite filter_none; [constructor|].
    intros t Ht. apply (removed_rows id new t Hnew Ht).
  - apply Permutation_trans
      with (filter (kept id) (firsts (rows (r :: current) ++ rows new)));
      [apply filter_perm, rows_merge_cons|].
    assert (E : firsts (rows (r :: current) ++ rows new)
                = firsts (rows (r :: current))
                  ++ firsts_from (rows (r :: current)) (rows new))
      by (unfold firsts; apply firsts_from_app).
    rewrite E, filter_app.
    rewrite (filter_all _ (kept id) (firsts (rows (r :: current)))).
    + rewrite filter_none; [rewrite app_nil_r; reflexivity|].
      intros t Ht. apply firsts_from_incl in Ht.
      apply (removed_rows id new t Hnew Ht).
    + intros t Ht. apply firsts_from_incl in Ht.
      apply (kept_rows id (r :: current) t Hcur Ht).
Qed.

Lemma remove_undoes_merge_witness :
  let left := rows (remove_statement "february.csv"
                      (merge [(0, old_row)] february)) in
  date_descending left /\ Permutation left (firsts (rows [(0, old_row)])).
Proof.
  apply (remove_undoes_merge "february.csv" [(0, old_row)] february).
  - constructor; [|constructor]. simpl. discriminate.
  - constructor; [|constructor]. reflexivity.
Defined.

(** *** A statement that overlaps the ledger *)

Lemma combine_snoc (A B : Type) (l : list A) (m : list B) (a : A) (b : B) :
  List.length l = List.length m ->
  combine (l ++ [a]) (m ++ [b]) = combine l m ++ [(a, b)].
Proof.
  revert m. induction l as [|x l IH]; intros [|y m] H; simpl in *;
    try discriminate; [reflexivity|].
  rewrite IH; [reflexivity|]. congruence.
Qed.

Lemma concat_snoc (a b : DataFrame) (r : nat * Transaction) :
  concat a (b ++ [r])
  = concat a b ++ [(List.length a + List.length b, snd r)].
Proof.
  unfold concat. rewrite app_assoc, map_app. simpl map.
  rewrite length_app. simpl List.length.
  rewrite Nat.add_1_r, seq_S, length_map, length_app. simpl.
  apply combine_snoc. rewrite length_seq, length_map, length_app. reflexivity.
Qed.

Lemma drop_duplicates_from_snoc (df : DataFrame) (r : nat * Transaction) :
  forall seen,
    key_seen seen (snd r) = false ->
    key_seen (rows df) (snd r) = false ->
    drop_duplicates_from seen (df ++ [r])
    = drop_duplicates_from seen df ++ [r].
Proof.
  induction df as [|x df IH]; intros seen Hseen Hrows; simpl.
  - rewrite Hseen. reflexivity.
  - change (rows (x :: df)) with (snd x :: rows df) in Hrows.
    rewrite key_seen_cons in Hrows. apply orb_false_iff in Hrows.
    destruct Hrows as [Hx Hdf].
    destruct (key_seen seen (snd x)).
    + apply IH; assumption.
    + simpl. f_equal. apply IH; [|exact Hdf].
      rewrite key_seen_cons, Hx, Hseen. reflexivity.
Qed.

Lemma firsts_from_length_le (l earlier : list Transaction) :
  List.length (firsts_from earlier l) <= List.length l.
Proof.
  revert earlier. induction l as [|x l IH]; intro earlier; simpl; [lia|].
  specialize (IH (earlier ++ [x])).
  destruct (key_seen earlier x); simpl; lia.
Qed.

Lemma firsts_from_length_lt (l earlier : list Transaction)
    (t : Transaction) :
  In t l -> key_seen earlier t = true ->
  List.length (firsts_from earlier l) < List.length l.
Proof.
  revert earlier. induction l as [|x l IH]; intros earlier Hin Hseen;
    [contradiction|].
  simpl. destruct Hin as [->|Hin].
  - rewrite Hseen. pose proof (firsts_from_length_le l (earlier ++ [t])). lia.
  - assert (H : List.length (firsts_from (earlier ++ [x]) l) < List.length l).
    { apply IH; [exact Hin|]. rewrite key_seen_app, Hseen. reflexivity. }
    destruct (key_seen earlier x); simpl; lia.
Qed.

(** X23.  Importing a statement into a ledger that has rows raises when the
    statement repeats a row of the ledger and ends with a new row that
    only the keyword scoring can classify: the merge numbers the rows
    0, 1, 2, ..., drops the repeated row and keeps the labels, so the label
    of the last row is no position of the merged frame, and the scored
    category is written by position. *)
Theorem overlapping_import_raises (cols : Columns) (categories : Categories)
    (r : nat * Transaction) (current earlier : DataFrame)
    (dup last : Transaction) (label : nat) (best : string) (score : nat)
    (Hcols : has_subcategory cols = true)
    (Hdup : In dup (rows earlier))
    (Hseen : key_seen (rows (r :: current)) dup = true)
    (Hnew : key_seen (rows (r :: current) ++ rows earlier) last = false)
    (Hmarks : category (initial_marks last) = "Uncategorized")
    (Hvendor : match_vendor (description last)
                 (Some (subcategory (initial_marks last))) (amount last)
               = None)
    (Hscore : best_category categories (description last)
              = (Some best, S score))
    (Hbest : is_empty best = false) :
  import_statement cols categories (r :: current)
    (earlier ++ [(label, last)]) = None.
Proof.
  unfold import_statement.
  set (n := List.length (r :: current) + List.length earlier).
  assert (Hcat : concat (r :: current) (earlier ++ [(label, last)])
                 = concat (r :: current) earlier ++ [(n, last)])
    by apply concat_snoc.
  assert (Hkeep : drop_duplicates
                    (concat (r :: current) (earlier ++ [(label, last)]))
                  = drop_duplicates (concat (r :: current) earlier)
                    ++ [(n, last)]).
  { rewrite Hcat. unfold drop_duplicates.
    apply drop_duplicates_from_snoc; [reflexivity|].
    rewrite rows_concat. exact Hnew. }
  assert (Hlen : List.length
                   (drop_duplicates (concat (r :: current) earlier)) < n).
  { rewrite <- rows_length, rows_drop_duplicates, rows_concat.
    unfold firsts. rewrite firsts_from_app, length_app.
    change ([] ++ rows (r :: current)) with (rows (r :: current)).
    pose proof (firsts_from_length_le (rows (r :: current)) []) as H1.
    pose proof (firsts_from_length_lt (rows earlier) (rows (r :: current))
                  dup Hdup Hseen) as H2.
    unfold n. rewrite <- (rows_length (r :: current)), <- (rows_length earlier).
    lia. }
  apply (ClassifierMore.categorize_raises cols categories _ n last best score).
  - unfold merge. rewrite Hkeep.
    apply (Permutation_in _ (Permutation_sym (sort_values_perm _))).
    apply in_or_app. right. left. reflexivity.
  - unfold merge. rewrite sort_values_length, Hkeep, length_app.
    change (List.length [(n, last)]) with 1. lia.
  - exact Hmarks.
  - intros hint Hh. unfold subcategory_hint in Hh. rewrite Hcols in Hh.
    inversion Hh. exact Hvendor.
  - exact Hscore.
  - exact Hbest.
Qed.

Lemma overlapping_import_raises_witness :
  import_statement (Cols true false false) default_categories
    [(0, old_row)] (february ++ [(1, new_row)]) = None.
Proof.
  apply (overlapping_import_raises (Cols true false false) default_categories
           (0, old_row) [] february
           (Tx 20240105 "COFFEE" (- (7 # 2)) EmptyString EmptyString None None
               "february.csv")
           new_row 1 "Food" 0).
  - reflexivity.
  - left. reflexivity.
  - vm_compute. reflexivity.
  - vm_compute. reflexivity.
  - vm_compute. reflexivity.
  - vm_compute. reflexivity.
  - vm_compute. reflexivity.
  - reflexivity.
Defined.

(** *** The double import through the handler *)

Lemma same_rows_refl (df : DataFrame) : same_rows df df.
Proof.
  induction df as [|r df IH]; constructor; [apply same_key_refl|exact IH].
Qed.

Lemma import_twice_through_handler_witness :
  exists once twice,
    import_statement plain default_categories [] ten_rows = Some once /\
    import_statement plain default_categories once ten_rows = Some twice /\
    List.length twice = List.length ten_rows.
Proof.
  eexists. eexists.
  split; [vm_compute; reflexivity|].
  split; [vm_compute; reflexivity|].
  eapply (import_twice_through_handler plain default_categories
            ten_rows ten_rows).
  - exact ten_rows_distinct.
  - apply same_rows_refl.
  - vm_compute. reflexivity.
  - vm_compute. reflexivity.
Defined.

End LedgerMore.

(** ** The summary, the charts and the tax settings *)

Module ReportFacts.

Import PyStr TaxCalculator TaxTable Frame App Reports.
Import TaxFacts.
Local Open Scope list_scope.

(** *** [calculate_summary] *)

Lemma sum_amounts_app (a b : list Transaction) :
  sum_amounts (a ++ b) == sum_amounts a + sum_amounts b.
Proof.
  induction a as [|t a IH]; simpl; [lra|]. rewrite IH. lra.
Qed.

Lemma sum_abs_nonneg (l : list Transaction) : 0 <= sum_abs l.
Proof.
  induction l as [|t l IH]; simpl; [lra|].
  pose proof (Qabs_nonneg (amount t)). lra.
Qed.

Lemma Qabs_of_nonneg (x : Q) : 0 <= x -> Qabs x == x.
Proof. intro H. rewrite Qabs_pos; [reflexivity|exact H]. Qed.

Lemma Qabs_of_nonpos (x : Q) : x <= 0 -> Qabs x == - x.
Proof. intro H. rewrite Qabs_neg; [reflexivity|exact H]. Qed.

(** The incomes add up to their absolute amounts. *)
Lemma income_sum (l : list Transaction) :
  sum_amounts
    (map (fun t => if Qlt_bool (amount t) 0
                   then set_amount (Qabs (amount t)) t else t) l)
  == sum_abs l.
Proof.
  induction l as [|t l IH]; simpl; [lra|]. rewrite IH.
  destruct (Qlt_bool (amount t) 0) eqn:E; simpl; [lra|].
  qbool. rewrite (Qabs_of_nonneg _ E). lra.
Qed.

(** The plain expenses add up to minus their absolute amounts. *)
Lemma expense_sum (l : list Transaction) :
  sum_amounts
    (map (fun t => if Qlt_bool 0 (amount t)
                   then set_amount (- amount t) t else t) l)
  == - sum_abs l.
Proof.
  induction l as [|t l IH]; simpl; [lra|]. rewrite IH.
  destruct (Qlt_bool 0 (amount t)) eqn:E; simpl; qbool.
  - rewrite (Qabs_of_nonneg (amount t)); lra.
  - rewrite (Qabs_of_nonpos _ E). lra.
Qed.

Lemma total_income_eq (df : DataFrame) :
  total_income (calculate_summary df)
  == sum_abs (filter income_mask (rows df)).
Proof.
  destruct df as [|r df]; [simpl; lra|].
  unfold calculate_summary, total_income, income_df. apply income_sum.
Qed.

(** X24.  The totals are never negative, the net savings never exceed the
    income and the savings rate never exceeds 100, whatever the ledger. *)
Theorem summary_bounds (df : DataFrame) :
  let s := calculate_summary df in
  0 <= total_income s /\ 0 <= total_expenses s /\
  net_savings s <= total_income s /\ savings_rate s <= 100.
Proof.
  intro s.
  assert (Hinc : 0 <= total_income s).
  { subst s. rewrite total_income_eq. apply sum_abs_nonneg. }
  subst s. destruct df as [|r df]; [simpl; repeat split; lra|].
  unfold calculate_summary in *. simpl total_income in *.
  simpl total_expenses. simpl net_savings. simpl savings_rate.
  set (inc := sum_amounts (income_df (r :: df))) in *.
  set (ex := Qabs (sum_amounts (expense_df (r :: df)))).
  assert (Hex : 0 <= ex) by apply Qabs_nonneg.
  split; [exact Hinc|]. split; [exact Hex|]. split; [lra|].
  destruct (Qlt_bool 0 inc) eqn:E; [|lra]. qbool.
  assert (Hdiv : (inc - ex) / inc <= 1).
  { apply Qle_shift_div_r; [assumption|lra]. }
  lra.
Qed.

Lemma sum_abs_split (f : Transaction -> bool) (l : list Transaction) :
  sum_abs (filter f l) + sum_abs (filter (fun t => negb (f t)) l)
  == sum_abs l.
Proof.
  induction l as [|t l IH]; simpl; [lra|].
  destruct (f t); simpl; lra.
Qed.

Lemma filter_ext_in_rows (f g : Transaction -> bool) (l : list Transaction) :
  (forall t, In t l -> f t = g t) -> filter f l = filter g l.
Proof.
  induction l as [|t l IH]; intro H; simpl; [reflexivity|].
  rewrite (H t (or_introl eq_refl)), IH; [reflexivity|].
  intros u Hu. apply H. right. exact Hu.
Qed.

Lemma filter_false (f : Transaction -> bool) (l : list Transaction) :
  (forall t, In t l -> f t = false) -> filter f l = [].
Proof.
  induction l as [|t l IH]; intro H; simpl; [reflexivity|].
  rewrite (H t (or_introl eq_refl)). apply IH.
  intros u Hu. apply H. right. exact Hu.
Qed.



Lemma income_transfer_exclusive (t : Transaction) :
  income_mask t = true -> transfer_mask t = false.
Proof.
  unfold income_mask, transfer_mask. intro H.
  apply String.eqb_eq in H. rewrite H. reflexivity.
Qed.

Lemma counts_of_rows (l : list Transaction) :
  (List.length (filter income_mask l)
   + (List.length (filter expense_mask l)
      + (List.length (filter transfer_mask l)
         + List.length (filter payward_mask l))))%nat
  = (List.length l + List.length (filter counted_twice l))%nat.
Proof.
  induction l as [|t l IH]; [reflexivity|].
  assert (He : expense_mask t
               = (negb (income_mask t) && negb (transfer_mask t)
                  && negb (payward_mask t))%bool) by reflexivity.
  assert (Hc : counted_twice t
               = (payward_mask t && (income_mask t || transfer_mask t))%bool)
    by reflexivity.
  cbn [filter]. rewrite He, Hc.
  destruct (income_mask t) eqn:Ei.
  - rewrite (income_transfer_exclusive t Ei).
    destruct (payward_mask t); cbn [negb andb orb List.length]; lia.
  - destruct (transfer_mask t), (payward_mask t);
      cbn [negb andb orb List.length]; lia.
Qed.

(** X26.  The two counts of ['transaction_types'] add up to the number of rows
    plus the number of rows counted twice: a row of Payward that is also
    an income or a transfer is counted on two sides or twice among the
    expenses. *)
Theorem summary_counts (df : DataFrame) :
  let s := calculate_summary df in
  (income_count s + expense_count s)%nat
  = (List.length df + List.length (filter counted_twice (rows df)))%nat.
Proof.
  intro s. subst s. destruct df as [|r df]; [reflexivity|].
  unfold calculate_summary, income_count, expense_count, income_df,
    expense_df.
  rewrite !length_app, !length_map.
  rewrite counts_of_rows. unfold rows. rewrite length_map. reflexivity.
Qed.

(** *** [plot_income_vs_expense] *)

Lemma sum_by_sign (l : list Transaction) :
  sum_amounts (filter (fun t => Qlt_bool 0 (amount t)) l)
  + sum_amounts (filter (fun t => Qlt_bool (amount t) 0) l)
  == sum_amounts l.
Proof.
  induction l as [|t l IH]; simpl; [lra|].
  destruct (Qlt_bool 0 (amount t)) eqn:E1;
    destruct (Qlt_bool (amount t) 0) eqn:E2; simpl; qbool; lra.
Qed.

Lemma sum_positive (l : list Transaction) :
  sum_amounts (filter (fun t => Qlt_bool 0 (amount t)) l)
  == sum_abs (filter (fun t => Qlt_bool 0 (amount t)) l)
  /\ 0 <= sum_amounts (filter (fun t => Qlt_bool 0 (amount t)) l).
Proof.
  induction l as [|t l [IH1 IH2]]; simpl; [split; lra|].
  destruct (Qlt_bool 0 (amount t)) eqn:E; simpl; [|split; assumption].
  qbool. rewrite (Qabs_of_nonneg (amount t)); [|lra]. split; lra.
Qed.

Lemma sum_negative (l : list Transaction) :
  sum_amounts (filter (fun t => Qlt_bool (amount t) 0) l) <= 0.
Proof.
  induction l as [|t l IH]; simpl; [lra|].
  destruct (Qlt_bool (amount t) 0) eqn:E; simpl; [|assumption].
  qbool. lra.
Qed.


(** *** The tax estimate of the dashboard *)

Lemma annual_income_of_result (income : Q) (brackets : list bracket) :
  annual_income (calculate_tax_liability income brackets) = income.
Proof.
  unfold calculate_tax_liability.
  destruct (bracket_loop (sorted_brackets brackets) 0 income []).
  reflexivity.
Qed.

Lemma annual_income_estimate_nonneg (total : Q) (days : Z) :
  0 <= total -> 0 <= annual_income_estimate total days.
Proof.
  intro H. unfold annual_income_estimate.
  destruct (Z.ltb 0 days) eqn:E; [|lra].
  apply Z.ltb_lt in E.
  apply Qmult_le_0_compat; [exact H|].
  apply Qle_shift_div_l.
  - change 0 with (inject_Z 0). rewrite <- Zlt_Qlt. exact E.
  - lra.
Qed.

Lemma zero_income_owes_nothing (brackets : list bracket) :
  let r := calculate_tax_liability 0 brackets in
  total_tax r == 0 /\ bracket_breakdown r = [].
Proof.
  unfold calculate_tax_liability.
  destruct (sorted_brackets brackets) as [|b bs]; [split; reflexivity|].
  cbn [bracket_loop].
  change (bracket_income 0 b) with 0.
  change (Qle_bool (0 - 0) 0) with true.
  change (Qlt_bool 0 0) with false.
  cbn. split; [ring|reflexivity].
Qed.

(** X28.  The estimate of the dashboard is never negative, for every ledger and
    every range of dates: with a table whose spans are not reversed and
    whose rates are not negative the annual income and the tax are 0 or
    more.  For a range of no days the estimate is an income of 0, a tax of
    0 and an empty breakdown, whatever the ledger holds. *)
Theorem dashboard_tax_nonneg (filtered_data : DataFrame) (days : Z)
    (tax_brackets : list bracket)
    (Hspan : Forall span_ok tax_brackets)
    (Hrate : Forall rate_ok tax_brackets) :
  let r := dashboard_tax filtered_data days tax_brackets in
  0 <= annual_income r /\ 0 <= total_tax r /\
  ((days <= 0)%Z ->
   annual_income r = 0 /\ total_tax r == 0 /\ bracket_breakdown r = []).
Proof.
  intro r. subst r. unfold dashboard_tax.
  rewrite annual_income_of_result.
  split; [|split].
  - apply annual_income_estimate_nonneg.
    rewrite total_income_eq. apply sum_abs_nonneg.
  - rewrite total_tax_eq.
    apply tax_from_nonneg; apply sorted_brackets_Forall; assumption.
  - intro Hdays. unfold annual_income_estimate.
    assert (E : Z.ltb 0 days = false) by (apply Z.ltb_ge; exact Hdays).
    rewrite E. split; [reflexivity|].
    apply zero_income_owes_nothing.
Qed.

Lemma dashboard_tax_nonneg_witness :
  let r := dashboard_tax march 30 default_tax_brackets in
  0 <= annual_income r /\ 0 <= total_tax r /\
  ((30 <= 0)%Z ->
   annual_income r = 0 /\ total_tax r == 0 /\ bracket_breakdown r = []).
Proof.
  apply (dashboard_tax_nonneg march 30 default_tax_brackets).
  - exact default_table_span_ok.
  - exact default_table_rate_ok.
Defined.

(** *** "Add New Tax Bracket" *)

Lemma finite_maxes_nil (l : list bracket) :
  finite_maxes l = [] <-> Forall (fun b => b_max b = Inf) l.
Proof.
  unfold finite_maxes. induction l as [|b l IH]; simpl.
  - split; [constructor|reflexivity].
  - destruct (b_max b) as [q|] eqn:E; simpl.
    + split; [discriminate|]. intro H. inversion H; subst. congruence.
    + rewrite IH. split.
      * intro H. constructor; [exact E|exact H].
      * intro H. inversion H; assumption.
Qed.

(** X29.  The button raises ([ValueError], the maximum of an empty list) exactly
    on a table that has brackets, all of them open: on a table of one
    bracket, for one. *)
Theorem add_new_tax_bracket_raises (updated_brackets : list bracket) :
  add_new_tax_bracket updated_brackets = None <->
  updated_brackets <> [] /\
  Forall (fun b => b_max b = Inf) updated_brackets.
Proof.
  unfold add_new_tax_bracket. destruct updated_brackets as [|b l].
  - split; [discriminate|]. intros [H _]. contradiction.
  - rewrite <- finite_maxes_nil. unfold max_of.
    destruct (finite_maxes (b :: l)) as [|x t].
    + split; [intros _; split; [discriminate|reflexivity]|reflexivity].
    + split; [discriminate|]. intros [_ H]. discriminate.
Qed.

Lemma finite_maxes_cons (b : bracket) (l : list bracket) :
  finite_maxes (b :: l)
  = match b_max b with
    | Fin q => q :: finite_maxes l
    | Inf => finite_maxes l
    end.
Proof. unfold finite_maxes. simpl. destruct (b_max b); reflexivity. Qed.

Lemma fold_max_chain (t : list bracket) :
  forall (c : bracket) (m : Q),
    contiguous (c :: t) -> Forall span_ok (c :: t) -> m == b_min c ->
    fold_left (fun m y => if Qlt_bool m y then y else m)
              (finite_maxes (c :: t)) m
    == b_min (last_bracket (c :: t)).
Proof.
  induction t as [|d t IH]; intros c m Hc Hs Hm.
  - simpl in Hc. rewrite finite_maxes_cons, Hc. simpl. exact Hm.
  - destruct Hc as [Hq Hc]. inversion Hs as [|? ? Hsc Hst]; subst.
    unfold span_ok in Hsc. rewrite finite_maxes_cons.
    destruct (b_max c) as [q|] eqn:E; [|contradiction].
    cbn [fold_left].
    change (last_bracket (c :: d :: t)) with (last_bracket (d :: t)).
    apply IH; [exact Hc|exact Hst|].
    destruct (Qlt_bool m q) eqn:Elt; qbool; lra.
Qed.

Lemma max_of_contiguous (b c : bracket) (t : list bracket) :
  contiguous (b :: c :: t) -> Forall span_ok (b :: c :: t) ->
  exists last_max,
    max_of (finite_maxes (b :: c :: t)) = Some last_max /\
    last_max == b_min (last_bracket (b :: c :: t)).
Proof.
  intros [Hq Hc] Hs. inversion Hs as [|? ? Hsb Hst]; subst.
  rewrite finite_maxes_cons.
  destruct (b_max b) as [q|] eqn:E; [|contradiction].
  unfold max_of. eexists. split; [reflexivity|].
  change (last_bracket (b :: c :: t)) with (last_bracket (c :: t)).
  apply fold_max_chain; assumption.
Qed.

Lemma closed_table (M r : Q) (l : list bracket) :
  contiguous l -> Forall span_ok l -> b_min (last_bracket l) <= M ->
  let l' := map (fun b => match b_max b with
                          | Inf => Bracket (b_min b) (Fin M) (b_rate b)
                          | Fin _ => b
                          end) l
            ++ [Bracket M Inf r] in
  contiguous l' /\ Forall span_ok l'.
Proof.
  induction l as [|b l IH]; intros Hc Hs Hlast; [contradiction|].
  inversion Hs as [|? ? Hsb Hsl]; subst.
  destruct l as [|c l].
  - simpl in Hc. simpl. rewrite Hc. simpl. split.
    + split; reflexivity.
    + constructor; [unfold span_ok; simpl; exact Hlast|].
      constructor; [exact I|constructor].
  - destruct Hc as [Hq Hc].
    destruct (b_max b) as [q|] eqn:E; [|contradiction].
    destruct (IH Hc Hsl Hlast) as [IHc IHs].
    simpl map. rewrite E.
    change ((b :: ?x :: ?y) ++ ?z) with (b :: (x :: y) ++ z).
    split.
    + simpl in IHc |- *. rewrite E. split; [|exact IHc].
      destruct (b_max c); exact Hq.
    + constructor; [exact Hsb|exact IHs].
Qed.

Lemma last_bracket_snoc (l : list bracket) (b : bracket) :
  last_bracket (l ++ [b]) = b.
Proof. unfold last_bracket. apply last_last. Qed.

(** X30.  On a table without gaps that has two brackets or more the button
    keeps the table in shape: the open bracket is closed 50000 above its
    lower bound, a new open bracket begins there, and the new table is
    again without gaps and without a reversed span. *)
Theorem add_new_tax_bracket_keeps_table (updated_brackets : list bracket)
    (Hgaps : contiguous updated_brackets)
    (Hspan : Forall span_ok updated_brackets)
    (Htwo : (2 <= List.length updated_brackets)%nat) :
  exists table,
    add_new_tax_bracket updated_brackets = Some table /\
    contiguous table /\ Forall span_ok table /\
    List.length table = S (List.length updated_brackets) /\
    b_min (last_bracket table)
    == b_min (last_bracket updated_brackets) + 50000.
Proof.
  destruct updated_brackets as [|b [|c t]]; simpl in Htwo; try lia.
  destruct (max_of_contiguous b c t Hgaps Hspan) as (last_max & Emax & Hmax).
  unfold add_new_tax_bracket. rewrite Emax.
  eexists. split; [reflexivity|].
  destruct (closed_table (last_max + 50000) (37 # 100) (b :: c :: t)
              Hgaps Hspan) as [Hc Hs]; [lra|].
  split; [exact Hc|]. split; [exact Hs|]. split.
  - rewrite length_app, length_map. simpl. lia.
  - rewrite last_bracket_snoc. simpl. lra.
Qed.

Lemma default_table_contiguous : contiguous default_tax_brackets.
Proof. simpl. repeat split; reflexivity. Qed.

Lemma add_new_tax_bracket_keeps_table_witness :
  exists table,
    add_new_tax_bracket default_tax_brackets = Some table /\
    contiguous table /\ Forall span_ok table /\
    List.length table = S (List.length default_tax_brackets) /\
    b_min (last_bracket table)
    == b_min (last_bracket default_tax_brackets) + 50000.
Proof.
  apply (add_new_tax_bracket_keeps_table default_tax_brackets).
  - exact default_table_contiguous.
  - exact default_table_span_ok.
  - simpl. lia.
Defined.

End ReportFacts.

(** ** The tax calculator in floating point *)

Module TaxRounding.

Import TaxCalculator TaxTable TaxFacts.

Section Rounded.

Variable rnd : Q -> Q.
Hypothesis Hrnd : TaxFloat.rounding rnd.

Lemma rnd_mono (x y : Q) : x <= y -> rnd x <= rnd y.
Proof. apply Hrnd. Qed.

Lemma rnd_idem (x : Q) : rnd (rnd x) == rnd x.
Proof. apply Hrnd. Qed.

Lemma rnd_proper (x y : Q) : x == y -> rnd x == rnd y.
Proof.
  intro H. apply Qle_antisym; apply rnd_mono; rewrite H; apply Qle_refl.
Qed.

Lemma rnd_exact (x : Q) :
  TaxFloat.integer x -> - (2 * TaxFloat.limit) <= x ->
  x <= 2 * TaxFloat.limit -> rnd x == x.
Proof.
  intros [z Hz] Hlo Hhi. rewrite (rnd_proper x (inject_Z z) Hz), Hz.
  apply Hrnd; rewrite <- Hz; assumption.
Qed.

Lemma rnd_le_exact (x y : Q) :
  x <= y -> TaxFloat.integer y -> - (2 * TaxFloat.limit) <= y ->
  y <= 2 * TaxFloat.limit -> rnd x <= y.
Proof.
  intros Hxy Hi Hlo Hhi. apply Qle_trans with (rnd y).
  - apply rnd_mono. exact Hxy.
  - rewrite (rnd_exact y Hi Hlo Hhi). apply Qle_refl.
Qed.

Lemma rnd_zero : rnd 0 == 0.
Proof.
  apply rnd_exact; [exists 0%Z; reflexivity| |];
    unfold TaxFloat.limit; lra.
Qed.

Lemma rnd_nonneg (x : Q) : 0 <= x -> 0 <= rnd x.
Proof. intro H. rewrite <- rnd_zero. apply rnd_mono. exact H. Qed.

Lemma integer_minus (x y : Q) :
  TaxFloat.integer x -> TaxFloat.integer y -> TaxFloat.integer (x - y).
Proof.
  intros [a Ha] [b Hb]. exists (a - b)%Z.
  unfold Z.sub. rewrite inject_Z_plus, inject_Z_opp, Ha, Hb. reflexivity.
Qed.

Lemma integer_plus (x y : Q) :
  TaxFloat.integer x -> TaxFloat.integer y -> TaxFloat.integer (x + y).
Proof.
  intros [a Ha] [b Hb]. exists (a + b)%Z.
  rewrite inject_Z_plus, Ha, Hb. reflexivity.
Qed.

Lemma integer_zero : TaxFloat.integer 0.
Proof. exists 0%Z. reflexivity. Qed.

Lemma integer_proper (x y : Q) :
  x == y -> TaxFloat.integer x -> TaxFloat.integer y.
Proof. intros H [z Hz]. exists z. rewrite <- H. exact Hz. Qed.

Lemma whole_proper (x y : Q) :
  x == y -> TaxFloat.whole x -> TaxFloat.whole y.
Proof.
  intros H (Hi & Hlo & Hhi). split; [apply (integer_proper x y H Hi)|].
  rewrite <- H. split; assumption.
Qed.

(** On whole numbers the income of a bracket is the exact one, and what
    remains after it is a whole number again, computed exactly. *)
Lemma bracket_income_whole (b : bracket) (r : Q) :
  TaxFloat.whole r -> TaxFloat.whole_bracket b -> span_ok b ->
  TaxFloat.bracket_income rnd r b == bracket_income r b /\
  TaxFloat.integer (bracket_income r b) /\
  rnd (r - TaxFloat.bracket_income rnd r b) == r - bracket_income r b /\
  TaxFloat.whole (r - bracket_income r b).
Proof.
  intros (Hri & Hrlo & Hrhi) [(Hmi & Hmlo & Hmhi) Hmax] Hspan.
  assert (Hsub : forall x y,
             TaxFloat.whole x -> TaxFloat.whole y -> rnd (x - y) == x - y).
  { intros x y (Hxi & Hxlo & Hxhi) (Hyi & Hylo & Hyhi).
    apply rnd_exact; [apply integer_minus; assumption| |]; lra. }
  assert (Hr : TaxFloat.whole r) by (split; [|split]; assumption).
  assert (Hm : TaxFloat.whole (b_min b)) by (split; [|split]; assumption).
  assert (Hfl : TaxFloat.bracket_income rnd r b == bracket_income r b).
  { unfold TaxFloat.bracket_income, bracket_income.
    destruct (Qle_bool r 0); [reflexivity|].
    destruct (b_max b) as [m|].
    - destruct (Qle_bool (b_min b) r && Qle_bool r m)%bool;
        [apply Hsub; assumption|].
      destruct (Qlt_bool m r); [apply Hsub; assumption|reflexivity].
    - destruct (Qle_bool (b_min b) r); [apply Hsub; assumption|reflexivity]. }
  assert (Hint : TaxFloat.integer (bracket_income r b)).
  { unfold bracket_income.
    destruct (Qle_bool r 0); [apply integer_zero|].
    destruct (b_max b) as [m|].
    - destruct Hmax as (Hxi & _).
      destruct (Qle_bool (b_min b) r && Qle_bool r m)%bool;
        [apply integer_minus; assumption|].
      destruct (Qlt_bool m r);
        [apply integer_minus; assumption|apply integer_zero].
    - destruct (Qle_bool (b_min b) r);
        [apply integer_minus; assumption|apply integer_zero]. }
  assert (Hrem : TaxFloat.whole (r - bracket_income r b)).
  { split; [apply integer_minus; assumption|].
    unfold span_ok in Hspan. unfold bracket_income.
    destruct (Qle_bool r 0) eqn:E0; [qbool; split; lra|].
    destruct (b_max b) as [m|].
    - destruct Hmax as (_ & Hxlo & Hxhi).
      destruct (Qle_bool (b_min b) r && Qle_bool r m)%bool eqn:E1;
        [qbool; split; lra|].
      destruct (Qlt_bool m r) eqn:E2; qbool; split; lra.
    - destruct (Qle_bool (b_min b) r) eqn:E1; qbool; split; lra. }
  split; [exact Hfl|]. split; [exact Hint|]. split; [|exact Hrem].
  rewrite (rnd_proper _ (r - bracket_income r b)) by (rewrite Hfl; reflexivity).
  destruct Hrem as (Hi & Hlo & Hhi).
  apply rnd_exact; [exact Hi| |]; lra.
Qed.

(** *** The total grows with the income *)

Lemma loop_fl_lower (bs : list bracket) :
  Forall span_ok bs -> Forall rate_ok bs -> Forall TaxFloat.whole_bracket bs ->
  forall total r bd,
    TaxFloat.whole r -> rnd total == total ->
    total <= fst (TaxFloat.bracket_loop rnd bs total r bd).
Proof.
  induction bs as [|b bs IH]; intros Hs Hr Hw total r bd Hwr Htot; simpl;
    [apply Qle_refl|].
  inversion Hs as [|? ? Hsb Hsbs]; inversion Hr as [|? ? Hrb Hrbs];
    inversion Hw as [|? ? Hwb Hwbs]; subst.
  destruct (bracket_income_whole b r Hwr Hwb Hsb) as (Hfl & _ & Hrem & Hwrem).
  set (inc := TaxFloat.bracket_income rnd r b) in *.
  assert (Hinc : 0 <= inc)
    by (rewrite Hfl; apply bracket_income_nonneg; exact Hsb).
  assert (Htax : 0 <= rnd (inc * b_rate b))
    by (apply rnd_nonneg, Qmult_le_0_compat; assumption).
  assert (Hstep : total <= rnd (total + rnd (inc * b_rate b))).
  { rewrite <- Htot at 1. apply rnd_mono. lra. }
  destruct (Qle_bool (rnd (r - inc)) 0); simpl; [exact Hstep|].
  apply (Qle_trans _ _ _ Hstep).
  apply (IH Hsbs Hrbs Hwbs).
  - apply (whole_proper _ _ (Qeq_sym _ _ Hrem) Hwrem).
  - apply rnd_idem.
Qed.

Lemma loop_fl_mono (bs : list bracket) :
  Forall span_ok bs -> Forall rate_ok bs -> Forall TaxFloat.whole_bracket bs ->
  forall t1 t2 r1 r2 bd1 bd2,
    TaxFloat.whole r1 -> TaxFloat.whole r2 -> r1 <= r2 -> t1 <= t2 ->
    rnd t2 == t2 ->
    fst (TaxFloat.bracket_loop rnd bs t1 r1 bd1) <= fst (TaxFloat.bracket_loop rnd bs t2 r2 bd2).
Proof.
  induction bs as [|b bs IH];
    intros Hs Hr Hw t1 t2 r1 r2 bd1 bd2 Hw1 Hw2 Hle Ht Ht2; simpl;
    [exact Ht|].
  inversion Hs as [|? ? Hsb Hsbs]; inversion Hr as [|? ? Hrb Hrbs];
    inversion Hw as [|? ? Hwb Hwbs]; subst.
  destruct (bracket_income_whole b r1 Hw1 Hwb Hsb)
    as (Hfl1 & _ & Hrem1 & Hwrem1).
  destruct (bracket_income_whole b r2 Hw2 Hwb Hsb)
    as (Hfl2 & _ & Hrem2 & Hwrem2).
  destruct (bracket_income_mono b r1 r2 Hsb Hle) as [Hinc Hrem].
  set (inc1 := TaxFloat.bracket_income rnd r1 b) in *.
  set (inc2 := TaxFloat.bracket_income rnd r2 b) in *.
  assert (Hinc1 : 0 <= inc1)
    by (rewrite Hfl1; apply bracket_income_nonneg; exact Hsb).
  assert (Hinc12 : inc1 <= inc2) by (rewrite Hfl1, Hfl2; exact Hinc).
  assert (Htax : rnd (inc1 * b_rate b) <= rnd (inc2 * b_rate b))
    by (apply rnd_mono, Qmult_le_compat_r; assumption).
  assert (Hstep : rnd (t1 + rnd (inc1 * b_rate b))
                  <= rnd (t2 + rnd (inc2 * b_rate b)))
    by (apply rnd_mono; lra).
  assert (Hw1' : TaxFloat.whole (rnd (r1 - inc1)))
    by (apply (whole_proper _ _ (Qeq_sym _ _ Hrem1) Hwrem1)).
  assert (Hw2' : TaxFloat.whole (rnd (r2 - inc2)))
    by (apply (whole_proper _ _ (Qeq_sym _ _ Hrem2) Hwrem2)).
  destruct (Qle_bool (rnd (r1 - inc1)) 0) eqn:E1;
    destruct (Qle_bool (rnd (r2 - inc2)) 0) eqn:E2; simpl; qbool.
  - exact Hstep.
  - apply (Qle_trans _ _ _ Hstep).
    apply (loop_fl_lower bs Hsbs Hrbs Hwbs); [exact Hw2'|apply rnd_idem].
  - rewrite Hrem1 in E1. rewrite Hrem2 in E2.
    destruct Hrem as [Hrem|Hrem]; lra.
  - apply (IH Hsbs Hrbs Hwbs); try assumption; [|apply rnd_idem].
    rewrite Hrem1, Hrem2. rewrite Hrem1 in E1.
    destruct Hrem as [Hrem|Hrem]; [lra|exact Hrem].
Qed.

Lemma total_tax_fl (income : Q) (brackets : list bracket) :
  total_tax (TaxFloat.calculate_tax_liability rnd income brackets)
  = fst (TaxFloat.bracket_loop rnd (sorted_brackets brackets) 0 income []).
Proof.
  unfold TaxFloat.calculate_tax_liability.
  destruct (TaxFloat.bracket_loop rnd (sorted_brackets brackets) 0 income []).
  reflexivity.
Qed.

Lemma total_tax_fl_mono (brackets : list bracket) (i1 i2 : Q) :
  Forall span_ok brackets -> Forall rate_ok brackets ->
  Forall TaxFloat.whole_bracket brackets ->
  TaxFloat.whole i1 -> TaxFloat.whole i2 -> i1 <= i2 ->
  total_tax (TaxFloat.calculate_tax_liability rnd i1 brackets)
  <= total_tax (TaxFloat.calculate_tax_liability rnd i2 brackets).
Proof.
  intros Hs Hr Hw H1 H2 Hle. rewrite !total_tax_fl.
  apply loop_fl_mono; try assumption;
    try (apply sorted_brackets_Forall; assumption);
    [apply Qle_refl|apply rnd_zero].
Qed.

(** *** The total is at most the income *)

Lemma loop_fl_bound (bs : list bracket) :
  Forall span_ok bs -> Forall min_ok bs -> Forall rate_in_unit bs ->
  Forall TaxFloat.whole_bracket bs ->
  forall total r s bd,
    TaxFloat.whole r -> 0 <= r -> TaxFloat.integer s -> 0 <= s ->
    s + r <= TaxFloat.limit -> total <= s ->
    fst (TaxFloat.bracket_loop rnd bs total r bd) <= s + r.
Proof.
  induction bs as [|b bs IH];
    intros Hs Hm Hr Hw total r s bd Hwr Hr0 Hsi Hs0 Hlim Htot; simpl; [lra|].
  inversion Hs as [|? ? Hsb Hsbs]; inversion Hm as [|? ? Hmb Hmbs];
    inversion Hr as [|? ? [Hr0b Hr1b] Hrbs]; inversion Hw as [|? ? Hwb Hwbs];
    subst.
  destruct (bracket_income_whole b r Hwr Hwb Hsb) as (Hfl & Hint & Hrem & Hwrem).
  pose proof (bracket_income_nonneg b r Hsb) as Hnn.
  pose proof (TaxMore.bracket_income_le b r Hmb Hr0) as Hle.
  set (inc := TaxFloat.bracket_income rnd r b) in *.
  assert (Hinci : TaxFloat.integer inc)
    by (apply (integer_proper _ _ (Qeq_sym _ _ Hfl) Hint)).
  assert (Hinc0 : 0 <= inc) by (rewrite Hfl; exact Hnn).
  assert (Hincr : inc <= r) by (rewrite Hfl; exact Hle).
  assert (Htax : rnd (inc * b_rate b) <= inc).
  { rewrite <- (rnd_exact inc Hinci) at 2; [|lra|lra].
    apply rnd_mono.
    setoid_replace inc with (inc * 1) at 2 by ring.
    rewrite (Qmult_comm inc (b_rate b)), (Qmult_comm inc 1).
    apply Qmult_le_compat_r; assumption. }
  assert (Hstep : rnd (total + rnd (inc * b_rate b)) <= s + inc).
  { rewrite <- (rnd_exact (s + inc)); [|apply integer_plus; assumption|lra|lra].
    apply rnd_mono. lra. }
  destruct (Qle_bool (rnd (r - inc)) 0); simpl; [lra|].
  apply Qle_trans with ((s + inc) + rnd (r - inc)); [|lra].
  apply (IH Hsbs Hmbs Hrbs Hwbs).
  - apply (whole_proper _ _ (Qeq_sym _ _ Hrem) Hwrem).
  - lra.
  - apply integer_plus; assumption.
  - lra.
  - lra.
  - exact Hstep.
Qed.

Lemma tax_fl_at_most_income (income : Q) (brackets : list bracket) :
  Forall span_ok brackets -> Forall min_ok brackets ->
  Forall rate_in_unit brackets ->
  Forall TaxFloat.whole_bracket brackets ->
  TaxFloat.whole income -> 0 <= income ->
  let r := TaxFloat.calculate_tax_liability rnd income brackets in
  total_tax r <= income /\ effective_rate r <= 100.
Proof.
  intros Hs Hm Hr Hw Hwi Hi r.
  assert (Htot : total_tax r <= income).
  { subst r. rewrite total_tax_fl.
    setoid_replace income with (0 + income) at 2 by ring.
    apply loop_fl_bound; try assumption;
      try (apply sorted_brackets_Forall; assumption).
    - apply integer_zero.
    - apply Qle_refl.
    - destruct Hwi as (_ & _ & Hhi). lra.
    - apply Qle_refl. }
  split; [exact Htot|].
  subst r. unfold TaxFloat.calculate_tax_liability in *.
  destruct (TaxFloat.bracket_loop rnd (sorted_brackets brackets) 0 income [])
    as [t bd].
  simpl in *.
  destruct (Qlt_bool 0 income) eqn:E; [|lra]. qbool.
  assert (Hdiv : t / income <= 1)
    by (apply Qle_shift_div_r; [assumption|lra]).
  assert (H1 : rnd (t / income) <= 1).
  { apply rnd_le_exact; [exact Hdiv|exists 1%Z; reflexivity| |];
      unfold TaxFloat.limit; lra. }
  apply rnd_le_exact; [lra|exists 100%Z; reflexivity| |];
    unfold TaxFloat.limit; lra.
Qed.

(** *** The incomes of the breakdown *)

Lemma loop_fl_income (bs : list bracket) :
  Forall span_ok bs -> Forall min_ok bs ->
  Forall TaxFloat.whole_bracket bs ->
  forall total r bd,
    TaxFloat.whole r -> 0 <= r ->
    exists new,
      snd (TaxFloat.bracket_loop rnd bs total r bd) = (bd ++ new)%list /\
      0 <= sum_income new /\ sum_income new <= r.
Proof.
  induction bs as [|b bs IH]; intros Hs Hm Hw total r bd Hwr Hr.
  - exists []. simpl. rewrite app_nil_r. split; [reflexivity|]. split; lra.
  - inversion Hs as [|? ? Hsb Hsbs]; inversion Hm as [|? ? Hmb Hmbs];
      inversion Hw as [|? ? Hwb Hwbs]; subst.
    destruct (bracket_income_whole b r Hwr Hwb Hsb) as (Hfl & _ & Hrem & Hwrem).
    pose proof (bracket_income_nonneg b r Hsb) as Hnn.
    pose proof (TaxMore.bracket_income_le b r Hmb Hr) as Hle.
    simpl.
    set (inc := TaxFloat.bracket_income rnd r b) in *.
    set (e := Entry (b_min b) (b_max b) (b_rate b) inc (rnd (inc * b_rate b))).
    assert (Hinc0 : 0 <= inc) by (rewrite Hfl; exact Hnn).
    assert (Hincr : inc <= r) by (rewrite Hfl; exact Hle).
    assert (Hw' : TaxFloat.whole (rnd (r - inc)))
      by (apply (whole_proper _ _ (Qeq_sym _ _ Hrem) Hwrem)).
    assert (Hrem' : rnd (r - inc) == r - inc)
      by (rewrite Hrem, <- Hfl; reflexivity).
    assert (Hr' : 0 <= rnd (r - inc)) by (rewrite Hrem'; lra).
    destruct (Qlt_bool 0 inc) eqn:Ei;
      destruct (Qle_bool (rnd (r - inc)) 0) eqn:Er.
    + exists [e]. split; [reflexivity|]. simpl. split; lra.
    + destruct (IH Hsbs Hmbs Hwbs (rnd (total + rnd (inc * b_rate b)))
                  (rnd (r - inc)) (bd ++ [e]) Hw' Hr')
        as (new & Hsnd & H0 & H1).
      exists (e :: new). rewrite Hsnd, <- app_assoc.
      split; [reflexivity|]. simpl. rewrite Hrem' in H1. split; lra.
    + exists []. rewrite app_nil_r. split; [reflexivity|]. simpl. split; lra.
    + destruct (IH Hsbs Hmbs Hwbs (rnd (total + rnd (inc * b_rate b)))
                  (rnd (r - inc)) bd Hw' Hr')
        as (new & Hsnd & H0 & H1).
      exists new. split; [exact Hsnd|].
      rewrite Hrem' in H1. split; lra.
Qed.

Lemma breakdown_fl_income (income : Q) (brackets : list bracket) :
  Forall span_ok brackets -> Forall min_ok brackets ->
  Forall TaxFloat.whole_bracket brackets ->
  TaxFloat.whole income -> 0 <= income ->
  sum_income
    (bracket_breakdown (TaxFloat.calculate_tax_liability rnd income brackets))
  <= income.
Proof.
  intros Hs Hm Hw Hwi Hi.
  unfold TaxFloat.calculate_tax_liability.
  destruct (loop_fl_income (sorted_brackets brackets)
              (sorted_brackets_Forall _ _ Hs)
              (sorted_brackets_Forall _ _ Hm)
              (sorted_brackets_Forall _ _ Hw) 0 income [] Hwi Hi)
    as (new & Hsnd & _ & Hle).
  destruct (TaxFloat.bracket_loop rnd (sorted_brackets brackets) 0 income [])
    as [t bd].
  simpl in *. subst bd. exact Hle.
Qed.

End Rounded.

End TaxRounding.

(** ** The rounding of binary64 *)

Module Binary64Facts.

Import Binary64.
Local Open Scope Q_scope.

Ltac absz :=
  repeat match goal with
  | |- context [inject_Z ?t] =>
      let v := fresh "v" in set (v := inject_Z t) in *; clearbody v
  | H : context [inject_Z ?t] |- _ =>
      let v := fresh "v" in set (v := inject_Z t) in *; clearbody v
  end.

(** *** Powers of 2 *)

Lemma pow2_pos (e : Z) : 0 < 2 ^ e.
Proof. apply Qpower_0_lt. reflexivity. Qed.

Lemma pow2_le (a b : Z) : (a <= b)%Z -> 2 ^ a <= 2 ^ b.
Proof. intro H. apply Qpower_le_compat_l; [exact H|discriminate]. Qed.

Lemma pow2_plus (a b : Z) : 2 ^ (a + b) == 2 ^ a * 2 ^ b.
Proof. apply Qpower_plus. discriminate. Qed.

Lemma pow2_int (e : Z) : (0 <= e)%Z -> 2 ^ e == inject_Z (2 ^ e).
Proof. intro H. symmetry. apply (Zpower_Qpower 2 e H). Qed.

Lemma pow2_split (a u : Z) : 2 ^ a == 2 ^ (a - u) * 2 ^ u.
Proof. rewrite <- pow2_plus. replace (a - u + u)%Z with a by lia. reflexivity. Qed.

(** *** The nearest integer *)

Lemma rne_Z (z : Z) : rne (inject_Z z) = z.
Proof.
  unfold rne. rewrite Qfloor_Z.
  assert (E : Qcompare (inject_Z z - inject_Z z) (1 # 2) = Lt).
  { apply (proj1 (Qlt_alt _ _)). absz. lra. }
  rewrite E. reflexivity.
Qed.

Lemma rne_comp (x y : Q) : x == y -> rne x = rne y.
Proof.
  intro H. unfold rne. rewrite (Qfloor_comp x y H).
  assert (E : Qcompare (x - inject_Z (Qfloor y)) (1 # 2)
              = Qcompare (y - inject_Z (Qfloor y)) (1 # 2)).
  { apply Qcompare_comp; [rewrite H; reflexivity|reflexivity]. }
  rewrite E. reflexivity.
Qed.

Lemma rne_mono (x y : Q) : x <= y -> (rne x <= rne y)%Z.
Proof.
  intro H. pose proof (Qfloor_resp_le x y H) as Hf.
  pose proof (Qfloor_le x) as Hx0. pose proof (Qlt_floor x) as Hx1.
  pose proof (Qfloor_le y) as Hy0. pose proof (Qlt_floor y) as Hy1.
  unfold rne.
  destruct (Z.eq_dec (Qfloor x) (Qfloor y)) as [E|E].
  - rewrite <- E in *.
    destruct (Qcompare_spec (x - inject_Z (Qfloor x)) (1 # 2)) as [Ex|Ex|Ex];
      destruct (Qcompare_spec (y - inject_Z (Qfloor x)) (1 # 2)) as [Ey|Ey|Ey];
      try destruct (Z.even (Qfloor x)); try lia; exfalso; absz; lra.
  - assert (Hlt : (Qfloor x + 1 <= Qfloor y)%Z) by lia.
    destruct (Qcompare (x - inject_Z (Qfloor x)) (1 # 2));
      destruct (Qcompare (y - inject_Z (Qfloor y)) (1 # 2));
      try destruct (Z.even (Qfloor x)); try destruct (Z.even (Qfloor y));
      lia.
Qed.

Lemma rne_nonneg (x : Q) : 0 <= x -> (0 <= rne x)%Z.
Proof.
  intro H. change 0%Z with (rne (inject_Z 0)) at 1.
  - apply rne_mono. exact H.
Qed.

(** *** The exponent *)

Lemma ilog2_spec (q : Q) :
  0 < q -> 2 ^ ilog2 q <= q /\ q < 2 ^ (ilog2 q + 1).
Proof.
  intro Hq. destruct q as [n d].
  assert (Hn : (0 < n)%Z).
  { unfold Qlt in Hq. simpl in Hq. lia. }
  pose proof (Z.log2_spec n Hn) as [Hn0 Hn1].
  pose proof (Z.log2_spec (Zpos d) (Pos2Z.is_pos d)) as [Hd0 Hd1].
  pose proof (Z.log2_nonneg n) as Ha. pose proof (Z.log2_nonneg (Zpos d)) as Hb.
  set (a := Z.log2 n) in *. set (b := Z.log2 (Zpos d)) in *.
  assert (Hdpos : 0 < inject_Z (Zpos d)) by reflexivity.
  assert (Hq' : n # d == inject_Z n / inject_Z (Zpos d)) by apply Qmake_Qdiv.
  assert (Qn0 : 2 ^ a <= inject_Z n).
  { rewrite (pow2_int a Ha). rewrite <- Zle_Qle. exact Hn0. }
  assert (Qn1 : inject_Z n < 2 ^ (a + 1)).
  { rewrite (pow2_int (a + 1)) by lia. rewrite <- Zlt_Qlt.
    replace (a + 1)%Z with (Z.succ a) by lia. exact Hn1. }
  assert (Qd0 : 2 ^ b <= inject_Z (Zpos d)).
  { rewrite (pow2_int b Hb). rewrite <- Zle_Qle. exact Hd0. }
  assert (Qd1 : inject_Z (Zpos d) < 2 ^ (b + 1)).
  { rewrite (pow2_int (b + 1)) by lia. rewrite <- Zlt_Qlt.
    replace (b + 1)%Z with (Z.succ b) by lia. exact Hd1. }
  assert (Hup : n # d < 2 ^ (a - b + 1)).
  { rewrite Hq'. apply Qlt_shift_div_r; [exact Hdpos|].
    apply Qlt_le_trans with (2 ^ (a + 1)); [exact Qn1|].
    replace (a + 1)%Z with ((a - b + 1) + b)%Z by lia.
    rewrite pow2_plus.
    apply Qmult_le_l; [apply pow2_pos|exact Qd0]. }
  assert (Hlo : 2 ^ (a - b - 1) <= n # d).
  { rewrite Hq'. apply Qle_shift_div_l; [exact Hdpos|].
    apply Qle_trans with (2 ^ a); [|exact Qn0].
    replace a with ((a - b - 1) + (b + 1))%Z at 2 by lia.
    rewrite pow2_plus.
    apply Qmult_le_l; [apply pow2_pos|apply Qlt_le_weak; exact Qd1]. }
  unfold ilog2. simpl Qnum. simpl Qden. fold a. fold b.
  destruct (Qle_bool (2 ^ (a - b)) (n # d)) eqn:E.
  - apply Qle_bool_iff in E. split; assumption.
  - apply Qle_bool_false in E.
    replace (a - b - 1 + 1)%Z with (a - b)%Z by lia. split; assumption.
Qed.

Lemma ilog2_mono (x y : Q) : 0 < x -> x <= y -> (ilog2 x <= ilog2 y)%Z.
Proof.
  intros Hx Hxy.
  destruct (ilog2_spec x Hx) as [Hx0 _].
  destruct (ilog2_spec y (Qlt_le_trans _ _ _ Hx Hxy)) as [_ Hy1].
  destruct (Z.le_gt_cases (ilog2 x) (ilog2 y)) as [H|H]; [exact H|].
  exfalso.
  assert (Hp : 2 ^ (ilog2 y + 1) <= 2 ^ ilog2 x) by (apply pow2_le; lia).
  lra.
Qed.

(** *** Rounding a positive number *)

Lemma ulp_exp_cases (q : Q) :
  (ulp_exp q = ilog2 q - 52 /\ -1074 <= ilog2 q - 52)%Z \/
  (ulp_exp q = -1074 /\ ilog2 q - 52 <= -1074)%Z.
Proof. unfold ulp_exp. lia. Qed.

Lemma scaled_le (q : Q) (u m : Z) :
  q <= inject_Z m * 2 ^ u ->
  inject_Z (rne (q / 2 ^ u)) * 2 ^ u <= inject_Z m * 2 ^ u.
Proof.
  intro H. apply Qmult_le_compat_r; [|apply Qlt_le_weak, pow2_pos].
  rewrite <- Zle_Qle.
  apply Z.le_trans with (rne (inject_Z m)); [|rewrite rne_Z; lia].
  apply rne_mono. apply Qle_shift_div_r; [apply pow2_pos|exact H].
Qed.

Lemma scaled_ge (q : Q) (u m : Z) :
  inject_Z m * 2 ^ u <= q ->
  inject_Z m * 2 ^ u <= inject_Z (rne (q / 2 ^ u)) * 2 ^ u.
Proof.
  intro H. apply Qmult_le_compat_r; [|apply Qlt_le_weak, pow2_pos].
  rewrite <- Zle_Qle.
  apply Z.le_trans with (rne (inject_Z m)); [rewrite rne_Z; lia|].
  apply rne_mono. apply Qle_shift_div_l; [apply pow2_pos|exact H].
Qed.

Lemma pow2_lt_inv (a b : Z) : 2 ^ a < 2 ^ b -> (a < b)%Z.
Proof. intro H. apply (Qpower_lt_compat_l_inv 2); [exact H|reflexivity]. Qed.

(** A number [m * 2^v] with [m] below 2^53 and [v] from -1074 up is a
    number of the format. *)
Lemma round_pos_fixed (q : Q) (m v : Z) :
  (0 < m < 2 ^ 53)%Z -> (-1074 <= v)%Z -> q == inject_Z m * 2 ^ v ->
  round_pos q == q.
Proof.
  intros [Hm0 Hm1] Hv Hq.
  assert (Hpos : 0 < q).
  { rewrite Hq. apply Qmult_lt_0_compat; [|apply pow2_pos].
    change 0 with (inject_Z 0). rewrite <- Zlt_Qlt. exact Hm0. }
  destruct (ilog2_spec q Hpos) as [He0 _].
  assert (Hup : q < 2 ^ (53 + v)).
  { rewrite Hq, pow2_plus. apply Qmult_lt_r; [apply pow2_pos|].
    rewrite (pow2_int 53) by lia. rewrite <- Zlt_Qlt. exact Hm1. }
  assert (He : (ilog2 q < 53 + v)%Z).
  { apply pow2_lt_inv. apply Qle_lt_trans with q; assumption. }
  assert (Hu : (ulp_exp q <= v)%Z)
    by (unfold ulp_exp; lia).
  set (u := ulp_exp q) in *.
  assert (Hform : q == inject_Z (m * 2 ^ (v - u)) * 2 ^ u).
  { rewrite Hq, inject_Z_mult, <- (pow2_int (v - u)) by lia.
    rewrite (pow2_split v u). ring. }
  assert (Hscaled : q / 2 ^ u == inject_Z (m * 2 ^ (v - u))).
  { rewrite Hform at 1. apply Qdiv_mult_l.
    intro H0. pose proof (pow2_pos u) as Hp. rewrite H0 in Hp.
    apply (Qlt_irrefl 0 Hp). }
  unfold round_pos. fold u.
  rewrite (rne_comp _ _ Hscaled), rne_Z. symmetry. exact Hform.
Qed.

Lemma round_pos_fixed_upto (q : Q) (m v : Z) :
  (0 < m <= 2 ^ 53)%Z -> (-1074 <= v)%Z -> q == inject_Z m * 2 ^ v ->
  round_pos q == q.
Proof.
  intros [Hm0 Hm1] Hv Hq.
  destruct (Z.eq_dec m (2 ^ 53)) as [E|E].
  - apply (round_pos_fixed q (2 ^ 52) (v + 1)); [lia|lia|].
    rewrite Hq, E, pow2_plus.
    rewrite <- (pow2_int 53), <- (pow2_int 52) by lia.
    replace 53%Z with (52 + 1)%Z by lia. rewrite pow2_plus. ring.
  - apply (round_pos_fixed q m v); [lia|exact Hv|exact Hq].
Qed.

(** What [round_pos] returns: a multiple of the unit in the last place by
    an integer of at most 2^53. *)
Lemma round_pos_form (q : Q) :
  0 < q ->
  (0 <= rne (q / 2 ^ ulp_exp q) <= 2 ^ 53)%Z.
Proof.
  intro Hpos. destruct (ilog2_spec q Hpos) as [_ He1].
  set (u := ulp_exp q).
  assert (Hu : (ilog2 q + 1 - u <= 53)%Z)
    by (subst u; unfold ulp_exp; lia).
  split.
  - apply rne_nonneg. apply Qle_shift_div_l; [apply pow2_pos|].
    rewrite Qmult_0_l. apply Qlt_le_weak. exact Hpos.
  - apply Z.le_trans with (rne (inject_Z (2 ^ 53))); [|rewrite rne_Z; lia].
    apply rne_mono. apply Qle_shift_div_r; [apply pow2_pos|].
    rewrite <- (pow2_int 53), <- pow2_plus by lia.
    apply Qle_trans with (2 ^ (ilog2 q + 1)); [apply Qlt_le_weak; exact He1|].
    apply pow2_le. lia.
Qed.

Lemma round_pos_nonneg (q : Q) : 0 < q -> 0 <= round_pos q.
Proof.
  intro Hpos. unfold round_pos.
  apply Qmult_le_0_compat; [|apply Qlt_le_weak, pow2_pos].
  change 0 with (inject_Z 0). rewrite <- Zle_Qle.
  apply (round_pos_form q Hpos).
Qed.

Lemma round_pos_mono (x y : Q) :
  0 < x -> x <= y -> round_pos x <= round_pos y.
Proof.
  intros Hx Hxy.
  assert (Hy : 0 < y) by (apply Qlt_le_trans with x; assumption).
  pose proof (ilog2_mono x y Hx Hxy) as He.
  destruct (ilog2_spec x Hx) as [_ Hx1].
  destruct (ilog2_spec y Hy) as [Hy0 _].
  unfold round_pos.
  destruct (Z.eq_dec (ulp_exp x) (ulp_exp y)) as [E|E].
  - rewrite E. apply Qmult_le_compat_r; [|apply Qlt_le_weak, pow2_pos].
    rewrite <- Zle_Qle. apply rne_mono.
    apply Qmult_le_compat_r; [exact Hxy|].
    apply Qlt_le_weak, Qinv_lt_0_compat, pow2_pos.
  - assert (Hu : (ulp_exp y = ilog2 y - 52 /\ ulp_exp x < ulp_exp y
                  /\ ilog2 x + 1 <= ilog2 y)%Z).
    { destruct (ulp_exp_cases x) as [[Ex Hx']|[Ex Hx']];
        destruct (ulp_exp_cases y) as [[Ey Hy']|[Ey Hy']]; lia. }
    destruct Hu as (Ey & Hlt & Hee).
    apply Qle_trans with (2 ^ ilog2 y).
    + rewrite (pow2_split (ilog2 y) (ulp_exp x)).
      rewrite (pow2_int (ilog2 y - ulp_exp x)) by lia.
      apply scaled_le.
      rewrite <- (pow2_int (ilog2 y - ulp_exp x)) by lia.
      rewrite <- (pow2_split (ilog2 y) (ulp_exp x)).
      apply Qle_trans with (2 ^ (ilog2 x + 1));
        [apply Qlt_le_weak; exact Hx1|apply pow2_le; exact Hee].
    + rewrite (pow2_split (ilog2 y) (ulp_exp y)).
      rewrite (pow2_int (ilog2 y - ulp_exp y)) by lia.
      apply scaled_ge.
      rewrite <- (pow2_int (ilog2 y - ulp_exp y)) by lia.
      rewrite <- (pow2_split (ilog2 y) (ulp_exp y)). exact Hy0.
Qed.

(** *** The rounding *)

Lemma round64_pos (q : Q) : 0 < q -> round64 q = round_pos q.
Proof.
  intro H. unfold round64.
  rewrite (proj1 (Qgt_alt q 0) H). reflexivity.
Qed.

Lemma round64_neg (q : Q) : q < 0 -> round64 q = - round_pos (- q).
Proof.
  intro H. unfold round64.
  rewrite (proj1 (Qlt_alt q 0) H). reflexivity.
Qed.

Lemma round64_zero (q : Q) : q == 0 -> round64 q = 0.
Proof.
  intro H. unfold round64.
  rewrite (proj1 (Qeq_alt q 0) H). reflexivity.
Qed.

Lemma round64_mono (x y : Q) : x <= y -> round64 x <= round64 y.
Proof.
  intro Hxy.
  destruct (Q_dec x 0) as [[Hx|Hx]|Hx]; destruct (Q_dec y 0) as [[Hy|Hy]|Hy];
    try (exfalso; lra).
  - rewrite (round64_neg x Hx), (round64_neg y Hy).
    assert (H : round_pos (- y) <= round_pos (- x))
      by (apply round_pos_mono; lra).
    lra.
  - rewrite (round64_neg x Hx), (round64_pos y Hy).
    assert (H1 : 0 <= round_pos (- x)) by (apply round_pos_nonneg; lra).
    assert (H2 : 0 <= round_pos y) by (apply round_pos_nonneg; lra).
    lra.
  - rewrite (round64_neg x Hx), (round64_zero y Hy).
    assert (H1 : 0 <= round_pos (- x)) by (apply round_pos_nonneg; lra).
    lra.
  - rewrite (round64_pos x Hx), (round64_pos y Hy).
    apply round_pos_mono; assumption.
  - rewrite (round64_zero x Hx), (round64_pos y Hy).
    apply round_pos_nonneg. exact Hy.
  - rewrite (round64_zero x Hx), (round64_zero y Hy). apply Qle_refl.
Qed.

(** A rounded number is a number of the format. *)
Lemma round_pos_idem (q : Q) :
  0 < q -> round64 (round_pos q) == round_pos q.
Proof.
  intro Hpos. destruct (round_pos_form q Hpos) as [Hm0 Hm1].
  unfold round_pos in *. set (u := ulp_exp q) in *.
  set (m := rne (q / 2 ^ u)) in *.
  assert (Hu : (-1074 <= u)%Z) by (subst u; unfold ulp_exp; lia).
  destruct (Z.eq_dec m 0) as [E|E].
  - rewrite E. rewrite round64_zero; [|ring]. ring.
  - assert (Hv : 0 < inject_Z m * 2 ^ u).
    { apply Qmult_lt_0_compat; [|apply pow2_pos].
      change 0 with (inject_Z 0). rewrite <- Zlt_Qlt. lia. }
    rewrite (round64_pos _ Hv).
    apply (round_pos_fixed_upto _ m u); [lia|exact Hu|reflexivity].
Qed.

Lemma round64_idem (x : Q) : round64 (round64 x) == round64 x.
Proof.
  destruct (Q_dec x 0) as [[Hx|Hx]|Hx].
  - rewrite (round64_neg x Hx).
    assert (Hpos : 0 < - x) by lra.
    pose proof (round_pos_idem (- x) Hpos) as Hid.
    pose proof (round_pos_nonneg (- x) Hpos) as Hnn.
    set (v := round_pos (- x)) in *.
    destruct (Q_dec v 0) as [[Hv|Hv]|Hv]; [exfalso; lra| |].
    + assert (Hneg : - v < 0) by lra.
      rewrite (round64_neg _ Hneg).
      assert (E : round_pos (- - v) == v).
      { rewrite (round64_pos v Hv) in Hid.
        destruct (round_pos_form (- x) Hpos) as [Hm0 Hm1].
        assert (Hu : (-1074 <= ulp_exp (- x))%Z) by (unfold ulp_exp; lia).
        assert (Hm : (rne (- x / 2 ^ ulp_exp (- x)) <> 0)%Z).
        { intro E0. subst v. unfold round_pos in Hv. rewrite E0 in Hv.
          rewrite Qmult_0_l in Hv. apply (Qlt_irrefl 0 Hv). }
        assert (Hq : - - v == v) by ring.
        rewrite <- Hq at 2.
        apply (round_pos_fixed_upto _ (rne (- x / 2 ^ ulp_exp (- x)))
                 (ulp_exp (- x))); [lia|exact Hu|].
        rewrite Hq. subst v. reflexivity. }
      rewrite E. reflexivity.
    + rewrite round64_zero; [|rewrite Hv; ring]. rewrite Hv. ring.
  - rewrite (round64_pos x Hx). apply round_pos_idem. exact Hx.
  - rewrite (round64_zero x Hx). reflexivity.
Qed.

Lemma round64_whole (z : Z) :
  (- 2 ^ 53 <= z <= 2 ^ 53)%Z -> round64 (inject_Z z) == inject_Z z.
Proof.
  intros [Hlo Hhi].
  assert (Hone : forall x : Q, x == x * 2 ^ 0) by (intro x; simpl; ring).
  destruct (Z.lt_total z 0) as [Hz|[Hz|Hz]].
  - assert (Hneg : inject_Z z < 0)
      by (change 0 with (inject_Z 0); rewrite <- Zlt_Qlt; exact Hz).
    rewrite (round64_neg _ Hneg).
    rewrite (round_pos_fixed_upto (- inject_Z z) (- z) 0); [ring|lia|lia|].
    rewrite inject_Z_opp. apply Hone.
  - subst z. reflexivity.
  - assert (Hpos : 0 < inject_Z z)
      by (change 0 with (inject_Z 0); rewrite <- Zlt_Qlt; exact Hz).
    rewrite (round64_pos _ Hpos).
    apply (round_pos_fixed_upto _ z 0); [lia|lia|apply Hone].
Qed.

(** The rounding of binary64 is a rounding in the sense the properties of
    the tax calculator use. *)
Lemma round64_rounding : TaxFloat.rounding round64.
Proof.
  split; [exact round64_mono|]. split; [exact round64_idem|].
  intros z Hlo Hhi. apply round64_whole.
  unfold TaxFloat.limit in *.
  assert (H1 : inject_Z (- 2 ^ 53) <= inject_Z z).
  { apply Qle_trans with (- (2 * 4503599627370496)); [|exact Hlo].
    vm_compute. discriminate. }
  assert (H2 : inject_Z z <= inject_Z (2 ^ 53)).
  { apply Qle_trans with (2 * 4503599627370496); [exact Hhi|].
    vm_compute. discriminate. }
  rewrite <- Zle_Qle in H1, H2. lia.
Qed.

(** *** The rounding with overflow *)

Lemma top_large : 2 * TaxFloat.limit < top.
Proof. vm_compute. reflexivity. Qed.

Lemma clamp_cases (r : Q) :
  (top <= r /\ clamp r = top)
  \/ (r <= - top /\ clamp r = - top)
  \/ (- top < r /\ r < top /\ clamp r = r).
Proof.
  pose proof top_large as Ht. unfold TaxFloat.limit in Ht.
  unfold clamp.
  destruct (Qle_bool top r) eqn:E1.
  - left. split; [apply Qle_bool_iff; exact E1|reflexivity].
  - assert (H1 : r < top).
    { apply Qnot_le_lt. intro H. apply Qle_bool_iff in H. congruence. }
    destruct (Qle_bool r (- top)) eqn:E2.
    + right. left. split; [apply Qle_bool_iff; exact E2|reflexivity].
    + right. right. split; [|split; [exact H1|reflexivity]].
      apply Qnot_le_lt. intro H. apply Qle_bool_iff in H. congruence.
Qed.

Lemma clamp_mono (x y : Q) : x <= y -> clamp x <= clamp y.
Proof.
  intro Hxy. pose proof top_large as Ht. unfold TaxFloat.limit in Ht.
  destruct (clamp_cases x) as [[Hx ->]|[[Hx ->]|(Hx1 & Hx2 & ->)]];
    destruct (clamp_cases y) as [[Hy ->]|[[Hy ->]|(Hy1 & Hy2 & ->)]];
    lra.
Qed.

Lemma clamp_top : clamp (round64 top) == top.
Proof. vm_compute. reflexivity. Qed.

Lemma clamp_bottom : clamp (round64 (- top)) == - top.
Proof. vm_compute. reflexivity. Qed.

Lemma clamp_inside (r r' : Q) :
  r' == r -> - top < r -> r < top -> clamp r' == r.
Proof.
  intros E H1 H2.
  destruct (clamp_cases r') as [[Hx ->]|[[Hx ->]|(Hx1 & Hx2 & ->)]]; lra.
Qed.

Lemma saturated_rounding : TaxFloat.rounding saturated.
Proof.
  pose proof top_large as Ht.
  split; [|split].
  - intros x y Hxy. apply clamp_mono, round64_mono, Hxy.
  - intro x. unfold saturated.
    destruct (clamp_cases (round64 x)) as [[Hx ->]|[[Hx ->]|(Hx1 & Hx2 & ->)]].
    + exact clamp_top.
    + exact clamp_bottom.
    + apply clamp_inside; [apply round64_idem|exact Hx1|exact Hx2].
  - intros z Hlo Hhi. unfold saturated.
    apply clamp_inside; [|lra|lra].
    destruct round64_rounding as (_ & _ & Hw). apply Hw; assumption.
Qed.

End Binary64Facts.

(** ** The tax calculator on numbers of binary64 *)

Module TaxInFloats.

Import TaxCalculator TaxTable TaxFacts.
Local Open Scope Q_scope.

Lemma whole_number (z : Z) :
  (- 2 ^ 52 <= z <= 2 ^ 52)%Z -> TaxFloat.whole (inject_Z z).
Proof.
  intros [Hlo Hhi]. split; [exists z; reflexivity|].
  unfold TaxFloat.limit, Qle. simpl. lia.
Qed.

Ltac closed_order := vm_compute; discriminate.

Lemma float_table_span_ok : Forall span_ok TaxFloat.default_tax_brackets.
Proof.
  repeat (constructor; [unfold span_ok; simpl; try exact I; closed_order|]).
  constructor.
Qed.

Lemma float_table_min_ok : Forall min_ok TaxFloat.default_tax_brackets.
Proof.
  repeat (constructor; [unfold min_ok; simpl; closed_order|]).
  constructor.
Qed.

Lemma float_table_rate_ok : Forall rate_ok TaxFloat.default_tax_brackets.
Proof.
  repeat (constructor; [unfold rate_ok; closed_order|]).
  constructor.
Qed.

Lemma float_table_rate_in_unit :
  Forall rate_in_unit TaxFloat.default_tax_brackets.
Proof.
  repeat (constructor; [split; closed_order|]).
  constructor.
Qed.

Lemma float_table_whole :
  Forall TaxFloat.whole_bracket TaxFloat.default_tax_brackets.
Proof.
  unfold TaxFloat.default_tax_brackets, TaxFloat.rates_as_literals,
    default_tax_brackets.
  simpl map.
  repeat (constructor;
          [split; simpl;
           [apply (whole_number _); lia
           |try exact I; apply (whole_number _); lia]|]).
  constructor.
Qed.



(** The order is kept as well when a product or a sum overflows: the
    total for the larger income is then [inf], here 2^1024, too. *)
Lemma total_tax_monotone_with_overflow (brackets : list bracket)
    (Hspan : Forall span_ok brackets) (Hrate : Forall rate_ok brackets)
    (Hwhole : Forall TaxFloat.whole_bracket brackets)
    (i1 i2 : Q) (H1 : TaxFloat.whole i1) (H2 : TaxFloat.whole i2)
    (Hle : i1 <= i2) :
  total_tax (TaxFloat.calculate_tax_liability Binary64.saturated i1 brackets)
  <= total_tax
       (TaxFloat.calculate_tax_liability Binary64.saturated i2 brackets).
Proof.
  exact (TaxRounding.total_tax_fl_mono Binary64.saturated
           Binary64Facts.saturated_rounding brackets i1 i2
           Hspan Hrate Hwhole H1 H2 Hle).
Qed.

(** The bracket 10 to 5 at 10% breaks the order in binary64 as it does in
    exact arithmetic: an income of 5 owes nothing, an income of 6 owes
    -0.5. *)
Lemma reversed_bracket_in_binary64 :
  total_tax (TaxFloat.calculate_tax_liability Binary64.round64 6
               (TaxFloat.rates_as_literals reversed_bracket))
  < total_tax (TaxFloat.calculate_tax_liability Binary64.round64 5
                 (TaxFloat.rates_as_literals reversed_bracket)).
Proof.
  vm_compute. reflexivity.
Qed.

(** Without the condition on whole numbers the rounding of binary64 breaks
    the order: with two brackets that begin at 0.3, the second at the rate
    0.5, an income of 0.8 leaves 0.30000000000000004 after the first
    bracket, of which the second takes a sliver, and owes 2^-55; an income
    of 0.9 owes 0. *)
Lemma rounding_breaks_the_order :
  Forall span_ok TaxFloat.sliver_table /\
  Forall rate_ok TaxFloat.sliver_table /\
  total_tax (TaxFloat.calculate_tax_liability Binary64.round64
               (TaxFloat.literal (9 # 10)) TaxFloat.sliver_table)
  < total_tax (TaxFloat.calculate_tax_liability Binary64.round64
                 (TaxFloat.literal (8 # 10)) TaxFloat.sliver_table).
Proof.
  split; [|split].
  - repeat (constructor; [unfold span_ok; simpl; closed_order|]). constructor.
  - repeat (constructor; [unfold rate_ok; closed_order|]). constructor.
  - vm_compute. reflexivity.
Qed.



(** With bounds that are no whole numbers the rounded total can exceed the
    income: four brackets at the rate 1 up to 0.4, 0.9, 2 and 0.5 and an
    income of 2.9 give a total of 2.9000000000000004. *)
Lemma rounding_exceeds_the_income :
  Forall span_ok TaxFloat.fraction_table /\
  Forall min_ok TaxFloat.fraction_table /\
  Forall rate_in_unit TaxFloat.fraction_table /\
  TaxFloat.literal (29 # 10)
  < total_tax (TaxFloat.calculate_tax_liability Binary64.round64
                 (TaxFloat.literal (29 # 10)) TaxFloat.fraction_table).
Proof.
  split; [|split; [|split]].
  - repeat (constructor; [unfold span_ok; simpl; closed_order|]). constructor.
  - repeat (constructor; [unfold min_ok; simpl; closed_order|]). constructor.
  - repeat (constructor; [split; closed_order|]). constructor.
  - vm_compute. reflexivity.
Qed.



End TaxInFloats.
